(** * jma-scraper: a shallow embedding of [scrape.py] and [validate.py]

    The development follows the two scripts function by function.

    - Text ([str]) is a [string] holding the UTF-8 bytes of the text; the
      codec of [open(..., encoding='utf8')] is then the identity.  All
      separators the scripts search for are ASCII, so searching and
      splitting on bytes agrees with searching on characters.
    - [int] is [Z].
    - An exception is a value of [exn]; a call that may raise returns a
      [result].
    - The file system, the remote site and the order of the effects are kept
      in an explicit [world] that every effectful function threads. *)

From Stdlib Require Import ZArith QArith List String Ascii Lia Bool.
From stdpp Require Import base option list gmap strings pretty sorting.

Local Open Scope string_scope.
Local Open Scope list_scope.
Local Open Scope Z_scope.

(** ** Exceptions and results *)

Inductive exn : Type :=
| ValueError
| TypeError
| KeyError
| IndexError
| AttributeError
| OverflowError
| HTTPError
| FileNotFoundError
| OSError.

Inductive result (A : Type) : Type :=
| Ok (a : A)
| Raise (e : exn).

Arguments Ok {A} a.
Arguments Raise {A} e.

Global Instance result_ret : MRet result := λ A a, Ok a.

Global Instance result_bind : MBind result := λ A B k r,
  match r with
  | Ok a => k a
  | Raise e => Raise e
  end.

Definition of_option {A : Type} (e : exn) (o : option A) : result A :=
  match o with
  | Some a => Ok a
  | None => Raise e
  end.

(** ** Strings *)

Module Str.

(** [s[:n]] *)
Fixpoint take (n : nat) (s : string) : string :=
  match n, s with
  | S k, String c r => String c (take k r)
  | _, _ => ""
  end.

(** [s[n:]] *)
Fixpoint drop (n : nat) (s : string) : string :=
  match n, s with
  | S k, String _ r => drop k r
  | _, _ => s
  end.

(** [s.startswith(p)] *)
Definition startswith (p s : string) : bool := String.prefix p s.

(** [s.split(sep)] for a non-empty separator: [cur] is the field being
    read, [skip] counts the separator bytes still to pass over. *)
Fixpoint split_aux (sep : string) (skip : nat) (cur : string) (s : string)
  : list string :=
  match s with
  | "" => [cur]
  | String c r =>
      match skip with
      | S k => split_aux sep k cur r
      | O =>
          if String.prefix sep s
          then cur :: split_aux sep (String.length sep - 1) "" r
          else split_aux sep 0 (cur +:+ String c "") r
      end
  end.

Definition split (sep s : string) : list string := split_aux sep 0 "" s.

Definition is_digit (c : ascii) : bool :=
  let n := nat_of_ascii c in (48 <=? n)%nat && (n <=? 57)%nat.

Definition digit_val (c : ascii) : Z := Z.of_nat (nat_of_ascii c) - 48.

(** The decimal digit [0..9] as a character. *)
Definition digit_char (n : Z) : ascii := ascii_of_nat (48 + Z.to_nat n).

Fixpoint all_digits (s : string) : bool :=
  match s with
  | "" => true
  | String c r => is_digit c && all_digits r
  end.

(** Value of a string of decimal digits, most significant first. *)
Fixpoint digits_val (acc : Z) (s : string) : Z :=
  match s with
  | "" => acc
  | String c r => digits_val (10 * acc + digit_val c) r
  end.

(** [f'{n:02}'] for [0 <= n < 100] and ['%m'], ['%d'] of [strftime]. *)
Definition pad2 (n : Z) : string :=
  String (digit_char (n / 10)) (String (digit_char (n mod 10)) "").

(** ['%Y'] of [strftime] for [0 <= n < 10000]. *)
Definition pad4 (n : Z) : string :=
  String (digit_char (n / 1000))
    (String (digit_char (n / 100 mod 10))
       (String (digit_char (n / 10 mod 10))
          (String (digit_char (n mod 10)) ""))).

End Str.

(** ** The calendar of [datetime]

    [datetime] works in the proleptic Gregorian calendar with years
    [1..9999].  [toordinal] is the day number ([0001-01-01] is day 1);
    the difference of two dates in days is the difference of their
    ordinals.  Adding [timedelta(days=i)] moves [i] calendar days forward
    and raises [OverflowError] past [9999-12-31]. *)

Record date : Type := mkdate { year : Z; month : Z; day : Z }.

Global Instance date_eq_dec : EqDecision date.
Proof. solve_decision. Defined.

Definition is_leap (y : Z) : bool :=
  (y mod 4 =? 0) && (negb (y mod 100 =? 0) || (y mod 400 =? 0)).

Definition days_in_month (y m : Z) : Z :=
  if m =? 2 then (if is_leap y then 29 else 28)
  else if (m =? 4) || (m =? 6) || (m =? 9) || (m =? 11) then 30
  else 31.

Definition days_before_year (y : Z) : Z :=
  let p := y - 1 in p * 365 + p / 4 - p / 100 + p / 400.

Definition days_before_month (y m : Z) : Z :=
  let base :=
    if m =? 1 then 0 else if m =? 2 then 31 else if m =? 3 then 59
    else if m =? 4 then 90 else if m =? 5 then 120 else if m =? 6 then 151
    else if m =? 7 then 181 else if m =? 8 then 212 else if m =? 9 then 243
    else if m =? 10 then 273 else if m =? 11 then 304 else 334 in
  if (2 <? m) && is_leap y then base + 1 else base.

Definition toordinal (d : date) : Z :=
  days_before_year (year d) + days_before_month (year d) (month d) + day d.

Definition valid_date (d : date) : bool :=
  (1 <=? year d) && (year d <=? 9999) &&
  (1 <=? month d) && (month d <=? 12) &&
  (1 <=? day d) && (day d <=? days_in_month (year d) (month d)).

(** The day after [d]; [None] after [9999-12-31]. *)
Definition next_day (d : date) : option date :=
  if day d <? days_in_month (year d) (month d)
  then Some (mkdate (year d) (month d) (day d + 1))
  else if month d <? 12 then Some (mkdate (year d) (month d + 1) 1)
  else if year d <? 9999 then Some (mkdate (year d + 1) 1 1)
  else None.

(** [d + timedelta(days=i)] for [i >= 0]. *)
Fixpoint add_days (d : date) (i : nat) : result date :=
  match i with
  | O => Ok d
  | S k =>
      match next_day d with
      | Some d' => add_days d' k
      | None => Raise OverflowError
      end
  end.

(** Chronological order on dates. *)
Definition date_le (a b : date) : Prop :=
  year a < year b ∨
  (year a = year b ∧
   (month a < month b ∨ (month a = month b ∧ day a <= day b))).

(** [datetime.strptime(s, '%Y-%m-%d')].  The directive ['%Y'] takes exactly
    four digits, ['%m'] is [1[0-2]|0[1-9]|[1-9]] and ['%d'] is
    [3[0-1]|[1-2]\d|0[1-9]|[1-9]| [1-9]]; the whole string has to be used
    up, and the date has to exist.  Only ASCII digits are recognised. *)
Definition parse_Y (s : string) : option Z :=
  if (String.length s =? 4)%nat && Str.all_digits s
  then Some (Str.digits_val 0 s) else None.

Definition parse_m (s : string) : option Z :=
  let n := Str.digits_val 0 s in
  if ((String.length s =? 1)%nat || (String.length s =? 2)%nat)
     && Str.all_digits s && (1 <=? n) && (n <=? 12)
  then Some n else None.

Definition parse_d (s : string) : option Z :=
  match s with
  | String " " r =>
      let n := Str.digits_val 0 r in
      if (String.length r =? 1)%nat && Str.all_digits r && (1 <=? n)
      then Some n else None
  | _ =>
      let n := Str.digits_val 0 s in
      if ((String.length s =? 1)%nat || (String.length s =? 2)%nat)
         && Str.all_digits s && (1 <=? n) && (n <=? 31)
      then Some n else None
  end.

Definition strptime (s : string) : result date :=
  match Str.split "-" s with
  | [y; m; d] =>
      match parse_Y y, parse_m m, parse_d d with
      | Some y, Some m, Some d =>
          let r := mkdate y m d in
          if valid_date r then Ok r else Raise ValueError
      | _, _, _ => Raise ValueError
      end
  | _ => Raise ValueError
  end.

(** [d.strftime('%Y-%m-%d')].  ['%Y'] is the year zero-padded to four
    digits, as the documentation of [datetime] has it.  For the years from
    1000 on every platform writes that.  Below 1000 the C library decides:
    CPython 3.11 on glibc writes [999-12-31], without the zero.  The
    properties of the texts [get_dates] writes are therefore stated for
    years from 1000 on. *)
Definition strftime (d : date) : string :=
  Str.pad4 (year d) +:+ "-" +:+ Str.pad2 (month d) +:+ "-" +:+ Str.pad2 (day d).

(** ** [get_dates]: the month buckets of a date range

    A Python [dict] keeps its keys in insertion order, and the claim about
    the planner is about that order, so the mapping is an association list
    with distinct keys. *)

Definition dict (V : Type) : Type := list (string * V).

(** [k in dic] *)
Definition dict_mem {V : Type} (k : string) (dic : dict V) : bool :=
  bool_decide (k ∈ map fst dic).

(** [dic[k].append(x)] *)
Fixpoint dict_append {V : Type} (k : string) (x : V) (dic : dict (list V))
  : dict (list V) :=
  match dic with
  | [] => []
  | (k', v) :: r =>
      if decide (k' = k) then (k', v ++ [x]) :: r
      else (k', v) :: dict_append k x r
  end.

(** The body of the loop of [get_dates] for one formatted date. *)
Definition get_dates_step (dic_dates : dict (list string)) (date : string)
  : dict (list string) :=
  let year_month := Str.take 7 date in
  let dic_dates :=
    if dict_mem year_month dic_dates then dic_dates
    else dic_dates ++ [(year_month, [])] in
  dict_append year_month date dic_dates.

(** [for i in range(n)] of [get_dates], from index [i]. *)
Fixpoint get_dates_loop (start : date) (i n : nat)
    (dic_dates : dict (list string)) : result (dict (list string)) :=
  match n with
  | O => Ok dic_dates
  | S k =>
      d ← add_days start i ;
      get_dates_loop start (S i) k (get_dates_step dic_dates (strftime d))
  end.

Definition get_dates (start_date end_date : string)
  : result (dict (list string)) :=
  start ← strptime start_date ;
  end_ ← strptime end_date ;
  get_dates_loop start 0 (Z.to_nat (toordinal end_ - toordinal start + 1)) [].

(** ** Formatting integers *)

(** [str(n)], [f'{n}'] *)
Definition str_of_int (n : Z) : string := pretty n.

(** [f'{n:02}']: zero padded to a width of two, the sign counting. *)
Definition fmt02 (n : Z) : string :=
  if (0 <=? n) && (n <? 10) then "0" +:+ pretty n else pretty n.

(** ** The world: cache directory, archive directory, remote site

    [cache] is the directory [cache/] (file name to content), [tar_gz] the
    directory [tar_gz/]: an archive is the list of its members in the order
    they were added.  [site] is the remote service: the text of the page at
    a URL, or the exception that [requests.get] / [raise_for_status]
    raises.  [fault] tells for which member writing into an archive fails
    (a full disk, say).  [trace] records the effects in the order they
    happen, the oldest first. *)

Inductive event : Type :=
| EvRequest (url : string)
| EvSleep
| EvWrite (name : string)
| EvTarOpen (tar : string)
| EvTarAdd (tar name : string)
| EvTarClose (tar : string)
| EvUnlink (name : string)
| EvExtract (tar name : string).

Global Instance event_eq_dec : EqDecision event.
Proof. solve_decision. Defined.

Abbreviation archive := (list (string * string)).

Record world : Type := mkworld {
  cache : gmap string string;
  tar_gz : gmap string archive;
  site : string → result string;
  fault : string → bool;
  trace : list event;
}.

Definition set_cache (f : gmap string string → gmap string string) (w : world)
  : world :=
  mkworld (f (cache w)) (tar_gz w) (site w) (fault w) (trace w).

Definition set_tar_gz (f : gmap string archive → gmap string archive)
    (w : world) : world :=
  mkworld (cache w) (f (tar_gz w)) (site w) (fault w) (trace w).

Definition log (e : event) (w : world) : world :=
  mkworld (cache w) (tar_gz w) (site w) (fault w) (trace w ++ [e]).

(** An effectful computation: it returns or raises, and in both cases
    leaves a world behind. *)
Definition M (A : Type) : Type := world → result A * world.

Global Instance M_ret : MRet M := λ A a w, (Ok a, w).

Global Instance M_bind : MBind M := λ A B k m w,
  match m w with
  | (Ok a, w') => k a w'
  | (Raise e, w') => (Raise e, w')
  end.

Definition lift {A : Type} (r : result A) : M A := λ w, (r, w).

Definition emit (e : event) : M unit := λ w, (Ok tt, log e w).

(** ** Text files

    [open(f, 'w', encoding='utf8')] and [open(f, 'r', encoding='utf8')] are
    text mode with the default [newline=None].  Writing replaces a line
    feed by [os.linesep], which is a line feed on POSIX; reading is in
    universal-newlines mode and turns CR LF and a lone CR into LF. *)

Definition CR : ascii := ascii_of_nat 13.
Definition LF : ascii := ascii_of_nat 10.

Definition write_text (content : string) : string := content.

Fixpoint read_text (bytes : string) : string :=
  match bytes with
  | "" => ""
  | String c r =>
      if decide (c = CR) then
        match r with
        | String c' r' =>
            if decide (c' = LF) then String LF (read_text r')
            else String LF (read_text r)
        | "" => String LF ""
        end
      else String c (read_text r)
  end.

(** ** [get_page] and the three page getters *)

Definition get_page (url cache_filename : string) : M string := λ w,
  match cache w !! cache_filename with
  | Some bytes => (Ok (read_text bytes), w)
  | None =>
      let w := log (EvRequest url) w in
      match site w url with
      | Raise e => (Raise e, w)
      | Ok content =>
          let w := log EvSleep w in
          let w := set_cache <[cache_filename := write_text content]> w in
          (Ok content, log (EvWrite cache_filename) w)
      end
  end.

Definition get_page_block_date (prec_no block_no year month day : Z)
  : M string :=
  let cache_filename :=
    str_of_int prec_no +:+ "_" +:+ str_of_int block_no +:+ "_" +:+
    str_of_int year +:+ "-" +:+ fmt02 month +:+ "-" +:+ fmt02 day +:+ ".txt" in
  let url :=
    "https://www.data.jma.go.jp/stats/etrn/view/hourly_s1.php" +:+
    "?prec_no=" +:+ str_of_int prec_no +:+
    "&block_no=" +:+ str_of_int block_no +:+
    "&year=" +:+ str_of_int year +:+ "&month=" +:+ str_of_int month +:+
    "&day=" +:+ str_of_int day +:+ "&view=" in
  get_page url cache_filename.

Definition get_page_blocks (prec_no : Z) : M string :=
  let cache_filename := "prefecture_" +:+ str_of_int prec_no +:+ ".txt" in
  let url :=
    "https://www.data.jma.go.jp/stats/etrn/select/prefecture.php?prec_no=" +:+
    str_of_int prec_no in
  get_page url cache_filename.

Definition get_page_precs : M string :=
  let cache_filename := "prefectures.txt" in
  let url := "https://www.data.jma.go.jp/stats/etrn/select/prefecture00.php" in
  get_page url cache_filename.

(** ** Archives *)

(** [tarfile.open(tar_gz_file, 'w:gz')]: the archive is created empty,
    replacing an older one. *)
Definition tar_open (tar_gz_file : string) : M unit := λ w,
  (Ok tt, log (EvTarOpen tar_gz_file) (set_tar_gz <[tar_gz_file := []]> w)).

(** [tar.add(cache_path / filename, arcname=filename)] *)
Definition tar_add (tar_gz_file filename : string) : M unit := λ w,
  match cache w !! filename with
  | None => (Raise FileNotFoundError, w)
  | Some bytes =>
      if fault w filename then (Raise OSError, w)
      else
        let members := default [] (tar_gz w !! tar_gz_file) in
        (Ok tt,
         log (EvTarAdd tar_gz_file filename)
           (set_tar_gz <[tar_gz_file := members ++ [(filename, bytes)]]> w))
  end.

Fixpoint tar_add_all (tar_gz_file : string) (cache_files : list string)
  : M unit :=
  match cache_files with
  | [] => mret tt
  | filename :: rest =>
      _ ← tar_add tar_gz_file filename; tar_add_all tar_gz_file rest
  end.

(** [(cache_path / filename).unlink()] *)
Definition unlink (filename : string) : M unit := λ w,
  match cache w !! filename with
  | None => (Raise FileNotFoundError, w)
  | Some _ => (Ok tt, log (EvUnlink filename) (set_cache (delete filename) w))
  end.

Fixpoint unlink_all (cache_files : list string) : M unit :=
  match cache_files with
  | [] => mret tt
  | filename :: rest => _ ← unlink filename; unlink_all rest
  end.

(** The [with] block ends with [EvTarClose] only when its body did not
    raise; an exception leaves the block with the members written so far. *)
Definition compress_impl (tar_gz_file : string) (cache_files : list string)
    (remove_cache : bool) : M unit :=
  _ ← tar_open tar_gz_file;
  _ ← tar_add_all tar_gz_file cache_files;
  _ ← emit (EvTarClose tar_gz_file);
  if remove_cache then unlink_all cache_files else mret tt.

(** [tar.extractall(path=cache_path, filter='data')]: the members are
    written in archive order, over whatever is there. *)
Fixpoint extract_members (tar_gz_file : string) (members : archive) (w : world)
  : world :=
  match members with
  | [] => w
  | (name, bytes) :: rest =>
      extract_members tar_gz_file rest
        (log (EvExtract tar_gz_file name) (set_cache <[name := bytes]> w))
  end.

Definition extract_impl (tar_gz_file : string) : M unit := λ w,
  match tar_gz w !! tar_gz_file with
  | None => (Ok tt, w)
  | Some members => (Ok tt, extract_members tar_gz_file members w)
  end.

(** [cache_path.iterdir()]: the names in the cache directory. *)
Definition iterdir (w : world) : list string := (map_to_list (cache w)).*1.

Definition is_target (year_month filename : string) : bool :=
  match Str.split "_" filename with
  | [_; _; d] => Str.startswith year_month d
  | _ => false
  end.

Definition compress_month (year_month : string) (remove_cache : bool)
  : M unit := λ w,
  let cache_files := filter (λ f, is_target year_month f = true) (iterdir w) in
  compress_impl (year_month +:+ ".tar.gz") cache_files remove_cache w.

Definition extract_month (year_month : string) : M unit :=
  extract_impl (year_month +:+ ".tar.gz").

Definition compress_precs (remove_cache : bool) : M unit := λ w,
  let cache_files :=
    filter (λ f, Str.startswith "prefecture" f = true) (iterdir w) in
  compress_impl "prefectures.tar.gz" cache_files remove_cache w.

Definition extract_precs : M unit := extract_impl "prefectures.tar.gz".

(** ** [int(s)] and [float(s)] on text

    Both builtins strip surrounding whitespace, take an optional sign and
    allow single underscores between digits.  Only ASCII digits and ASCII
    whitespace are recognised here.  A finite [float] is kept as the exact
    rational that the decimal text denotes: rounding to binary64 (and with
    it overflow to infinity and the sign of zero) is not modelled. *)

Inductive pyfloat : Type :=
| FNan
| FInf (negative : bool)
| FFin (q : Q).

Module Num.

Definition is_space (c : ascii) : bool :=
  let n := nat_of_ascii c in
  ((9 <=? n)%nat && (n <=? 13)%nat) || ((28 <=? n)%nat && (n <=? 32)%nat).

Fixpoint lstrip (s : string) : string :=
  match s with
  | String c r => if is_space c then lstrip r else s
  | "" => ""
  end.

Definition strip (s : string) : string :=
  String.rev (lstrip (String.rev (lstrip s))).

(** A digit part [digit (["_"] digit)*], read as far as it goes: the
    value, the number of digits and the text left over. *)
Fixpoint scan_digits (acc : Z) (n : nat) (s : string) : Z * nat * string :=
  match s with
  | String c r =>
      if Str.is_digit c then scan_digits (10 * acc + Str.digit_val c) (S n) r
      else if decide (c = "_"%char) then
        match n, r with
        | S _, String c' r' =>
            if Str.is_digit c'
            then scan_digits (10 * acc + Str.digit_val c') (S n) r'
            else (acc, n, s)
        | _, _ => (acc, n, s)
        end
      else (acc, n, s)
  | "" => (acc, n, s)
  end.

Definition scan_sign (s : string) : bool * string :=
  match s with
  | String "-" r => (true, r)
  | String "+" r => (false, r)
  | _ => (false, s)
  end.

Definition lower (c : ascii) : ascii :=
  let n := nat_of_ascii c in
  if (65 <=? n)%nat && (n <=? 90)%nat then ascii_of_nat (n + 32) else c.

Fixpoint lowercase (s : string) : string :=
  match s with
  | String c r => String (lower c) (lowercase r)
  | "" => ""
  end.

(** [int(s)] in base ten. *)
Definition py_int (s : string) : result Z :=
  let '(neg, body) := scan_sign (strip s) in
  match scan_digits 0 0 body with
  | (v, S _, "") => Ok (if neg then - v else v)
  | _ => Raise ValueError
  end.

(** [sign * m * 10^e] as a reduced fraction. *)
Definition decimal (neg : bool) (m e : Z) : Q :=
  let m := if neg then - m else m in
  Qred (if 0 <=? e then Qmake (m * 10 ^ e) 1
        else Qmake m (Z.to_pos (10 ^ (- e)))).

(** The exponent part, when there is one; the text has to end with it. *)
Definition scan_exponent (s : string) : option Z :=
  match s with
  | "" => Some 0
  | String c r =>
      if decide (lower c = "e"%char) then
        let '(neg, body) := scan_sign r in
        match scan_digits 0 0 body with
        | (v, S _, "") => Some (if neg then - v else v)
        | _ => None
        end
      else None
  end.

(** [float(s)] *)
Definition py_float (s : string) : result pyfloat :=
  let '(neg, body) := scan_sign (strip s) in
  let word := lowercase body in
  if decide (word = "inf") then Ok (FInf neg)
  else if decide (word = "infinity") then Ok (FInf neg)
  else if decide (word = "nan") then Ok FNan
  else
    let '(ip, ni, r1) := scan_digits 0 0 body in
    let '(fp, nf, r2) :=
      match r1 with
      | String "." r => scan_digits 0 0 r
      | _ => (0, O, r1)
      end in
    if (ni + nf =? 0)%nat then Raise ValueError
    else
      match scan_exponent r2 with
      | Some e =>
          Ok (FFin (decimal neg (ip * 10 ^ Z.of_nat nf + fp) (e - Z.of_nat nf)))
      | None => Raise ValueError
      end.

(** [a + b] and [a / 60.0] on floats. *)
Definition fadd (a b : pyfloat) : pyfloat :=
  match a, b with
  | FNan, _ | _, FNan => FNan
  | FInf x, FInf y => if eqb x y then FInf x else FNan
  | FInf x, FFin _ | FFin _, FInf x => FInf x
  | FFin p, FFin q => FFin (Qred (Qplus p q))
  end.

Definition fdiv60 (a : pyfloat) : pyfloat :=
  match a with
  | FFin p => FFin (Qred (Qdiv p (Qmake 60 1)))
  | _ => a
  end.

End Num.

(** ** The markup tree

    [BeautifulSoup(content, 'html.parser')] turns the page into a tree of
    tags and strings; the scripts only walk that tree.  A tag carries its
    name and its attribute dictionary. *)

#[warnings="-register-all"]
Inductive node : Type :=
| Text (s : string)
| Elem (name : string) (attrs : gmap string string) (children : list node).

Module Soup.

(** The tags and strings below a node, in document order. *)
Fixpoint descendants (n : node) : list node :=
  match n with
  | Text _ => []
  | Elem _ _ children =>
      (fix go (l : list node) : list node :=
         match l with
         | [] => []
         | c :: r => c :: descendants c ++ go r
         end) children
  end.

Definition is_tag (name : string) (n : node) : bool :=
  match n with
  | Elem name' _ _ => bool_decide (name' = name)
  | Text _ => false
  end.

(** [n.find_all(name)] *)
Definition find_all (name : string) (n : node) : list node :=
  List.filter (is_tag name) (descendants n).

(** [n.find(name)] *)
Definition find (name : string) (n : node) : option node :=
  head (find_all name n).

(** [n.get(key)]: [None] when the attribute is missing. *)
Definition get (key : string) (n : node) : option string :=
  match n with
  | Elem _ attrs _ => attrs !! key
  | Text _ => None
  end.

(** [n.get_text()]: the strings below the node, joined. *)
Fixpoint get_text (n : node) : string :=
  match n with
  | Text s => s
  | Elem _ _ children =>
      (fix go (l : list node) : string :=
         match l with
         | [] => ""
         | c :: r => get_text c +:+ go r
         end) children
  end.

End Soup.

(** ** [get_df_block_date]: the rows of a day page *)

Record observation : Type := mkobs {
  obs_prec_no : Z;          (* 地域番号 *)
  obs_block_no : Z;         (* 地点番号 *)
  obs_date : string;        (* 年月日 *)
  obs_hour : string;        (* 時 *)
  obs_precip : string;      (* 降水量 *)
  obs_temp : string;        (* 気温 *)
  obs_humid : string;       (* 湿度 *)
  obs_wind : string;        (* 風速 *)
  obs_snowfall : string;    (* 降雪 *)
  obs_snow : string;        (* 積雪 *)
  obs_weather : option string;  (* 天気; [None] is Python's [None] *)
}.

(** The body of the inner loop: what a [tr] adds to [data_rows]. *)
Definition row_data (prec_no block_no year month day : Z) (row : node)
  : list observation :=
  match Soup.find_all "td" row with
  | [c0; _; _; c3; c4; _; _; c7; c8; _; _; _; c12; c13; c14; _; _] =>
      let img := Soup.find "img" c14 in
      [ {| obs_prec_no := prec_no;
           obs_block_no := block_no;
           obs_date := str_of_int year +:+ fmt02 month +:+ fmt02 day;
           obs_hour := Soup.get_text c0;
           obs_precip := Soup.get_text c3;
           obs_temp := Soup.get_text c4;
           obs_humid := Soup.get_text c7;
           obs_wind := Soup.get_text c8;
           obs_snowfall := Soup.get_text c12;
           obs_snow := Soup.get_text c13;
           obs_weather :=
             match img with
             | None => Some ""
             | Some img => Soup.get "alt" img
             end |} ]
  | _ => []
  end.

(** The body of the outer loop: what a [table] adds to [data_rows]. *)
Definition table_data (prec_no block_no year month day : Z) (table : node)
  : list observation :=
  let rows := Soup.find_all "tr" table in
  if decide (length rows ≠ 26%nat) then []
  else flat_map (row_data prec_no block_no year month day) rows.

Definition soup_data (prec_no block_no year month day : Z) (soup : node)
  : list observation :=
  flat_map (table_data prec_no block_no year month day)
    (Soup.find_all "table" soup).

(** ** [get_master]: the station master *)

Definition prec_blocks_target : list string := [
  "石狩地方::札幌"; "青森県::青森"; "秋田県::秋田"; "岩手県::盛岡"; "宮城県::仙台";
  "山形県::山形"; "福島県::福島"; "茨城県::水戸"; "栃木県::宇都宮"; "群馬県::前橋";
  "埼玉県::熊谷"; "東京都::東京"; "千葉県::千葉"; "神奈川県::横浜"; "長野県::長野";
  "山梨県::甲府"; "静岡県::静岡"; "愛知県::名古屋"; "岐阜県::岐阜"; "三重県::津";
  "新潟県::新潟"; "富山県::富山"; "石川県::金沢"; "福井県::福井"; "滋賀県::彦根";
  "京都府::京都"; "大阪府::大阪"; "兵庫県::神戸"; "奈良県::奈良"; "和歌山県::和歌山";
  "岡山県::岡山"; "広島県::広島"; "島根県::松江"; "鳥取県::鳥取"; "徳島県::徳島";
  "香川県::高松"; "愛媛県::松山"; "高知県::高知"; "山口県::山口"; "福岡県::福岡";
  "大分県::大分"; "長崎県::長崎"; "佐賀県::佐賀"; "熊本県::熊本"; "宮崎県::宮崎";
  "鹿児島県::鹿児島"; "沖縄県::那覇"
].

Definition dict_block_name_en : gmap string string := list_to_map [
  ("札幌", "sapporo"); ("青森", "aomori"); ("秋田", "akita"); ("盛岡", "morioka");
  ("仙台", "sendai"); ("山形", "yamagata"); ("福島", "fukushima"); ("水戸", "mito");
  ("宇都宮", "utsunomiya"); ("前橋", "maebashi"); ("熊谷", "kumagaya");
  ("東京", "tokyo"); ("千葉", "chiba"); ("横浜", "yokohama"); ("長野", "nagano");
  ("甲府", "kofu"); ("静岡", "shizuoka"); ("名古屋", "nagoya"); ("岐阜", "gifu");
  ("津", "tsu"); ("新潟", "niigata"); ("富山", "toyama"); ("金沢", "kanazawa");
  ("福井", "fukui"); ("彦根", "hikone"); ("京都", "kyoto"); ("大阪", "osaka");
  ("神戸", "kobe"); ("奈良", "nara"); ("和歌山", "wakayama"); ("岡山", "okayama");
  ("広島", "hiroshima"); ("松江", "matsue"); ("鳥取", "tottori");
  ("徳島", "tokushima"); ("高松", "takamatsu"); ("松山", "matsuyama");
  ("高知", "kochi"); ("山口", "yamaguchi"); ("福岡", "fukuoka"); ("大分", "oita");
  ("長崎", "nagasaki"); ("佐賀", "saga"); ("熊本", "kumamoto");
  ("宮崎", "miyazaki"); ("鹿児島", "kagoshima"); ("那覇", "naha")
].

Record station : Type := mkstation {
  st_prec_no : Z;           (* 地域番号 *)
  st_prec_name : string;    (* 地域名 *)
  st_block_no : Z;          (* 地点番号 *)
  st_block_name : string;   (* 地点名 *)
  st_block_name_en : string;(* 地点名英字 *)
  st_lat : pyfloat;         (* 緯度 *)
  st_lng : pyfloat;         (* 経度 *)
}.

(** The composite key of a master row. *)
Definition st_key (r : station) : string :=
  st_prec_name r +:+ "::" +:+ st_block_name r.

(** [l[i]] *)
Definition index {A : Type} (l : list A) (i : nat) : result A :=
  of_option IndexError (l !! i).

(** A continuation byte of a UTF-8 sequence. *)
Definition is_continuation (c : ascii) : bool :=
  let n := nat_of_ascii c in (128 <=? n)%nat && (n <? 192)%nat.

Fixpoint drop_continuation (s : string) : string :=
  match s with
  | String c r => if is_continuation c then drop_continuation r else s
  | "" => ""
  end.

(** [x[1:-1]]: the text without its first and its last character. *)
Definition slice_1_m1 (x : string) : string :=
  let without_first :=
    match x with
    | String _ r => drop_continuation r
    | "" => ""
    end in
  match drop_continuation (String.rev without_first) with
  | String _ r => String.rev r
  | "" => ""
  end.

(** A station entry of a block-list page: an [area] of kind ['s'], with
    the values [get_master] reads from it. *)
Record entry : Type := mkentry {
  e_prec_no : Z;
  e_prec_name : string;
  e_block_no : Z;
  e_block_name : string;
  e_lat : pyfloat;
  e_lng : pyfloat;
}.

(** [prec_block = prec_name + '::' + block_name] *)
Definition e_key (e : entry) : string :=
  e_prec_name e +:+ "::" +:+ e_block_name e.

(** The inner loop body up to [prec_block]: [None] stands for [continue]. *)
Definition block_entry (prec_no : Z) (prec_name : option string)
    (block : node) : result (option entry) :=
  match Soup.get "onmouseover" block with
  | None => Ok None
  | Some s =>
      a ← index (Str.split "(" s) 1;
      b ← index (Str.split ")" a) 0;
      let li := map slice_1_m1 (Str.split "," b) in
      kind ← index li 0;
      if decide (kind ≠ "s") then Ok None
      else
        l1 ← index li 1;
        block_no ← Num.py_int l1;
        block_name ← index li 2;
        l4 ← index li 4; f4 ← Num.py_float l4;
        l5 ← index li 5; f5 ← Num.py_float l5;
        let lat := Num.fadd f4 (Num.fdiv60 f5) in
        l6 ← index li 6; f6 ← Num.py_float l6;
        l7 ← index li 7; f7 ← Num.py_float l7;
        let lng := Num.fadd f6 (Num.fdiv60 f7) in
        prec_name ← of_option TypeError prec_name;
        Ok (Some (mkentry prec_no prec_name block_no block_name lat lng))
  end.

(** The two variables [get_master] updates in its loops. *)
Record master_acc : Type := mkacc {
  set_prec_block : gset string;
  df_m : list station;
}.

Definition entry_row (e : entry) (en : string) : station :=
  mkstation (e_prec_no e) (e_prec_name e) (e_block_no e) (e_block_name e) en
    (e_lat e) (e_lng e).

(** The rest of the inner loop body, from the allow-list test on. *)
Definition master_add (acc : master_acc) (e : entry) : result master_acc :=
  let prec_block := e_key e in
  if decide (prec_block ∉ prec_blocks_target) then Ok acc
  else if decide (prec_block ∈ set_prec_block acc) then Ok acc
  else
    en ← of_option KeyError (dict_block_name_en !! e_block_name e);
    Ok {| set_prec_block := {[prec_block]} ∪ set_prec_block acc;
          df_m := df_m acc ++ [entry_row e en] |}.

(** The body of the inner loop, for one [area] of a block-list page. *)
Definition master_block (prec_no : Z) (prec_name : option string)
    (acc : master_acc) (block : node) : result master_acc :=
  e ← block_entry prec_no prec_name block;
  match e with
  | None => Ok acc
  | Some e => master_add acc e
  end.

Fixpoint master_blocks (prec_no : Z) (prec_name : option string)
    (acc : master_acc) (blocks : list node) : result master_acc :=
  match blocks with
  | [] => Ok acc
  | block :: rest =>
      acc ← master_block prec_no prec_name acc block;
      master_blocks prec_no prec_name acc rest
  end.

(** [int(prec.get('href').split('prec_no=')[1].split('&')[0])] *)
Definition href_prec_no (prec : node) : result Z :=
  href ← of_option AttributeError (Soup.get "href" prec);
  a ← index (Str.split "prec_no=" href) 1;
  b ← index (Str.split "&" a) 0;
  Num.py_int b.

Section Scraper.

(** [BeautifulSoup(_, 'html.parser')], the parser of the markup. *)
Variable BeautifulSoup : string → node.

Definition get_df_block_date (prec_no block_no year month day : Z)
  : M (list observation) :=
  content ← get_page_block_date prec_no block_no year month day;
  let soup := BeautifulSoup content in
  mret (soup_data prec_no block_no year month day soup).

(** The body of the outer loop of [get_master], for one [area] of the
    prefecture page. *)
Definition master_prec (acc : master_acc) (prec : node) : M master_acc :=
  prec_no ← lift (href_prec_no prec);
  let prec_name := Soup.get "alt" prec in
  if decide (prec_name = Some "南極") then mret acc
  else
    content_blocks ← get_page_blocks prec_no;
    let soup_blocks := BeautifulSoup content_blocks in
    let blocks := Soup.find_all "area" soup_blocks in
    lift (master_blocks prec_no prec_name acc blocks).

Fixpoint master_precs (acc : master_acc) (precs : list node) : M master_acc :=
  match precs with
  | [] => mret acc
  | prec :: rest => acc ← master_prec acc prec; master_precs acc rest
  end.

(** The station entries of the hierarchy in the order [get_master]
    meets them, before the allow-list and the set of seen keys are
    consulted. *)
Fixpoint entries_blocks (prec_no : Z) (prec_name : option string)
    (blocks : list node) : result (list entry) :=
  match blocks with
  | [] => Ok []
  | block :: rest =>
      e ← block_entry prec_no prec_name block;
      es ← entries_blocks prec_no prec_name rest;
      Ok (match e with Some e => e :: es | None => es end)
  end.

Definition entries_prec (prec : node) : M (list entry) :=
  prec_no ← lift (href_prec_no prec);
  let prec_name := Soup.get "alt" prec in
  if decide (prec_name = Some "南極") then mret []
  else
    content_blocks ← get_page_blocks prec_no;
    lift (entries_blocks prec_no prec_name
            (Soup.find_all "area" (BeautifulSoup content_blocks))).

Fixpoint entries_precs (precs : list node) : M (list entry) :=
  match precs with
  | [] => mret []
  | prec :: rest =>
      es ← entries_prec prec; es' ← entries_precs rest; mret (es ++ es')
  end.

Definition master_entries : M (list entry) :=
  content_precs ← get_page_precs;
  entries_precs (Soup.find_all "area" (BeautifulSoup content_precs)).

(** The master is also written to [out/weather_japan_master.csv]; that
    file is outside the cache and not part of the [world]. *)
Definition get_master : M (list station) :=
  content_precs ← get_page_precs;
  let soup_precs := BeautifulSoup content_precs in
  let precs := Soup.find_all "area" soup_precs in
  acc ← master_precs (mkacc ∅ []) precs;
  mret (df_m acc).

End Scraper.

(** ** [validate.py]

    The validator reads both files with [dtype=str]: a cell is a text, or
    the float NaN where the field was empty. *)

Inductive pyval : Type :=
| VStr (s : string)
| VFloat (f : pyfloat)
| VNone.

(** [float(value)] *)
Definition py_float_of (value : pyval) : result pyfloat :=
  match value with
  | VStr s => Num.py_float s
  | VFloat f => Ok f
  | VNone => Raise TypeError
  end.

(** [try: body except (ValueError, TypeError): handler] *)
Definition try_except {A : Type} (body : result A) (handler : result A)
  : result A :=
  match body with
  | Raise ValueError | Raise TypeError => handler
  | _ => body
  end.

Definition is_numeric (value : pyval) : result bool :=
  try_except (_ ← py_float_of value; Ok true) (Ok false).

Definition to_numeric_safe (value : pyval) : result pyfloat :=
  try_except (py_float_of value) (Ok FNan).

(** [format(date_str)] *)
Definition format (date_str : string) : string :=
  Str.take 4 date_str +:+ "-" +:+ Str.take 2 (Str.drop 4 date_str) +:+ "-" +:+
  Str.take 2 (Str.drop 6 date_str).

Inductive variable : Type := Temp | Humid | Precip | Wind | Snowfall | Snow.

Global Instance variable_eq_dec : EqDecision variable.
Proof. solve_decision. Defined.

Definition dict_valiable_name_en (var : variable) : string :=
  match var with
  | Temp => "temp"          (* 気温 *)
  | Humid => "humid"        (* 湿度 *)
  | Precip => "precip"      (* 降水量 *)
  | Wind => "wind"          (* 風速 *)
  | Snowfall => "snowfall"  (* 降雪 *)
  | Snow => "snow"          (* 積雪 *)
  end.

(** A row of [out/weather_japan_org.csv]. *)
Record wrow : Type := mkwrow {
  w_prec_no : string;      (* 地域番号 *)
  w_block_no : string;     (* 地点番号 *)
  w_date : string;         (* 年月日 *)
  w_hour : pyval;          (* 時 *)
  w_precip : pyval;
  w_temp : pyval;
  w_humid : pyval;
  w_wind : pyval;
  w_snowfall : pyval;
  w_snow : pyval;
}.

(** [row[var]] *)
Definition w_get (var : variable) (r : wrow) : pyval :=
  match var with
  | Temp => w_temp r
  | Humid => w_humid r
  | Precip => w_precip r
  | Wind => w_wind r
  | Snowfall => w_snowfall r
  | Snow => w_snow r
  end.

(** The columns of [out/weather_japan_master.csv] the validator reads. *)
Record mrow : Type := mkmrow {
  m_prec_no : string;        (* 地域番号 *)
  m_block_no : string;       (* 地点番号 *)
  m_block_name_en : string;  (* 地点名英字 *)
}.

(** A wide table: the column names, [timestamp] first, and per timestamp
    (in hours since the start of day 0) the values of the other columns. *)
Record table : Type := mktable {
  columns : list string;
  rows : list (Z * list pyfloat);
}.

(** [pd.to_datetime(s, format='%Y%m%d')] *)
Definition to_datetime (s : string) : result date :=
  if (String.length s =? 8)%nat && Str.all_digits s then
    let d := mkdate (Str.digits_val 0 (Str.take 4 s))
                    (Str.digits_val 0 (Str.take 2 (Str.drop 4 s)))
                    (Str.digits_val 0 (Str.take 2 (Str.drop 6 s))) in
    if valid_date d then Ok d else Raise ValueError
  else Raise ValueError.

(** [astype(int)] on one cell *)
Definition astype_int (v : pyval) : result Z :=
  match v with
  | VStr s => Num.py_int s
  | VFloat _ => Raise ValueError
  | VNone => Raise TypeError
  end.

(** A row of [weather] inside [reshape_weather], with the columns it adds. *)
Record rrow : Type := mkrrow {
  r_timestamp : Z;
  r_block_name : option string;   (* [None] is NaN: no master entry *)
  r_value : pyfloat;
}.

(** [dict(zip(master['地点番号'], master['地点名英字']))]: the last entry
    of a station number wins. *)
Definition block_names (master : list mrow) : gmap string string :=
  list_to_map (rev (map (λ m, (m_block_no m, m_block_name_en m)) master)).

Definition str_le (a b : string) : Prop := String.leb a b = true.

Global Instance str_le_dec : RelDecision str_le.
Proof. intros a b. unfold str_le. apply _. Defined.

(** [sorted(l.unique())] *)
Definition sorted_unique_Z (l : list Z) : list Z :=
  merge_sort Z.le (remove_dups l).

Definition sorted_unique_str (l : list string) : list string :=
  merge_sort str_le (remove_dups l).

(** The cell of a pivot at a timestamp and a column label; the label
    [None] is NaN. *)
Definition pivot_cell (rs : list rrow) (t : Z) (label : option string)
  : pyfloat :=
  match List.filter
          (λ r, bool_decide (r_timestamp r = t ∧ r_block_name r = label)) rs
  with
  | r :: _ => r_value r
  | [] => FNan
  end.

(** [reshape_weather(weather, master, [var])], column by column as the
    source computes it.  [map] gives the rows whose station has no master
    entry the name NaN.  [pivot] raises when a timestamp occurs twice for
    one name, NaN included; its columns are the names in sorted order,
    with NaN, when it occurs, as one more column before them, which the
    f-string of the source names [nan]. *)
Definition reshape_weather (weather : list wrow) (master : list mrow)
    (var : variable) : result table :=
  _hour ← mapM (λ r, astype_int (w_hour r)) weather;
  _date ← mapM (λ r, to_datetime (w_date r)) weather;
  let timestamp := zip_with (λ d h, toordinal d * 24 + h) _date _hour in
  value ← mapM (λ r, to_numeric_safe (w_get var r)) weather;
  let names := block_names master in
  let block_name := map (λ r, names !! w_block_no r) weather in
  let rs := zip_with (λ tn v, mkrrow tn.1 tn.2 v) (zip timestamp block_name) value in
  let timestamps := sorted_unique_Z (map r_timestamp rs) in
  let keys := map (λ r, (r_timestamp r, r_block_name r)) rs in
  if decide (NoDup keys) then
    let names := sorted_unique_str (omap r_block_name rs) in
    let labels :=
      (if bool_decide (None ∈ map r_block_name rs) then [None] else [])
      ++ map Some names in
    let var_abbr := dict_valiable_name_en var in
    Ok {| columns :=
            "timestamp"
              :: map (λ label, var_abbr +:+ "_" +:+ default "nan" label)
                   labels;
          rows := map (λ t, (t, map (pivot_cell rs t) labels)) timestamps |}
  else Raise ValueError.

(** [weather.merge(master[[...]], on=['地域番号', '地点番号'], how='left')]:
    a weather row with the transliterated name of each master row it
    matches, or with NaN when it matches none. *)
Record merged : Type := mkmerged {
  g_row : wrow;
  g_block_name_en : option string;
}.

Definition merge_master (weather : list wrow) (master : list mrow)
  : list merged :=
  flat_map (λ r,
    match List.filter (λ m, bool_decide (m_prec_no m = w_prec_no r ∧
                                         m_block_no m = w_block_no r)) master
    with
    | [] => [mkmerged r None]
    | ms => map (λ m, mkmerged r (Some (m_block_name_en m))) ms
    end) weather.

(** [min] of a column of texts. *)
Definition min_str (l : list string) : option string :=
  head (merge_sort str_le l).

Definition block_of (g : merged) : string * string :=
  (w_prec_no (g_row g), w_block_no (g_row g)).

(** What [validate_column] writes: the name of the file and the table, or
    nothing when [output_valid] is off.  The printed report is left out. *)
Definition validate_column (weather : list wrow) (master : list mrow)
    (column : variable) (output_valid : bool)
  : result (option (string * table)) :=
  actual_start ← of_option TypeError (format <$> min_str (map w_date weather));
  let weather := merge_master weather master in
  valid ← mapM (λ g, is_numeric (w_get column (g_row g))) weather;
  let weather := zip weather valid in
  if negb output_valid then Ok None
  else
    let invalid_blocks :=
      remove_dups (map (λ gv, block_of gv.1)
                     (List.filter (λ gv, negb gv.2) weather)) in
    let valid_weather :=
      List.filter (λ gv, bool_decide (block_of gv.1 ∉ invalid_blocks)) weather in
    let n_blocks :=
      length (remove_dups (map (λ gv, block_of gv.1) valid_weather)) in
    let out_file :=
      "out/weather_japan_" +:+ actual_start +:+ "_" +:+ actual_start +:+ "_" +:+
      str_of_int (Z.of_nat n_blocks) +:+ "_blocks.csv" in
    result ← reshape_weather (map (λ gv, g_row gv.1) weather) master column;
    Ok (Some (out_file, result)).

(** ** Notions used to state the properties *)

(** The year-month prefix of a formatted date. *)
Definition year_month_of (d : date) : string :=
  Str.pad4 (year d) +:+ "-" +:+ Str.pad2 (month d).

(** The dates from one day to a later one, each the day after the one
    before it. *)
Inductive calendar_run : date → date → list date → Prop :=
| run_last (d : date) : calendar_run d d [d]
| run_next (d d' e : date) (l : list date) :
    next_day d = Some d' → calendar_run d' e l → calendar_run d e (d :: l).

(** A bucket is not empty and every date in it starts with its key. *)
Definition bucket_ok (b : string * list string) : Prop :=
  b.2 ≠ [] ∧ Forall (λ s, Str.take 7 s = b.1) b.2.

Definition month_index (d : date) : Z := year d * 12 + month d.

(** What holds of [dic_dates] once the dates [p] have been put in, the last
    of them in month [M]. *)
Record buckets_inv (dic : dict (list string)) (p : list date) (M : Z)
  : Prop := {
  inv_flat : concat (map snd dic) = map strftime p;
  inv_nodup : NoDup (map fst dic);
  inv_ok : Forall bucket_ok dic;
  inv_keys :
    Forall (λ k, ∃ z, valid_date z = true ∧ k = year_month_of z ∧
                      month_index z <= M) (map fst dic);
  inv_last :
    dic ≠ [] →
    ∃ dic0 v z, dic = dic0 ++ [(year_month_of z, v)] ∧
                valid_date z = true ∧ month_index z = M;
}.

(** The number of requests sent to the remote site so far. *)
Definition is_request (e : event) : bool :=
  match e with EvRequest _ => true | _ => false end.

Definition network_calls (w : world) : nat :=
  length (List.filter is_request (trace w)).

Fixpoint has_char (c : ascii) (s : string) : bool :=
  match s with
  | "" => false
  | String c' r => bool_decide (c' = c) || has_char c r
  end.

(** The members [tar.add] writes for the files of a batch. *)
Definition members_of (w : world) (cache_files : list string) : archive :=
  map (λ f, (f, default "" (cache w !! f))) cache_files.

(** The allow-list test, the set of seen keys and the append, over a list
    of station entries. *)
Fixpoint master_add_all (acc : master_acc) (es : list entry)
  : result master_acc :=
  match es with
  | [] => Ok acc
  | e :: rest => acc ← master_add acc e; master_add_all acc rest
  end.

(** The rows of a master with a given composite key. *)
Definition rows_with_key (k : string) (table : list station) : list station :=
  List.filter (λ r, bool_decide (st_key r = k)) table.

(** The text of the [i]-th cell of a row. *)
Definition cell_text (row : node) (i : nat) : string :=
  from_option Soup.get_text "" (Soup.find_all "td" row !! i).

(** The first [img] below the cell of index 14, when the row has one. *)
Definition row_icon (row : node) : option node :=
  c14 ← Soup.find_all "td" row !! 14%nat; Soup.find "img" c14.

(** The observation a data row stands for. *)
Definition obs_of_row (prec_no block_no year month day : Z) (row : node)
  : observation :=
  {| obs_prec_no := prec_no;
     obs_block_no := block_no;
     obs_date := str_of_int year +:+ fmt02 month +:+ fmt02 day;
     obs_hour := cell_text row 0;
     obs_precip := cell_text row 3;
     obs_temp := cell_text row 4;
     obs_humid := cell_text row 7;
     obs_wind := cell_text row 8;
     obs_snowfall := cell_text row 12;
     obs_snow := cell_text row 13;
     obs_weather :=
       match row_icon row with
       | None => Some ""
       | Some img => Soup.get "alt" img
       end |}.

(** The tables with exactly 26 rows, the rows with exactly 17 cells. *)
Definition candidate_tables (soup : node) : list node :=
  List.filter (λ t, bool_decide (length (Soup.find_all "tr" t) = 26%nat))
    (Soup.find_all "table" soup).

Definition data_rows_of (table : node) : list node :=
  List.filter (λ r, bool_decide (length (Soup.find_all "td" r) = 17%nat))
    (Soup.find_all "tr" table).

Definition qualifying_rows (soup : node) : list node :=
  flat_map data_rows_of (candidate_tables soup).

(** The key of an observation. *)
Definition obs_key (o : observation) : Z * Z * string * string :=
  (obs_prec_no o, obs_block_no o, obs_date o, obs_hour o).

(** ** Sample inputs *)

(** A site that serves one page with a CR LF line break. *)
Definition crlf_page : string := "a" +:+ String CR (String LF "b").

Definition crlf_world : world :=
  mkworld ∅ ∅ (λ _, Ok crlf_page) (λ _, false) [].

Definition td (s : string) : node := Elem "td" ∅ [Text s].
Definition th (s : string) : node := Elem "th" ∅ [Text s].

(** An hourly row of a day page: 17 cells, the weather icon in the cell of
    index 14. *)
Definition hour_row (hour : string) (weather : list node) : node :=
  Elem "tr" ∅
    [td hour; td "1013.2"; td "1015.0"; td "0.0"; td "5.1"; td "-1.0";
     td "3.2"; td "65"; td "2.3"; td "北"; td "1.0"; td "10"; td "--";
     td "--"; Elem "td" ∅ weather; td "10"; td "20.0"].

Definition header_row : node := Elem "tr" ∅ [th "時"; th "気圧"; th "降水量"].

(** A table of 26 rows: two header rows and 24 rows made by [row]. *)
Definition day_table (row : nat → node) : node :=
  Elem "table" ∅ (header_row :: header_row :: map row (seq 1 24)).

Definition page (tables : list node) : node :=
  Elem "[document]" ∅ [Elem "html" ∅ [Elem "body" ∅ tables]].

Definition icon (alt : option string) : node :=
  Elem "img" (from_option (λ a, {["alt" := a]}) ∅ alt) [].

Definition plain_row (h : nat) : node :=
  hour_row (pretty h) [icon (Some "晴")].

(** A cache that holds the day page of station 47662 for 2024-01-01. *)
Definition cached_world : world :=
  mkworld {["44_47662_2024-01-01.txt" := "<html>"]} ∅
    (λ _, Raise HTTPError) (λ _, false) [].

Definition area (attrs : gmap string string) : node := Elem "area" attrs [].

(** The [area] of a station on a block-list page. *)
Definition station_area (kind block_no block_name lat_d lat_m lng_d lng_m : string)
  : node :=
  area {["onmouseover" :=
    "javascript:viewPoint('" +:+ kind +:+ "','" +:+ block_no +:+ "','" +:+
    block_name +:+ "','カナ','" +:+ lat_d +:+ "','" +:+ lat_m +:+ "','" +:+
    lng_d +:+ "','" +:+ lng_m +:+ "','25.2','1','1','1','1','1');"]}.

Definition prec_area (prec_no prec_name : string) : node :=
  area {["href" := "prefecture.php?prec_no=" +:+ prec_no +:+ "&block_no=&year=";
         "alt" := prec_name]}.

Definition tokyo : node := station_area "s" "47662" "東京" "35" "41.5" "139" "45.0".
Definition nerima : node := station_area "a" "1002" "練馬" "35" "44.1" "139" "35.5".
Definition oshima : node := station_area "s" "47675" "大島" "34" "44.9" "139" "21.7".

(** A parser that knows two pages by their text. *)
Definition two_pages (precs blocks : node) (content : string) : node :=
  if decide (content = "precs") then precs else blocks.

Definition hierarchy_world : world :=
  mkworld {["prefectures.txt" := "precs"; "prefecture_44.txt" := "blocks"]} ∅
    (λ _, Raise HTTPError) (λ _, false) [].

Definition tokyo_precs : node := page [prec_area "44" "東京都"].

(** The entries [tokyo] and [oshima] stand for. *)
Definition tokyo_entry : entry :=
  mkentry 44 "東京都" 47662 "東京" (FFin (Qmake 4283 120)) (FFin (Qmake 559 4)).

Definition oshima_entry : entry :=
  mkentry 44 "東京都" 47675 "大島"
    (FFin (Qmake 20849 600)) (FFin (Qmake 83617 600)).

Definition wr (prec_no block_no hour temp : string) : wrow :=
  mkwrow prec_no block_no "20250901" (VStr hour)
    (VStr "0.0") (VStr temp) (VStr "60") (VStr "1.0") (VStr "--") (VStr "--").

(** Tokyo is complete, Osaka misses the temperature of hour 2. *)
Definition sample_weather : list wrow :=
  [wr "44" "47662" "1" "25.1"; wr "44" "47662" "2" "24.8";
   wr "62" "47772" "1" "26.0"; wr "62" "47772" "2" "×"].

Definition sample_master : list mrow :=
  [mkmrow "44" "47662" "tokyo"; mkmrow "62" "47772" "osaka"].

(** ** The rest of [scrape.py] *)

(** The name of the cache file and the URL [get_page_block_date] hands to
    [get_page]. *)
Definition block_date_filename (prec_no block_no year month day : Z) : string :=
  str_of_int prec_no +:+ "_" +:+ str_of_int block_no +:+ "_" +:+
  str_of_int year +:+ "-" +:+ fmt02 month +:+ "-" +:+ fmt02 day +:+ ".txt".

Definition block_date_url (prec_no block_no year month day : Z) : string :=
  "https://www.data.jma.go.jp/stats/etrn/view/hourly_s1.php" +:+
  "?prec_no=" +:+ str_of_int prec_no +:+
  "&block_no=" +:+ str_of_int block_no +:+
  "&year=" +:+ str_of_int year +:+ "&month=" +:+ str_of_int month +:+
  "&day=" +:+ str_of_int day +:+ "&view=".

(** The name of the cache file of [get_page_blocks]. *)
Definition blocks_filename (prec_no : Z) : string :=
  "prefecture_" +:+ str_of_int prec_no +:+ ".txt".

(** [year, month, day = map(int, date.split('-'))]: unpacking raises
    [ValueError] unless there are exactly three parts, and so does [int]. *)
Definition date_ints (date : string) : result (Z * Z * Z) :=
  match Str.split "-" date with
  | [y; m; d] =>
      year ← Num.py_int y;
      month ← Num.py_int m;
      day ← Num.py_int d;
      Ok (year, month, day)
  | _ => Raise ValueError
  end.

Section ScraperMain.

(** [BeautifulSoup(_, 'html.parser')], the parser of the markup. *)
Variable BeautifulSoup : string → node.

(** The loop of [get_df_block_dates]: the list [dfs]. *)
Fixpoint get_df_block_dates_loop (prec_no block_no : Z) (dates : list string)
  : M (list (list observation)) :=
  match dates with
  | [] => mret []
  | date :: rest =>
      '(year, month, day) ← lift (date_ints date);
      df ← get_df_block_date BeautifulSoup prec_no block_no year month day;
      dfs ← get_df_block_dates_loop prec_no block_no rest;
      mret (df :: dfs)
  end.

(** [pd.concat(dfs) if dfs else pd.DataFrame()] *)
Definition get_df_block_dates (prec_no block_no : Z) (dates : list string)
  : M (list observation) :=
  dfs ← get_df_block_dates_loop prec_no block_no dates;
  mret (concat dfs).

(** The loop of [main] over the rows of the master, for one month: the
    frames it appends to [dfs]. *)
Fixpoint main_blocks (df_m : list station) (dates : list string)
  : M (list (list observation)) :=
  match df_m with
  | [] => mret []
  | row_m :: rest =>
      df ← get_df_block_dates (st_prec_no row_m) (st_block_no row_m) dates;
      dfs ← main_blocks rest dates;
      mret (df :: dfs)
  end.

(** The loop of [main] over the month buckets. *)
Fixpoint main_months (df_m : list station) (dic_dates : dict (list string))
  : M (list (list observation)) :=
  match dic_dates with
  | [] => mret []
  | (year_month, dates) :: rest =>
      _ ← extract_month year_month;
      dfs ← main_blocks df_m dates;
      _ ← compress_month year_month true;
      dfs' ← main_months df_m rest;
      mret (dfs ++ dfs')
  end.

(** [main(start_date, end_date)]: the rows written to
    [out/weather_japan_org.csv], or [None] when no file is written.  The
    three directories exist. *)
Definition main (start_date end_date : string)
  : M (option (list observation)) :=
  _ ← extract_precs;
  df_m ← get_master BeautifulSoup;
  _ ← compress_precs true;
  dic_dates ← lift (get_dates start_date end_date);
  dfs ← main_months df_m dic_dates;
  mret (match dfs with [] => None | _ => Some (concat dfs) end).

End ScraperMain.

(** ** The rest of [validate.py] *)

(** [get_jma_url(row)] on a row of the weather file. *)
Definition get_jma_url (row : wrow) : string :=
  let prec_no := w_prec_no row in
  let block_no := w_block_no row in
  let date_str := w_date row in
  let year := Str.take 4 date_str in
  let month := Str.take 2 (Str.drop 4 date_str) in
  let day := Str.take 2 (Str.drop 6 date_str) in
  "https://www.data.jma.go.jp/stats/etrn/view/hourly_s1.php" +:+
  "?prec_no=" +:+ prec_no +:+ "&block_no=" +:+ block_no +:+
  "&year=" +:+ year +:+ "&month=" +:+ month +:+ "&day=" +:+ day +:+ "&view=".

(** [s.replace('-', '')] *)
Fixpoint remove_dashes (s : string) : string :=
  match s with
  | String c r =>
      if decide (c = "-"%char) then remove_dashes r
      else String c (remove_dashes r)
  | EmptyString => EmptyString
  end.

(** [main(lb, ub, output_valid)] of [validate.py], on the two frames it
    reads: the rows inside the window, compared as texts, are validated
    for the temperature. *)
Definition validate_main (weather : list wrow) (master : list mrow)
    (lb ub : string) (output_valid : bool)
  : result (option (string * table)) :=
  let weather :=
    List.filter (λ r, String.leb (remove_dashes lb) (w_date r) &&
                      String.leb (w_date r) (remove_dashes ub)) weather in
  let column := Temp in
  validate_column weather master column output_valid.

(** ** Further notions used to state the properties *)

(** The date part of a day-page file name. *)
Definition date_part (year month day : Z) : string :=
  str_of_int year +:+ "-" +:+ fmt02 month +:+ "-" +:+ fmt02 day +:+ ".txt".

(** What [extractall] leaves in the cache directory for an archive: the
    last member of a name wins. *)
Definition archive_files (members : archive) : gmap string string :=
  list_to_map (reverse members).


(** What the loops of [get_master] keep true of their two variables. *)
Record master_inv (acc : master_acc) : Prop := {
  minv_set : ∀ k, k ∈ set_prec_block acc ↔ k ∈ map st_key (df_m acc);
  minv_nodup : NoDup (map st_key (df_m acc));
  minv_rows :
    Forall (λ r, st_key r ∈ prec_blocks_target ∧
                 dict_block_name_en !! st_block_name r
                 = Some (st_block_name_en r)) (df_m acc);
}.

(** The station names that can follow a region name and [::] in a text. *)
Fixpoint names_after_sep (t : string) : list string :=
  match t with
  | String c r =>
      (if String.prefix "::" t then [Str.drop 2 t] else [])
      ++ names_after_sep r
  | EmptyString => []
  end.

(** The rows of the weather file whose day lies between two days. *)
Definition in_window (dl du : date) (r : wrow) : bool :=
  match to_datetime (w_date r) with
  | Ok d => (toordinal dl <=? toordinal d) && (toordinal d <=? toordinal du)
  | Raise _ => false
  end.

(** * Properties *)

(** ** The calendar *)

Ltac bool_to_prop :=
  repeat match goal with
  | H : _ && _ = true |- _ => apply andb_prop in H; destruct H
  | H : (_ <=? _) = true |- _ => apply Z.leb_le in H
  | H : (_ <? _) = true |- _ => apply Z.ltb_lt in H
  | H : (_ <? _) = false |- _ => apply Z.ltb_ge in H
  end.

Lemma valid_date_spec (d : date) :
  valid_date d = true ↔
  1 <= year d <= 9999 ∧ 1 <= month d <= 12 ∧
  1 <= day d <= days_in_month (year d) (month d).
Proof.
  unfold valid_date. rewrite !andb_true_iff, !Z.leb_le. lia.
Qed.

Lemma days_in_month_pos (y m : Z) : 28 <= days_in_month y m <= 31.
Proof.
  unfold days_in_month.
  repeat match goal with |- context [if ?b then _ else _] => destruct b end; lia.
Qed.

Lemma days_before_year_succ (y : Z) :
  days_before_year (y + 1) = days_before_year y + (if is_leap y then 366 else 365).
Proof.
  unfold days_before_year, is_leap.
  replace (y + 1 - 1) with y by lia.
  destruct (y mod 4 =? 0) eqn:H4, (y mod 100 =? 0) eqn:H100,
    (y mod 400 =? 0) eqn:H400; simpl;
    rewrite ?Z.eqb_eq, ?Z.eqb_neq in *; Z.div_mod_to_equations; lia.
Qed.

Lemma days_before_year_mono (y y' : Z) :
  y <= y' → days_before_year y <= days_before_year y'.
Proof.
  unfold days_before_year. intros. Z.div_mod_to_equations. lia.
Qed.

Lemma days_before_month_succ (y m : Z) :
  1 <= m < 12 →
  days_before_month y (m + 1) = days_before_month y m + days_in_month y m.
Proof.
  intros Hm.
  assert (m = 1 ∨ m = 2 ∨ m = 3 ∨ m = 4 ∨ m = 5 ∨ m = 6 ∨ m = 7 ∨ m = 8 ∨
          m = 9 ∨ m = 10 ∨ m = 11) as Hc by lia.
  unfold days_before_month, days_in_month.
  destruct (is_leap y);
    repeat (destruct Hc as [-> | Hc]; [reflexivity |]); subst; reflexivity.
Qed.

Lemma days_before_month_december (y : Z) :
  days_before_month y 12 + days_in_month y 12
  = if is_leap y then 366 else 365.
Proof. unfold days_before_month, days_in_month. destruct (is_leap y); reflexivity. Qed.

Lemma next_day_ordinal (d d' : date) :
  valid_date d = true → next_day d = Some d' →
  valid_date d' = true ∧ toordinal d' = toordinal d + 1.
Proof.
  rewrite !valid_date_spec. intros (Hy & Hm & Hd) Hn.
  unfold next_day in Hn.
  destruct (day d <? _) eqn:E1; bool_to_prop.
  { injection Hn as <-. simpl. unfold toordinal. simpl. lia. }
  destruct (month d <? 12) eqn:E2; bool_to_prop.
  { injection Hn as <-. simpl. unfold toordinal. simpl.
    pose proof (days_in_month_pos (year d) (month d + 1)).
    rewrite days_before_month_succ by lia. lia. }
  destruct (year d <? 9999) eqn:E3; bool_to_prop; [| discriminate].
  injection Hn as <-. simpl. unfold toordinal. simpl.
  assert (month d = 12) as Hm12 by lia.
  pose proof (days_before_month_december (year d)) as Hdec.
  rewrite days_before_year_succ. rewrite Hm12 in *.
  split; [unfold days_in_month; simpl; lia |].
  unfold days_before_month at 1. simpl.
  destruct (is_leap (year d)); lia.
Qed.

Lemma days_before_month_bounds (y m : Z) :
  1 <= m <= 12 →
  0 <= days_before_month y m ∧
  days_before_month y m + days_in_month y m
  <= if is_leap y then 366 else 365.
Proof.
  intros Hm.
  assert (m = 1 ∨ m = 2 ∨ m = 3 ∨ m = 4 ∨ m = 5 ∨ m = 6 ∨ m = 7 ∨ m = 8 ∨
          m = 9 ∨ m = 10 ∨ m = 11 ∨ m = 12) as Hc by lia.
  unfold days_before_month, days_in_month.
  repeat (destruct Hc as [-> | Hc]; [destruct (is_leap y); simpl; lia |]).
  subst. destruct (is_leap y); simpl; lia.
Qed.

Lemma days_before_month_mono (y m m' : Z) :
  1 <= m → m < m' → m' <= 12 →
  days_before_month y m + days_in_month y m <= days_before_month y m'.
Proof.
  intros H1 H2 H3.
  assert (m = 1 ∨ m = 2 ∨ m = 3 ∨ m = 4 ∨ m = 5 ∨ m = 6 ∨ m = 7 ∨ m = 8 ∨
          m = 9 ∨ m = 10 ∨ m = 11) as Hc by lia.
  assert (m' = 2 ∨ m' = 3 ∨ m' = 4 ∨ m' = 5 ∨ m' = 6 ∨ m' = 7 ∨ m' = 8 ∨
          m' = 9 ∨ m' = 10 ∨ m' = 11 ∨ m' = 12) as Hc' by lia.
  unfold days_before_month, days_in_month.
  destruct (is_leap y);
    repeat (destruct Hc as [-> | Hc]);
    repeat (destruct Hc' as [-> | Hc']); subst; simpl; lia.
Qed.

Lemma toordinal_bounds (d : date) :
  valid_date d = true →
  days_before_year (year d) < toordinal d <= days_before_year (year d + 1).
Proof.
  rewrite valid_date_spec. intros (Hy & Hm & Hd).
  pose proof (days_before_month_bounds (year d) (month d) Hm).
  rewrite days_before_year_succ. unfold toordinal.
  destruct (is_leap (year d)); lia.
Qed.

(** The ordinal respects the chronological order, strictly. *)
Lemma toordinal_lt (a b : date) :
  valid_date a = true → valid_date b = true →
  date_le a b → a ≠ b → toordinal a < toordinal b.
Proof.
  intros Ha Hb Hle Hne.
  pose proof (toordinal_bounds a Ha). pose proof (toordinal_bounds b Hb).
  apply valid_date_spec in Ha as (Hya & Hma & Hda).
  apply valid_date_spec in Hb as (Hyb & Hmb & Hdb).
  destruct Hle as [Hy | [Hy [Hm | [Hm Hd]]]].
  - pose proof (days_before_year_mono (year a + 1) (year b)). lia.
  - unfold toordinal. rewrite Hy in *.
    pose proof (days_before_month_mono (year b) (month a) (month b)). lia.
  - assert (day a ≠ day b).
    { intros Hd'. apply Hne. destruct a, b; simpl in *; congruence. }
    unfold toordinal. rewrite Hy, Hm. lia.
Qed.

Lemma date_le_total (a b : date) : date_le a b ∨ (date_le b a ∧ a ≠ b).
Proof.
  destruct (decide (a = b)) as [-> | Hne]; [left; unfold date_le; lia |].
  assert (date_le a b ∨ date_le b a) as [H | H] by (unfold date_le; lia);
    [left | right]; done.
Qed.

Lemma date_le_ordinal (a b : date) :
  valid_date a = true → valid_date b = true →
  date_le a b ↔ toordinal a <= toordinal b.
Proof.
  intros Ha Hb. split.
  - intros Hle. destruct (decide (a = b)) as [-> | Hne]; [lia |].
    pose proof (toordinal_lt a b Ha Hb Hle Hne). lia.
  - intros Hord. destruct (date_le_total a b) as [H | [H Hne]]; [done |].
    pose proof (toordinal_lt b a Hb Ha H (not_eq_sym Hne)). lia.
Qed.

Lemma toordinal_inj (a b : date) :
  valid_date a = true → valid_date b = true →
  toordinal a = toordinal b → a = b.
Proof.
  intros Ha Hb Heq. destruct (decide (a = b)) as [| Hne]; [done |].
  destruct (date_le_total a b) as [H | [H _]].
  - pose proof (toordinal_lt a b Ha Hb H Hne). lia.
  - pose proof (toordinal_lt b a Hb Ha H (not_eq_sym Hne)). lia.
Qed.

Lemma toordinal_max (d : date) :
  valid_date d = true → toordinal d <= 3652059.
Proof.
  intros Hd. pose proof (toordinal_bounds d Hd).
  apply valid_date_spec in Hd as (Hy & _).
  pose proof (days_before_year_mono (year d + 1) 10000).
  change (days_before_year 10000) with 3652059 in *. lia.
Qed.

(** Before the last day of the calendar there is a next day. *)
Lemma next_day_is_Some (d e : date) :
  valid_date d = true → valid_date e = true → toordinal d < toordinal e →
  ∃ d', next_day d = Some d'.
Proof.
  intros Hd He Hlt. unfold next_day.
  destruct (day d <? _) eqn:E1; [eauto |].
  destruct (month d <? 12) eqn:E2; [eauto |].
  destruct (year d <? 9999) eqn:E3; [eauto |]. exfalso.
  pose proof (toordinal_max e He).
  pose proof (toordinal_bounds d Hd) as Hb.
  apply valid_date_spec in Hd as (Hy & Hm & Hdd). bool_to_prop.
  assert (year d = 9999) as Hy' by lia.
  assert (month d = 12) as Hm' by lia.
  unfold toordinal in *. rewrite Hy', Hm' in *.
  change (days_in_month 9999 12) with 31 in *.
  change (days_before_year 9999 + days_before_month 9999 12) with 3652028 in *.
  lia.
Qed.

Lemma add_days_succ (d x : date) (i : nat) :
  add_days d i = Ok x →
  add_days d (S i) = of_option OverflowError (next_day x).
Proof.
  revert d. induction i as [| i IH]; intros d H.
  - simpl in H. injection H as ->. simpl. by destruct (next_day x).
  - change (add_days d (S i)) with
      (match next_day d with
       | Some d' => add_days d' i | None => Raise OverflowError end) in H.
    change (add_days d (S (S i))) with
      (match next_day d with
       | Some d' => add_days d' (S i) | None => Raise OverflowError end).
    destruct (next_day d) as [d' |]; [by apply IH | discriminate].
Qed.

(** ** Formatting dates *)

Lemma digit_char_inj (a b : Z) :
  0 <= a <= 9 → 0 <= b <= 9 → Str.digit_char a = Str.digit_char b → a = b.
Proof.
  intros Ha Hb H. unfold Str.digit_char in H.
  apply (f_equal nat_of_ascii) in H.
  rewrite !nat_ascii_embedding in H by lia. lia.
Qed.

Lemma pad2_inj (a b : Z) :
  0 <= a < 100 → 0 <= b < 100 → Str.pad2 a = Str.pad2 b → a = b.
Proof.
  intros Ha Hb H. unfold Str.pad2 in H. injection H as H1 H2.
  apply digit_char_inj in H1, H2; [ | Z.div_mod_to_equations; lia ..].
  Z.div_mod_to_equations; lia.
Qed.

Lemma pad4_inj (a b : Z) :
  0 <= a < 10000 → 0 <= b < 10000 → Str.pad4 a = Str.pad4 b → a = b.
Proof.
  intros Ha Hb H. unfold Str.pad4 in H. injection H as H1 H2 H3 H4.
  apply digit_char_inj in H1, H2, H3, H4; [ | Z.div_mod_to_equations; lia ..].
  Z.div_mod_to_equations; lia.
Qed.

Lemma take_strftime (d : date) : Str.take 7 (strftime d) = year_month_of d.
Proof. reflexivity. Qed.

Lemma year_month_of_inj (a b : date) :
  valid_date a = true → valid_date b = true →
  year_month_of a = year_month_of b → year a = year b ∧ month a = month b.
Proof.
  rewrite !valid_date_spec. intros (Hya & Hma & _) (Hyb & Hmb & _) H.
  unfold year_month_of in H.
  assert (Str.pad4 (year a) = Str.pad4 (year b) ∧
          Str.pad2 (month a) = Str.pad2 (month b)) as [H4 H2].
  { unfold Str.pad4, Str.pad2 in *. simpl in H.
    injection H; intros; split; congruence. }
  split; [apply pad4_inj | apply pad2_inj]; auto; lia.
Qed.


(** ** The month buckets of [get_dates] *)

Lemma dict_mem_spec {V : Type} (k : string) (dic : dict V) :
  dict_mem k dic = true ↔ k ∈ map fst dic.
Proof. unfold dict_mem. apply bool_decide_eq_true. Qed.

Lemma dict_append_last {V : Type} (k : string) (x : V) (v : list V)
    (dic0 : dict (list V)) :
  k ∉ map fst dic0 →
  dict_append k x (dic0 ++ [(k, v)]) = dic0 ++ [(k, v ++ [x])].
Proof.
  induction dic0 as [| [k' v'] r IH]; intros Hk; simpl.
  - by rewrite decide_True.
  - simpl in Hk. rewrite not_elem_of_cons in Hk. destruct Hk as [Hne Hk].
    rewrite decide_False by done. by rewrite IH.
Qed.

Lemma month_index_inj (a b : date) :
  valid_date a = true → valid_date b = true →
  month_index a = month_index b → year_month_of a = year_month_of b.
Proof.
  rewrite !valid_date_spec. unfold month_index, year_month_of.
  intros (_ & Hma & _) (_ & Hmb & _) H.
  assert (year a = year b) as -> by lia.
  assert (month a = month b) as -> by lia. done.
Qed.

Lemma next_day_month_index (d d' : date) :
  valid_date d = true → next_day d = Some d' →
  month_index d <= month_index d'.
Proof.
  rewrite valid_date_spec. intros (_ & Hm & _) H. unfold next_day in H.
  repeat match type of H with
         | (if ?b then _ else _) = _ => destruct b
         end; simplify_eq; unfold month_index; simpl; lia.
Qed.

Lemma get_dates_step_inv (dic : dict (list string)) (p : list date) (M : Z)
    (x : date) :
  buckets_inv dic p M → valid_date x = true → M <= month_index x →
  buckets_inv (get_dates_step dic (strftime x)) (p ++ [x]) (month_index x).
Proof.
  intros [Hflat Hnd Hok Hkeys Hlast] Hx HM.
  unfold get_dates_step. rewrite take_strftime.
  set (k := year_month_of x). set (s := strftime x).
  assert (Str.take 7 s = k) as Hks by apply take_strftime.
  destruct (dict_mem k dic) eqn:Hmem.
  - apply dict_mem_spec in Hmem.
    assert (M = month_index x) as ->.
    { rewrite Forall_forall in Hkeys.
      destruct (Hkeys k Hmem) as (z & Hz & Hkz & HzM).
      destruct (year_month_of_inj x z Hx Hz Hkz) as [Hy Hm].
      unfold month_index in *. lia. }
    destruct Hlast as (dic0 & v & z & -> & Hz & HzM).
    { intros ->. by apply elem_of_nil in Hmem. }
    rewrite (month_index_inj z x Hz Hx HzM) in *. fold k in Hnd, Hkeys |- *.
    rewrite map_app in Hnd. simpl in Hnd.
    apply NoDup_app in Hnd as (Hnd0 & Hdisj & _).
    rewrite dict_append_last
      by (intros Hin; apply (Hdisj k Hin); by apply list_elem_of_singleton).
    apply Forall_app in Hok as [Hok0 Hokv]. rewrite Forall_singleton in Hokv.
    unfold bucket_ok in Hokv. destruct Hokv as [_ Hv]. simpl in Hv.
    split.
    + rewrite !map_app, !concat_app in *. simpl in *.
      rewrite app_nil_r in *. by rewrite <- Hflat, app_assoc.
    + rewrite map_app. simpl. apply NoDup_app. repeat split; try done.
      apply NoDup_singleton.
    + apply Forall_app. split; [done |]. apply Forall_singleton. split; simpl.
      * by destruct v.
      * apply Forall_app. split; [done |]. by apply Forall_singleton.
    + rewrite map_app in *. done.
    + intros _. by exists dic0, (v ++ [s]), x.
  - assert (k ∉ map fst dic) as Hk.
    { intros Hin. apply dict_mem_spec in Hin. congruence. }
    rewrite (dict_append_last k s [] dic Hk). simpl.
    split.
    + rewrite !map_app, !concat_app. simpl. by rewrite Hflat.
    + rewrite map_app. simpl. apply NoDup_app. repeat split; try done.
      * intros y Hy Hy'. apply list_elem_of_singleton in Hy'. by subst.
      * apply NoDup_singleton.
    + apply Forall_app. split; [done |]. apply Forall_singleton. split; simpl.
      * done.
      * by apply Forall_singleton.
    + rewrite map_app. apply Forall_app. split.
      * eapply Forall_impl; [exact Hkeys |]. simpl.
        intros y (z & Hz & Hyz & HzM). exists z. repeat split; try done. lia.
      * apply Forall_singleton. exists x. repeat split; try done.
    + intros _. by exists dic, [s], x.
Qed.

Lemma calendar_run_inv (d e : date) (l : list date) :
  calendar_run d e l → valid_date d = true →
  ∀ dic p M, buckets_inv dic p M → M <= month_index d →
  buckets_inv (fold_left get_dates_step (map strftime l) dic) (p ++ l)
    (month_index e).
Proof.
  induction 1 as [d | d d' e l Hn Hrun IH]; intros Hd dic p M Hinv HM.
  - simpl. by eapply get_dates_step_inv.
  - simpl. replace (p ++ d :: l) with ((p ++ [d]) ++ l)
      by (by rewrite <- app_assoc).
    destruct (next_day_ordinal d d' Hd Hn) as [Hd' _].
    eapply IH; [done | by eapply get_dates_step_inv |].
    by apply next_day_month_index.
Qed.


Lemma get_dates_loop_run (start e : date) :
  valid_date e = true →
  ∀ (n i : nat) (d : date) (dic : dict (list string)),
    add_days start i = Ok d → valid_date d = true →
    toordinal e = toordinal d + Z.of_nat n →
    ∃ l, calendar_run d e l ∧
         get_dates_loop start i (S n) dic
         = Ok (fold_left get_dates_step (map strftime l) dic).
Proof.
  intros He. induction n as [| n IH]; intros i d dic Hadd Hd Hord.
  - assert (d = e) as -> by (apply toordinal_inj; [done .. | lia]).
    exists [e]. split; [constructor |]. simpl. by rewrite Hadd.
  - destruct (next_day_is_Some d e Hd He) as [d' Hn]; [lia |].
    destruct (next_day_ordinal d d' Hd Hn) as [Hd' Hord'].
    destruct (IH (S i) d' (get_dates_step dic (strftime d))) as (l & Hrun & Hloop).
    { rewrite (add_days_succ start d i Hadd), Hn. done. }
    { done. }
    { lia. }
    exists (d :: l). split; [by econstructor |].
    change (get_dates_loop start i (S (S n)) dic) with
      (x ← add_days start i;
       get_dates_loop start (S i) (S n) (get_dates_step dic (strftime x))).
    rewrite Hadd. exact Hloop.
Qed.

Lemma strptime_valid (s : string) (d : date) :
  strptime s = Ok d → valid_date d = true.
Proof.
  unfold strptime. intros H.
  repeat match type of H with
         | match ?x with _ => _ end = _ => destruct x eqn:?; try discriminate
         end.
  by simplify_eq.
Qed.



(** ** The cache store: [get_page] *)

Lemma read_text_no_CR (s : string) : has_char CR s = false → read_text s = s.
Proof.
  induction s as [| c r IH]; [done |]. simpl. intros H.
  apply orb_false_iff in H as [Hc Hr]. apply bool_decide_eq_false in Hc.
  rewrite decide_False by done. by rewrite IH.
Qed.

Lemma network_calls_log (e : event) (w : world) :
  network_calls (log e w)
  = (network_calls w + (if is_request e then 1 else 0))%nat.
Proof.
  unfold network_calls, log. simpl. rewrite List.filter_app, length_app. simpl.
  by destruct (is_request e).
Qed.

(** C4, as stated, fails: on a cold cache the site serves a page with a
    CR LF line break; the first call returns it as served, the second call
    reads the stored file in text mode and returns it with a bare LF. *)
Lemma get_page_twice_differs :
  cache crlf_world !! "k" = None ∧
  ∃ w1, get_page "u" "k" crlf_world = (Ok crlf_page, w1) ∧
        (get_page "u" "k" w1).1 = Ok ("a" +:+ String LF "b") ∧
        (get_page "u" "k" w1).1 ≠ (get_page "u" "k" crlf_world).1.
Proof.
  split; [reflexivity |]. eexists. split; [reflexivity |].
  split; [vm_compute; reflexivity | vm_compute; discriminate].
Qed.

(** C4, amended: on a cold cache and with a request that succeeds, the first
    call returns the served text, stores it as it is and sends exactly one
    request; the second call sends none, leaves the world as it is and
    returns the stored text as text mode reads it, with CR LF and CR turned
    into LF.  That is the text of the first call whenever the page holds no
    carriage return. *)
Theorem get_page_twice (w : world) (url cache_filename content : string) :
  cache w !! cache_filename = None →
  site w url = Ok content →
  ∃ w1,
    get_page url cache_filename w = (Ok content, w1) ∧
    cache w1 !! cache_filename = Some content ∧
    network_calls w1 = S (network_calls w) ∧
    get_page url cache_filename w1 = (Ok (read_text content), w1) ∧
    (has_char CR content = false → read_text content = content).
Proof.
  intros Hcold Hsite. unfold get_page at 1. rewrite Hcold. simpl.
  rewrite Hsite. eexists. split; [reflexivity |].
  assert (∀ w', cache (log (EvWrite cache_filename)
             (set_cache <[cache_filename:=write_text content]> w'))
           !! cache_filename = Some content) as Hc.
  { intros w'. simpl. apply lookup_insert_eq. }
  split; [apply Hc |]. split.
  - unfold network_calls. simpl.
    rewrite <- !app_assoc, List.filter_app, length_app. simpl. lia.
  - split; [| apply read_text_no_CR].
    unfold get_page. by rewrite Hc.
Qed.



(** The two calls on the cold cache of [crlf_world]. *)
Lemma get_page_twice_witness :
  ∃ w1,
    get_page "u" "k" crlf_world = (Ok crlf_page, w1) ∧
    cache w1 !! "k" = Some crlf_page ∧
    network_calls w1 = S (network_calls crlf_world) ∧
    get_page "u" "k" w1 = (Ok (read_text crlf_page), w1) ∧
    (has_char CR crlf_page = false → read_text crlf_page = crlf_page).
Proof.
  apply (get_page_twice crlf_world "u" "k" crlf_page);
    vm_compute; reflexivity.
Defined.

(** ** Archives: [compress_impl] and [extract_impl] *)

Lemma tar_add_all_ok (tar : string) (files : list string) (w0 : world) :
  ∀ (w : world) (ms : archive),
    cache w = cache w0 → fault w = fault w0 →
    tar_gz w !! tar = Some ms →
    (∀ f, f ∈ files → is_Some (cache w0 !! f) ∧ fault w0 f = false) →
    ∃ w', tar_add_all tar files w = (Ok tt, w') ∧
          cache w' = cache w0 ∧
          tar_gz w' !! tar = Some (ms ++ members_of w0 files) ∧
          trace w' = trace w ++ map (EvTarAdd tar) files.
Proof.
  induction files as [| f rest IH]; intros w ms Hc Hf Hms Hall.
  - exists w. simpl. by rewrite !app_nil_r.
  - destruct (Hall f) as [[bytes Hb] Hfault]; [by left |].
    simpl. unfold mbind, M_bind, tar_add. rewrite Hc, Hb. simpl.
    rewrite Hf, Hfault. simpl. rewrite Hms. simpl.
    edestruct (IH (log (EvTarAdd tar f)
                 (set_tar_gz <[tar:=ms ++ [(f, bytes)]]> w)) (ms ++ [(f, bytes)]))
      as (w' & Hrun & Hc' & Ht' & Htr'); simpl; try done.
    { apply lookup_insert_eq. }
    { intros g Hg. apply Hall. by right. }
    exists w'. unfold mbind, M_bind in Hrun. rewrite Hrun. repeat split; try done.
    + rewrite Ht'. unfold members_of. simpl. by rewrite <- app_assoc.
    + rewrite Htr'. simpl. by rewrite <- app_assoc.
Qed.

Lemma unlink_all_ok (files : list string) :
  ∀ w : world,
    NoDup files → (∀ f, f ∈ files → is_Some (cache w !! f)) →
    ∃ w', unlink_all files w = (Ok tt, w') ∧
          (∀ g, cache w' !! g = if decide (g ∈ files) then None else cache w !! g) ∧
          tar_gz w' = tar_gz w ∧
          trace w' = trace w ++ map EvUnlink files.
Proof.
  induction files as [| f rest IH]; intros w Hnd Hall.
  - exists w. simpl. rewrite app_nil_r. repeat split; try done.
  - apply NoDup_cons in Hnd as [Hf Hnd].
    destruct (Hall f) as [bytes Hb]; [by left |].
    simpl. unfold mbind, M_bind, unlink. rewrite Hb.
    destruct (IH (log (EvUnlink f) (set_cache (delete f) w)) Hnd)
      as (w' & Hrun & Hc' & Ht' & Htr').
    { intros g Hg. simpl. rewrite lookup_delete_ne; [apply Hall; by right |].
      intros ->. done. }
    exists w'. unfold mbind, M_bind in Hrun. rewrite Hrun. repeat split; try done.
    + intros g. rewrite Hc'. simpl.
      destruct (decide (g = f)) as [-> | Hne].
      * rewrite decide_False by done. rewrite decide_True by (by left).
        apply lookup_delete_eq.
      * rewrite lookup_delete_ne by done.
        destruct (decide (g ∈ rest)).
        -- rewrite decide_True by (by right). done.
        -- rewrite decide_False; [done |]. rewrite not_elem_of_cons. done.
    + rewrite Htr'. simpl. by rewrite <- app_assoc.
Qed.

Lemma extract_members_spec (tar : string) (w0 : world) (files : list string) :
  ∀ w : world,
    (∀ g, cache (extract_members tar (members_of w0 files) w) !! g
          = if decide (g ∈ files) then Some (default "" (cache w0 !! g))
            else cache w !! g) ∧
    trace (extract_members tar (members_of w0 files) w)
    = trace w ++ map (EvExtract tar) files.
Proof.
  induction files as [| f rest IH]; intros w.
  - split; [| simpl; by rewrite app_nil_r]. intros g.
    destruct (decide (g ∈ [])) as [H |]; [by apply elem_of_nil in H | done].
  - simpl. destruct (IH (log (EvExtract tar f)
      (set_cache <[f:=default "" (cache w0 !! f)]> w))) as [Hc Ht].
    split.
    + intros g. rewrite Hc. simpl.
      destruct (decide (g ∈ rest)).
      * rewrite decide_True by (by right). done.
      * destruct (decide (g = f)) as [-> | Hne].
        -- rewrite decide_True by (by left). apply lookup_insert_eq.
        -- rewrite decide_False by (rewrite not_elem_of_cons; done).
           by rewrite lookup_insert_ne.
    + rewrite Ht. simpl. by rewrite <- app_assoc.
Qed.

(** C5: for a batch of distinct loose files that are in the cache, and with
    no write fault on them, compressing the batch and then extracting the
    archive succeeds; the extraction writes exactly the files of the batch,
    and the cache directory afterwards is the one before the compression,
    name by name and byte by byte (with [remove_cache] the files were gone
    in between). *)
Theorem compress_extract_roundtrip (w : world) (tar_gz_file : string)
    (cache_files : list string) (remove_cache : bool) :
  NoDup cache_files →
  (∀ f, f ∈ cache_files → is_Some (cache w !! f)) →
  (∀ f, f ∈ cache_files → fault w f = false) →
  ∃ w1 w2,
    compress_impl tar_gz_file cache_files remove_cache w = (Ok tt, w1) ∧
    (remove_cache = true → ∀ f, f ∈ cache_files → cache w1 !! f = None) ∧
    extract_impl tar_gz_file w1 = (Ok tt, w2) ∧
    trace w2 = trace w1 ++ map (EvExtract tar_gz_file) cache_files ∧
    cache w2 = cache w.
Proof.
  intros Hnd Hex Hfault.
  destruct (tar_add_all_ok tar_gz_file cache_files w
              (log (EvTarOpen tar_gz_file)
                 (set_tar_gz <[tar_gz_file:=[]]> w)) [])
    as (wa & Hadd & Hca & Hta & Htra); simpl; try done.
  { apply lookup_insert_eq. }
  { intros f Hf. split; [by apply Hex | by apply Hfault]. }
  simpl in Hta.
  assert (∀ w1 : world,
    tar_gz w1 !! tar_gz_file = Some (members_of w cache_files) →
    (∀ g, g ∉ cache_files → cache w1 !! g = cache w !! g) →
    ∃ w2, extract_impl tar_gz_file w1 = (Ok tt, w2) ∧
          trace w2 = trace w1 ++ map (EvExtract tar_gz_file) cache_files ∧
          cache w2 = cache w) as Hextract.
  { intros w1 Ht1 Hc1. unfold extract_impl. rewrite Ht1.
    destruct (extract_members_spec tar_gz_file w cache_files w1) as [Hc Ht].
    eexists. split; [reflexivity |]. split; [done |].
    apply map_eq. intros g. rewrite Hc. destruct (decide (g ∈ cache_files)).
    - destruct (Hex g) as [b Hb]; [done |]. by rewrite Hb.
    - by apply Hc1. }
  unfold compress_impl, mbind, M_bind, tar_open.
  unfold mbind, M_bind in Hadd. rewrite Hadd. simpl.
  destruct remove_cache.
  - destruct (unlink_all_ok cache_files (log (EvTarClose tar_gz_file) wa) Hnd)
      as (w1 & Hun & Hc1 & Ht1 & Htr1).
    { intros f Hf. simpl. rewrite Hca. by apply Hex. }
    destruct (Hextract w1) as (w2 & He & Htr2 & Hc2).
    { by rewrite Ht1. }
    { intros g Hg. rewrite Hc1, decide_False by done. simpl. by rewrite Hca. }
    exists w1, w2. repeat split; try done.
    intros _ f Hf. by rewrite Hc1, decide_True.
  - destruct (Hextract (log (EvTarClose tar_gz_file) wa)) as (w2 & He & Htr2 & Hc2).
    { done. }
    { intros g _. simpl. by rewrite Hca. }
    exists (log (EvTarClose tar_gz_file) wa), w2. repeat split; try done.
Qed.


(** One day page compressed into the archive of its month and restored. *)
Lemma compress_extract_roundtrip_witness :
  ∃ w1 w2,
    compress_impl "2024-01.tar.gz" ["44_47662_2024-01-01.txt"] true cached_world
    = (Ok tt, w1) ∧
    (true = true →
     ∀ f, f ∈ ["44_47662_2024-01-01.txt"] → cache w1 !! f = None) ∧
    extract_impl "2024-01.tar.gz" w1 = (Ok tt, w2) ∧
    trace w2
    = trace w1 ++ map (EvExtract "2024-01.tar.gz") ["44_47662_2024-01-01.txt"] ∧
    cache w2 = cache cached_world.
Proof.
  apply (compress_extract_roundtrip cached_world "2024-01.tar.gz"
           ["44_47662_2024-01-01.txt"] true).
  - apply NoDup_singleton.
  - intros f Hf. apply list_elem_of_singleton in Hf as ->.
    vm_compute. eexists. reflexivity.
  - intros f Hf. reflexivity.
Defined.

(** The batch [compress_month] and [compress_precs] select consists of
    distinct files that are in the cache. *)
Lemma iterdir_batch (w : world) (select : string → bool) :
  let cache_files := filter (λ f, select f = true) (iterdir w) in
  NoDup cache_files ∧ ∀ f, f ∈ cache_files → is_Some (cache w !! f).
Proof.
  simpl. split.
  - apply NoDup_filter, NoDup_fst_map_to_list.
  - intros f Hf. apply list_elem_of_filter in Hf as [_ Hf].
    unfold iterdir in Hf. apply list_elem_of_fmap in Hf as ([g b] & -> & Hgb).
    apply elem_of_map_to_list in Hgb. simpl. by exists b.
Qed.

Lemma tar_add_all_trace (tar : string) (files : list string) :
  ∀ (w : world) (ms : archive),
    tar_gz w !! tar = Some ms →
    ∃ added,
      cache (tar_add_all tar files w).2 = cache w ∧
      trace (tar_add_all tar files w).2 = trace w ++ map (EvTarAdd tar) added ∧
      ((∃ e, (tar_add_all tar files w).1 = Raise e) ∨
       ((tar_add_all tar files w).1 = Ok tt ∧ added = files ∧
        ∃ ms', tar_gz (tar_add_all tar files w).2 !! tar = Some (ms ++ ms') ∧
               map fst ms' = files)).
Proof.
  induction files as [| f rest IH]; intros w ms Hms.
  - exists []. simpl. rewrite app_nil_r. repeat split; try done.
    right. repeat split; try done. exists []. by rewrite app_nil_r.
  - simpl. unfold mbind, M_bind, tar_add.
    destruct (cache w !! f) as [bytes |] eqn:Hb; simpl.
    2: { exists []. simpl. rewrite app_nil_r. repeat split; try done.
         left. by eexists. }
    destruct (fault w f); simpl.
    { exists []. simpl. rewrite app_nil_r. repeat split; try done.
      left. by eexists. }
    rewrite Hms. simpl.
    destruct (IH (log (EvTarAdd tar f)
                (set_tar_gz <[tar:=ms ++ [(f, bytes)]]> w)) (ms ++ [(f, bytes)]))
      as (added & Hc & Ht & Hr).
    { simpl. apply lookup_insert_eq. }
    exists (f :: added). simpl in *. rewrite Hc, Ht, <- app_assoc.
    repeat split; try done.
    destruct Hr as [He | (Hok & -> & ms' & Hms' & Hfst)]; [by left | right].
    repeat split; try done. exists ((f, bytes) :: ms'). rewrite Hms'.
    rewrite <- app_assoc. simpl. by rewrite Hfst.
Qed.

Lemma unlink_all_trace (files : list string) :
  ∀ w : world,
    ∃ unlinked,
      trace (unlink_all files w).2 = trace w ++ map EvUnlink unlinked ∧
      tar_gz (unlink_all files w).2 = tar_gz w ∧
      unlinked `prefix_of` files.
Proof.
  induction files as [| f rest IH]; intros w.
  - exists []. simpl. by rewrite app_nil_r.
  - simpl. unfold mbind, M_bind, unlink.
    destruct (cache w !! f) as [bytes |]; simpl.
    2: { exists []. simpl. rewrite app_nil_r. repeat split; try done.
         apply prefix_nil. }
    destruct (IH (log (EvUnlink f) (set_cache (delete f) w)))
      as (unlinked & Ht & Htar & Hp).
    exists (f :: unlinked). simpl in *. rewrite Ht, Htar, <- app_assoc.
    repeat split; try done. by apply prefix_cons.
Qed.

(** C6: whatever the batch and the faults, a run of [compress_impl] is of one
    of two kinds.  Either writing the archive raised: then nothing was
    unlinked, the trace holds the opening and the members added so far, and
    the cache directory is unchanged.  Or the archive was written and
    closed with a member for every file of the batch: then every unlink
    comes after the close in the trace, the unlinked files are a prefix of
    the batch, and without [remove_cache] there is none. *)
Theorem compress_impl_unlinks_after_close (w : world) (tar_gz_file : string)
    (cache_files : list string) (remove_cache : bool) :
  let r := (compress_impl tar_gz_file cache_files remove_cache w).1 in
  let w1 := (compress_impl tar_gz_file cache_files remove_cache w).2 in
  (∃ e added,
     r = Raise e ∧
     trace w1
     = trace w ++ EvTarOpen tar_gz_file :: map (EvTarAdd tar_gz_file) added ∧
     cache w1 = cache w)
  ∨
  (∃ ms unlinked,
     trace w1
     = trace w ++ EvTarOpen tar_gz_file
         :: map (EvTarAdd tar_gz_file) cache_files
         ++ EvTarClose tar_gz_file :: map EvUnlink unlinked ∧
     tar_gz w1 !! tar_gz_file = Some ms ∧
     map fst ms = cache_files ∧
     unlinked `prefix_of` cache_files ∧
     (remove_cache = false → unlinked = [])).
Proof.
  simpl. unfold compress_impl, mbind, M_bind, tar_open.
  set (w0 := log (EvTarOpen tar_gz_file) (set_tar_gz <[tar_gz_file:=[]]> w)).
  destruct (tar_add_all_trace tar_gz_file cache_files w0 [])
    as (added & Hc & Ht & Hr).
  { simpl. apply lookup_insert_eq. }
  destruct (tar_add_all tar_gz_file cache_files w0) as [r wa] eqn:Hadd.
  simpl in Hc, Ht, Hr.
  destruct Hr as [[e ->] | (-> & -> & ms & Hms & Hfst)].
  - left. exists e, added. simpl. rewrite Ht, Hc. simpl.
    by rewrite <- app_assoc.
  - right. simpl in Hms. unfold emit. simpl. destruct remove_cache.
    + destruct (unlink_all_trace cache_files (log (EvTarClose tar_gz_file) wa))
        as (unlinked & Htr & Htar & Hp).
      exists ms, unlinked. rewrite Htr, Htar. simpl. rewrite Ht. simpl.
      repeat split; try done. by rewrite <- !app_assoc.
    + exists ms, []. simpl. rewrite Ht. simpl.
      repeat split; try done; [by rewrite <- !app_assoc | apply prefix_nil].
Qed.

(** ** The station master: [get_master] *)

Ltac unfold_M := unfold mbind, M_bind, mret, M_ret, lift in *.

Lemma master_add_all_app (acc : master_acc) (es es' : list entry) :
  master_add_all acc (es ++ es')
  = (acc' ← master_add_all acc es; master_add_all acc' es').
Proof.
  revert acc. induction es as [| e es IH]; intros acc; [done |]. simpl.
  destruct (master_add acc e) as [acc1 | err]; simpl; [apply IH | done].
Qed.

Lemma master_blocks_entries (prec_no : Z) (prec_name : option string)
    (blocks : list node) :
  ∀ acc acc' : master_acc,
    master_blocks prec_no prec_name acc blocks = Ok acc' →
    ∃ es, entries_blocks prec_no prec_name blocks = Ok es ∧
          master_add_all acc es = Ok acc'.
Proof.
  induction blocks as [| block rest IH]; intros acc acc' H; simpl in *.
  - exists []. by simplify_eq.
  - unfold master_block in H.
    destruct (block_entry prec_no prec_name block) as [[e |] | err];
      simpl in *; [| | done].
    + destruct (master_add acc e) as [acc1 | err] eqn:Hadd; simpl in *; [| done].
      destruct (IH acc1 acc' H) as (es & -> & Hes). simpl.
      exists (e :: es). simpl. by rewrite Hadd.
    + destruct (IH acc acc' H) as (es & -> & Hes). by exists es.
Qed.

Lemma master_precs_entries (BeautifulSoup : string → node) (precs : list node) :
  ∀ (acc acc' : master_acc) (w w' : world),
    master_precs BeautifulSoup acc precs w = (Ok acc', w') →
    ∃ es, entries_precs BeautifulSoup precs w = (Ok es, w') ∧
          master_add_all acc es = Ok acc'.
Proof.
  induction precs as [| prec rest IH]; intros acc acc' w w' H; simpl in *.
  - exists []. unfold_M. by simplify_eq.
  - unfold master_prec, entries_prec in *. unfold_M.
    destruct (href_prec_no prec) as [prec_no | err]; simpl in *; [| done].
    destruct (decide (Soup.get "alt" prec = Some "南極")).
    + destruct (IH acc acc' w w' H) as (es & -> & Hes). by exists es.
    + destruct (get_page_blocks prec_no w) as [[content | err] w1];
        simpl in *; [| done].
      destruct (master_blocks prec_no _ acc _) as [acc1 | err] eqn:Hb;
        simpl in *; [| done].
      destruct (master_blocks_entries _ _ _ _ _ Hb) as (es1 & -> & Hes1).
      destruct (IH acc1 acc' w1 w' H) as (es & -> & Hes). simpl.
      exists (es1 ++ es). split; [done |].
      rewrite master_add_all_app, Hes1. done.
Qed.

Lemma get_master_entries (BeautifulSoup : string → node) (w w' : world)
    (table : list station) :
  get_master BeautifulSoup w = (Ok table, w') →
  ∃ es acc, master_entries BeautifulSoup w = (Ok es, w') ∧
            master_add_all (mkacc ∅ []) es = Ok acc ∧ table = df_m acc.
Proof.
  unfold get_master, master_entries. unfold_M. intros H.
  destruct (get_page_precs w) as [[content | err] w1]; simpl in *; [| done].
  destruct (master_precs _ _ _ w1) as [[acc | err] w2] eqn:Hp;
    simpl in *; [| done].
  destruct (master_precs_entries _ _ _ _ _ _ Hp) as (es & Hes & Hadd).
  exists es, acc. by simplify_eq.
Qed.

Lemma st_key_entry_row (e : entry) (en : string) :
  st_key (entry_row e en) = e_key e.
Proof. reflexivity. Qed.

Lemma rows_with_key_app (k : string) (l l' : list station) :
  rows_with_key k (l ++ l') = rows_with_key k l ++ rows_with_key k l'.
Proof. apply List.filter_app. Qed.

Lemma master_add_other (k : string) (acc acc' : master_acc) (e : entry) :
  master_add acc e = Ok acc' → e_key e ≠ k →
  rows_with_key k (df_m acc') = rows_with_key k (df_m acc) ∧
  (k ∈ set_prec_block acc' ↔ k ∈ set_prec_block acc).
Proof.
  unfold master_add. intros H Hne.
  destruct (decide (e_key e ∉ prec_blocks_target)); [by simplify_eq |].
  destruct (decide (e_key e ∈ set_prec_block acc)); [by simplify_eq |].
  destruct (dict_block_name_en !! e_block_name e) as [en |]; simpl in *; [| done].
  simplify_eq. simpl. split.
  - rewrite rows_with_key_app. simpl. rewrite st_key_entry_row.
    rewrite bool_decide_eq_false_2 by done. by rewrite app_nil_r.
  - rewrite elem_of_union, elem_of_singleton.
    split; [intros [-> | ?]; done | by right].
Qed.

Lemma master_add_seen (k : string) (acc acc' : master_acc) (e : entry) :
  master_add acc e = Ok acc' → k ∈ set_prec_block acc →
  rows_with_key k (df_m acc') = rows_with_key k (df_m acc) ∧
  k ∈ set_prec_block acc'.
Proof.
  intros H Hin. destruct (decide (e_key e = k)) as [Hk | Hk].
  - unfold master_add in H. rewrite Hk in H.
    destruct (decide (k ∉ prec_blocks_target)); [by simplify_eq |].
    rewrite decide_True in H by done. by simplify_eq.
  - destruct (master_add_other k acc acc' e H Hk) as [? Hiff].
    split; [done | by apply Hiff].
Qed.

Lemma master_add_all_other (k : string) (es : list entry) :
  ∀ acc acc' : master_acc,
    master_add_all acc es = Ok acc' →
    (∀ e, e ∈ es → e_key e ≠ k) →
    rows_with_key k (df_m acc') = rows_with_key k (df_m acc) ∧
    (k ∈ set_prec_block acc' ↔ k ∈ set_prec_block acc).
Proof.
  induction es as [| e es IH]; intros acc acc' H Hall; simpl in *.
  - by simplify_eq.
  - destruct (master_add acc e) as [acc1 | err] eqn:Hadd; simpl in *; [| done].
    destruct (master_add_other k acc acc1 e Hadd) as [Hr Hs];
      [apply Hall; by left |].
    destruct (IH acc1 acc' H) as [Hr' Hs']; [intros; apply Hall; by right |].
    split; [congruence | by rewrite Hs'].
Qed.

Lemma master_add_all_seen (k : string) (es : list entry) :
  ∀ acc acc' : master_acc,
    master_add_all acc es = Ok acc' → k ∈ set_prec_block acc →
    rows_with_key k (df_m acc') = rows_with_key k (df_m acc).
Proof.
  induction es as [| e es IH]; intros acc acc' H Hin; simpl in *.
  - by simplify_eq.
  - destruct (master_add acc e) as [acc1 | err] eqn:Hadd; simpl in *; [| done].
    destruct (master_add_seen k acc acc1 e Hadd Hin) as [Hr Hin1].
    rewrite (IH acc1 acc' H Hin1). done.
Qed.

Lemma master_add_first (acc acc' : master_acc) (e : entry) :
  master_add acc e = Ok acc' →
  e_key e ∈ prec_blocks_target → e_key e ∉ set_prec_block acc →
  ∃ en, dict_block_name_en !! e_block_name e = Some en ∧
        df_m acc' = df_m acc ++ [entry_row e en] ∧
        e_key e ∈ set_prec_block acc'.
Proof.
  unfold master_add. intros H Ht Hs.
  rewrite decide_False in H by (intros Hn; by apply Hn).
  rewrite decide_False in H by done.
  destruct (dict_block_name_en !! e_block_name e) as [en |]; simpl in *; [| done].
  exists en. simplify_eq. simpl. repeat split; try done.
  by apply elem_of_union_l, elem_of_singleton.
Qed.

(** C7, amended: when [get_master] returns, take an entry of kind ['s'] whose
    composite key is on the allow-list and that is the first entry with
    that key in traversal order.  The master then has exactly one row with
    that key, and it is the row of that first entry; entries with the same
    key that come later add nothing. *)
Theorem get_master_first_wins (BeautifulSoup : string → node)
    (w w' w'' : world) (table : list station)
    (pre post : list entry) (e : entry) :
  get_master BeautifulSoup w = (Ok table, w') →
  master_entries BeautifulSoup w = (Ok (pre ++ e :: post), w'') →
  e_key e ∈ prec_blocks_target →
  (∀ e', e' ∈ pre → e_key e' ≠ e_key e) →
  ∃ en, dict_block_name_en !! e_block_name e = Some en ∧
        rows_with_key (e_key e) table = [entry_row e en].
Proof.
  intros Hm He Ht Hpre.
  destruct (get_master_entries _ _ _ _ Hm) as (es & acc & Hes & Hadd & ->).
  rewrite He in Hes. simplify_eq.
  rewrite master_add_all_app in Hadd.
  destruct (master_add_all _ pre) as [acc1 | err] eqn:H1; simpl in *; [| done].
  destruct (master_add acc1 e) as [acc2 | err] eqn:H2; simpl in *; [| done].
  destruct (master_add_all_other (e_key e) pre _ _ H1 Hpre) as [Hr1 Hs1].
  simpl in *.
  destruct (master_add_first acc1 acc2 e H2 Ht) as (en & Hen & Hdf & Hin).
  { rewrite Hs1. apply not_elem_of_empty. }
  exists en. split; [done |].
  rewrite (master_add_all_seen (e_key e) post acc2 acc Hadd Hin), Hdf.
  rewrite rows_with_key_app, Hr1. simpl.
  by rewrite st_key_entry_row, bool_decide_eq_true_2.
Qed.

(** C7, as stated, fails: two entries of kind ['s'] with the same composite
    key that is not on the allow-list leave the master without any row for
    that key. *)
Lemma get_master_unlisted_duplicates :
  let P := two_pages tokyo_precs (page [oshima; oshima]) in
  ∃ e1 e2,
    master_entries P hierarchy_world = (Ok [e1; e2], hierarchy_world) ∧
    e_key e1 = "東京都::大島" ∧ e_key e2 = "東京都::大島" ∧
    get_master P hierarchy_world = (Ok [], hierarchy_world).
Proof.
  eexists _, _. split; [vm_compute; reflexivity |].
  split; [reflexivity |]. split; [reflexivity |]. vm_compute. reflexivity.
Qed.

(** Tokyo listed twice on the block-list page, after Oshima. *)
Lemma get_master_first_wins_witness :
  let P := two_pages tokyo_precs (page [oshima; tokyo; nerima; tokyo]) in
  get_master P hierarchy_world
  = (Ok [entry_row tokyo_entry "tokyo"], hierarchy_world) ∧
  master_entries P hierarchy_world
  = (Ok ([oshima_entry] ++ tokyo_entry :: [tokyo_entry]), hierarchy_world) ∧
  ∃ en, dict_block_name_en !! e_block_name tokyo_entry = Some en ∧
        rows_with_key (e_key tokyo_entry) [entry_row tokyo_entry "tokyo"]
        = [entry_row tokyo_entry en].
Proof.
  intros P.
  assert (get_master P hierarchy_world
          = (Ok [entry_row tokyo_entry "tokyo"], hierarchy_world)) as Hm
    by (vm_compute; reflexivity).
  assert (master_entries P hierarchy_world
          = (Ok ([oshima_entry] ++ tokyo_entry :: [tokyo_entry]),
             hierarchy_world)) as He
    by (vm_compute; reflexivity).
  split; [exact Hm |]. split; [exact He |].
  apply (get_master_first_wins P hierarchy_world hierarchy_world
           hierarchy_world [entry_row tokyo_entry "tokyo"]
           [oshima_entry] [tokyo_entry] tokyo_entry Hm He).
  - apply (bool_decide_eq_true_1 _). vm_compute. reflexivity.
  - intros e' He'. apply list_elem_of_singleton in He' as ->.
    vm_compute. discriminate.
Defined.

(** ** The day page: [get_df_block_date] *)

Lemma flat_map_filter {A B : Type} (f : A → bool) (g : A → B) (l : list A) :
  flat_map (λ x, if f x then [g x] else []) l = map g (List.filter f l).
Proof.
  induction l as [| x l IH]; [done |]. simpl.
  destruct (f x); simpl; by rewrite IH.
Qed.

Lemma row_data_spec (prec_no block_no year month day : Z) (row : node) :
  row_data prec_no block_no year month day row
  = if bool_decide (length (Soup.find_all "td" row) = 17%nat)
    then [obs_of_row prec_no block_no year month day row] else [].
Proof.
  unfold row_data, obs_of_row, row_icon, cell_text.
  destruct (Soup.find_all "td" row) as [| c0 l]; [done |].
  do 16 (destruct l as [| ? l]; [done |]).
  destruct l; done.
Qed.

Lemma table_data_spec (prec_no block_no year month day : Z) (table : node) :
  table_data prec_no block_no year month day table
  = if bool_decide (length (Soup.find_all "tr" table) = 26%nat)
    then map (obs_of_row prec_no block_no year month day) (data_rows_of table)
    else [].
Proof.
  unfold table_data, data_rows_of.
  destruct (decide (length (Soup.find_all "tr" table) ≠ 26%nat)) as [H | H].
  - by rewrite bool_decide_eq_false_2.
  - rewrite bool_decide_eq_true_2 by (by destruct (decide (length (Soup.find_all "tr" table) = 26%nat))).
    rewrite <- flat_map_filter. apply flat_map_ext. intros r.
    apply row_data_spec.
Qed.

Lemma soup_data_spec (prec_no block_no year month day : Z) (soup : node) :
  soup_data prec_no block_no year month day soup
  = map (obs_of_row prec_no block_no year month day) (qualifying_rows soup).
Proof.
  unfold soup_data, qualifying_rows, candidate_tables.
  induction (Soup.find_all "table" soup) as [| t l IH]; [done |].
  simpl. rewrite IH, table_data_spec.
  destruct (bool_decide _); simpl; [by rewrite map_app | done].
Qed.

Lemma get_df_block_date_spec (BeautifulSoup : string → node)
    (prec_no block_no year month day : Z) (w w' : world) (content : string) :
  get_page_block_date prec_no block_no year month day w = (Ok content, w') →
  get_df_block_date BeautifulSoup prec_no block_no year month day w
  = (Ok (map (obs_of_row prec_no block_no year month day)
           (qualifying_rows (BeautifulSoup content))), w').
Proof.
  intros H. unfold get_df_block_date, mbind, M_bind. rewrite H. simpl.
  unfold mret, M_ret. by rewrite soup_data_spec.
Qed.

Lemma obs_key_of_row (p b y m d : Z) (row : node) :
  obs_key (obs_of_row p b y m d row)
  = (p, b, str_of_int y +:+ fmt02 m +:+ fmt02 d, cell_text row 0).
Proof. reflexivity. Qed.

(** C2, as stated, fails: on a table whose hourly rows all read hour 1 the
    parser returns 24 rows with one and the same key. *)
Lemma get_df_block_date_repeats_hour :
  ∃ data o,
    get_df_block_date (λ _, page [day_table (λ _, plain_row 1)])
      44 47662 2024 1 1 cached_world = (Ok data, cached_world) ∧
    data !! 0%nat = Some o ∧ data !! 1%nat = Some o ∧
    ¬ NoDup (map obs_key data).
Proof.
  eexists _, _. split; [vm_compute; reflexivity |].
  split; [reflexivity |]. split; [reflexivity |].
  intros H. apply NoDup_cons in H as [H _]. apply H. by left.
Qed.

(** C2, amended: the parser returns one row per row of 17 cells of the
    tables of 26 rows, in document order, its hour being the text of the
    first cell; it removes no duplicates, so the keys (region, station,
    date, hour) of the rows are pairwise distinct exactly when those
    first-cell texts are. *)
Theorem get_df_block_date_hours (BeautifulSoup : string → node)
    (prec_no block_no year month day : Z) (w w' : world) (content : string) :
  get_page_block_date prec_no block_no year month day w = (Ok content, w') →
  let date := str_of_int year +:+ fmt02 month +:+ fmt02 day in
  let hours :=
    map (λ r, cell_text r 0) (qualifying_rows (BeautifulSoup content)) in
  ∃ data,
    get_df_block_date BeautifulSoup prec_no block_no year month day w
    = (Ok data, w') ∧
    map obs_key data = map (λ h, (prec_no, block_no, date, h)) hours ∧
    (NoDup (map obs_key data) ↔ NoDup hours).
Proof.
  intros H date hours. eexists. split; [by apply get_df_block_date_spec |].
  assert (map obs_key
            (map (obs_of_row prec_no block_no year month day)
               (qualifying_rows (BeautifulSoup content)))
          = map (λ h, (prec_no, block_no, date, h)) hours) as ->.
  { unfold hours. rewrite !map_map. apply map_ext. intros r.
    apply obs_key_of_row. }
  split; [done |].
  apply (NoDup_fmap (λ h, (prec_no, block_no, date, h))).
Qed.

(** A day page with the hours 1 to 24. *)
Lemma get_df_block_date_hours_witness :
  let date := str_of_int 2024 +:+ fmt02 1 +:+ fmt02 1 in
  let hours :=
    map (λ r, cell_text r 0) (qualifying_rows (page [day_table plain_row])) in
  ∃ data,
    get_df_block_date (λ _, page [day_table plain_row])
      44 47662 2024 1 1 cached_world = (Ok data, cached_world) ∧
    map obs_key data = map (λ h, (44, 47662, date, h)) hours ∧
    (NoDup (map obs_key data) ↔ NoDup hours).
Proof.
  apply (get_df_block_date_hours (λ _, page [day_table plain_row])
           44 47662 2024 1 1 cached_world cached_world "<html>").
  vm_compute. reflexivity.
Defined.

Lemma length_append (s t : string) :
  String.length (s +:+ t) = (String.length s + String.length t)%nat.
Proof. induction s as [| c s IH]; [done |]. simpl. by rewrite IH. Qed.

Lemma date_text_length (year month day : Z) :
  1000 <= year <= 9999 → 1 <= month <= 12 → 1 <= day <= 31 →
  String.length (str_of_int year +:+ fmt02 month +:+ fmt02 day) = 8%nat.
Proof.
  intros Hy Hm Hd.
  assert (forallb (λ y, (String.length (str_of_int y) =? 4)%nat)
            (seqZ 1000 9000) = true) as Hys by (vm_compute; reflexivity).
  assert (forallb (λ n, (String.length (fmt02 n) =? 2)%nat) (seqZ 1 31) = true)
    as Hns by (vm_compute; reflexivity).
  rewrite forallb_forall in Hys, Hns.
  assert (String.length (str_of_int year) = 4%nat) as H4.
  { apply Nat.eqb_eq, Hys, list_elem_of_In, elem_of_seqZ. lia. }
  assert (String.length (fmt02 month) = 2%nat) as H2.
  { apply Nat.eqb_eq, Hns, list_elem_of_In, elem_of_seqZ. lia. }
  assert (String.length (fmt02 day) = 2%nat) as H2'.
  { apply Nat.eqb_eq, Hns, list_elem_of_In, elem_of_seqZ. lia. }
  rewrite !length_append, H4, H2, H2'. done.
Qed.

(** C8, as stated, fails: a page that holds the hourly table twice holds a
    table of 26 rows with 24 rows of 17 cells, and gives 48 observations. *)
Lemma get_df_block_date_two_tables :
  let soup := page [day_table plain_row; day_table plain_row] in
  ∃ table data,
    table ∈ Soup.find_all "table" soup ∧
    length (Soup.find_all "tr" table) = 26%nat ∧
    length (data_rows_of table) = 24%nat ∧
    get_df_block_date (λ _, soup) 44 47662 2024 1 1 cached_world
    = (Ok data, cached_world) ∧
    length data = 48%nat.
Proof.
  exists (day_table plain_row). eexists.
  split; [by left |]. split; [reflexivity |]. split; [reflexivity |].
  split; [vm_compute; reflexivity | reflexivity].
Qed.

(** C8, amended: when exactly one table of the page has 26 rows and 24 of
    its rows have 17 cells, the parser returns 24 observations, the [i]-th
    from the [i]-th such row: region and station as queried, the date as
    the year followed by month and day on two digits, and hour,
    precipitation, temperature, humidity, wind speed, snowfall and snow
    depth the texts of the cells 0, 3, 4, 7, 8, 12 and 13.  The date has
    eight digits for a year of four digits, a month in 1..12 and a day in
    1..31. *)
Theorem get_df_block_date_24 (BeautifulSoup : string → node)
    (prec_no block_no year month day : Z) (w w' : world) (content : string)
    (table : node) :
  get_page_block_date prec_no block_no year month day w = (Ok content, w') →
  candidate_tables (BeautifulSoup content) = [table] →
  length (data_rows_of table) = 24%nat →
  ∃ data,
    get_df_block_date BeautifulSoup prec_no block_no year month day w
    = (Ok data, w') ∧
    length data = 24%nat ∧
    (∀ (i : nat) (row : node),
       data_rows_of table !! i = Some row →
       ∃ o, data !! i = Some o ∧
            obs_prec_no o = prec_no ∧
            obs_block_no o = block_no ∧
            obs_date o = str_of_int year +:+ fmt02 month +:+ fmt02 day ∧
            obs_hour o = cell_text row 0 ∧
            obs_precip o = cell_text row 3 ∧
            obs_temp o = cell_text row 4 ∧
            obs_humid o = cell_text row 7 ∧
            obs_wind o = cell_text row 8 ∧
            obs_snowfall o = cell_text row 12 ∧
            obs_snow o = cell_text row 13) ∧
    (1000 <= year <= 9999 → 1 <= month <= 12 → 1 <= day <= 31 →
     String.length (str_of_int year +:+ fmt02 month +:+ fmt02 day) = 8%nat).
Proof.
  intros Hpage Htables Hrows. eexists.
  split; [by apply get_df_block_date_spec |].
  unfold qualifying_rows. rewrite Htables. simpl. rewrite app_nil_r.
  split; [by rewrite length_map |].
  split; [| apply date_text_length].
  intros i row Hi.
  exists (obs_of_row prec_no block_no year month day row).
  split; [| done].
  change (map ?f ?l) with (f <$> l). by rewrite list_lookup_fmap, Hi.
Qed.

(** The day page of 2024-01-01 with one hourly table. *)
Lemma get_df_block_date_24_witness :
  ∃ data,
    get_df_block_date (λ _, page [day_table plain_row])
      44 47662 2024 1 1 cached_world = (Ok data, cached_world) ∧
    length data = 24%nat ∧
    (∀ (i : nat) (row : node),
       data_rows_of (day_table plain_row) !! i = Some row →
       ∃ o, data !! i = Some o ∧
            obs_prec_no o = 44 ∧
            obs_block_no o = 47662 ∧
            obs_date o = str_of_int 2024 +:+ fmt02 1 +:+ fmt02 1 ∧
            obs_hour o = cell_text row 0 ∧
            obs_precip o = cell_text row 3 ∧
            obs_temp o = cell_text row 4 ∧
            obs_humid o = cell_text row 7 ∧
            obs_wind o = cell_text row 8 ∧
            obs_snowfall o = cell_text row 12 ∧
            obs_snow o = cell_text row 13) ∧
    (1000 <= 2024 <= 9999 → 1 <= 1 <= 12 → 1 <= 1 <= 31 →
     String.length (str_of_int 2024 +:+ fmt02 1 +:+ fmt02 1) = 8%nat).
Proof.
  apply (get_df_block_date_24 (λ _, page [day_table plain_row])
           44 47662 2024 1 1 cached_world cached_world "<html>"
           (day_table plain_row)); vm_compute; reflexivity.
Defined.

(** C10, as stated, fails: an icon is present and its [alt] is the empty
    text; the label is the empty text although there is an icon. *)
Lemma row_data_empty_alt :
  ∃ c14 img o,
    Soup.find_all "td" (hour_row "1" [icon (Some "")]) !! 14%nat = Some c14 ∧
    Soup.find "img" c14 = Some img ∧
    row_data 44 47662 2024 1 1 (hour_row "1" [icon (Some "")]) = [o] ∧
    obs_weather o = Some "".
Proof. eexists _, _, _. repeat split; reflexivity. Qed.

(** C10, amended: for a row of 17 cells of a table of 26 rows, when the first
    [img] below the cell of index 14 has no [alt] attribute the label of
    the observation is [None]; the label is the empty text exactly when that
    cell holds no [img] at all or the [alt] of its first [img] is itself
    the empty text. *)
Theorem get_df_block_date_weather (BeautifulSoup : string → node)
    (prec_no block_no year month day : Z) (w w' : world) (content : string)
    (row : node) :
  get_page_block_date prec_no block_no year month day w = (Ok content, w') →
  row ∈ qualifying_rows (BeautifulSoup content) →
  ∃ data o c14,
    get_df_block_date BeautifulSoup prec_no block_no year month day w
    = (Ok data, w') ∧
    o ∈ data ∧
    row_data prec_no block_no year month day row = [o] ∧
    Soup.find_all "td" row !! 14%nat = Some c14 ∧
    (∀ img, Soup.find "img" c14 = Some img → Soup.get "alt" img = None →
            obs_weather o = None) ∧
    (obs_weather o = Some "" ↔
     Soup.find "img" c14 = None ∨
     ∃ img, Soup.find "img" c14 = Some img ∧ Soup.get "alt" img = Some "").
Proof.
  intros Hpage Hrow.
  assert (length (Soup.find_all "td" row) = 17%nat) as Hlen.
  { unfold qualifying_rows in Hrow. apply list_elem_of_In, in_flat_map in Hrow.
    destruct Hrow as (t & _ & Hin). unfold data_rows_of in Hin.
    apply filter_In in Hin as [_ Hin]. by apply bool_decide_eq_true in Hin. }
  destruct (lookup_lt_is_Some_2 (Soup.find_all "td" row) 14) as [c14 Hc14];
    [lia |].
  exists (map (obs_of_row prec_no block_no year month day)
            (qualifying_rows (BeautifulSoup content))),
    (obs_of_row prec_no block_no year month day row), c14.
  split; [by apply get_df_block_date_spec |].
  split; [by apply (list_elem_of_fmap_2 (obs_of_row _ _ _ _ _)) |].
  split; [by rewrite row_data_spec, bool_decide_eq_true_2 |].
  split; [done |].
  simpl. unfold row_icon. rewrite Hc14. simpl.
  destruct (Soup.find "img" c14) as [img |]; split.
  - by intros ? [= <-] ->.
  - split; [intros H; right; by exists img | by intros [? | (? & [= <-] & ?)]].
  - done.
  - split; [by left | done].
Qed.

(** A day page whose icons have no [alt]. *)
Lemma get_df_block_date_weather_witness :
  let soup := page [day_table (λ h, hour_row (pretty h) [icon None])] in
  ∃ data o c14,
    get_df_block_date (λ _, soup) 44 47662 2024 1 1 cached_world
    = (Ok data, cached_world) ∧
    o ∈ data ∧
    row_data 44 47662 2024 1 1 (hour_row "1" [icon None]) = [o] ∧
    Soup.find_all "td" (hour_row "1" [icon None]) !! 14%nat = Some c14 ∧
    (∀ img, Soup.find "img" c14 = Some img → Soup.get "alt" img = None →
            obs_weather o = None) ∧
    (obs_weather o = Some "" ↔
     Soup.find "img" c14 = None ∨
     ∃ img, Soup.find "img" c14 = Some img ∧ Soup.get "alt" img = Some "").
Proof.
  apply (get_df_block_date_weather
           (λ _, page [day_table (λ h, hour_row (pretty h) [icon None])])
           44 47662 2024 1 1 cached_world cached_world "<html>"
           (hour_row "1" [icon None])).
  - vm_compute. reflexivity.
  - vm_compute. left.
Defined.

(** ** The validator *)

Lemma py_float_raises (s : string) (e : exn) :
  Num.py_float s = Raise e → e = ValueError.
Proof.
  unfold Num.py_float. intros H.
  repeat match type of H with
         | (let '(_, _) := ?x in _) = _ => destruct x
         | match ?x with _ => _ end = _ => destruct x
         end; congruence.
Qed.

(** C9: [to_numeric_safe] returns a float on every cell, a text, a float or
    [None], and never raises; the texts ["--"] and the empty text give
    NaN, and ["12.3"] gives 12.3. *)
Theorem to_numeric_safe_total :
  (∀ value : pyval, ∃ f, to_numeric_safe value = Ok f) ∧
  to_numeric_safe (VStr "--") = Ok FNan ∧
  to_numeric_safe (VStr "") = Ok FNan ∧
  to_numeric_safe (VStr "12.3") = Ok (FFin (Qmake 123 10)).
Proof.
  split; [| repeat split; vm_compute; reflexivity].
  intros [s | f |]; unfold to_numeric_safe, try_except; simpl.
  - destruct (Num.py_float s) as [f | e] eqn:H; [by eexists |].
    apply py_float_raises in H as ->. by eexists.
  - by eexists.
  - by eexists.
Qed.


(** C1: on a frame in which Osaka misses one temperature, the table
    [validate_column] exports has a column for Osaka all the same, while the
    name of the file counts the one station without missing values. *)
Theorem validate_column_exports_missing_station :
  is_numeric (VStr "×") = Ok false ∧
  ∃ t, validate_column sample_weather sample_master Temp true
       = Ok (Some ("out/weather_japan_2025-09-01_2025-09-01_1_blocks.csv", t)) ∧
       columns t = ["timestamp"; "temp_osaka"; "temp_tokyo"].
Proof.
  split; [vm_compute; reflexivity |].
  eexists. split; [vm_compute; reflexivity | reflexivity].
Qed.

(** * Further properties *)

(** ** Texts: splitting and digits *)

Lemma append_cons (x : ascii) (a b : string) :
  String x a +:+ b = String x (a +:+ b).
Proof. reflexivity. Qed.

Lemma append_assoc (a b c : string) : (a +:+ b) +:+ c = a +:+ (b +:+ c).
Proof.
  induction a as [| x a IH]; [done |]. rewrite !append_cons. by f_equal.
Qed.

Lemma append_nil_r (a : string) : a +:+ EmptyString = a.
Proof.
  induction a as [| x a IH]; [done |]. rewrite append_cons. by f_equal.
Qed.

Lemma append_inv_l (a x y : string) : a +:+ x = a +:+ y → x = y.
Proof.
  induction a as [| c a IH]; [done |]. rewrite !append_cons.
  intros [= H]. auto.
Qed.

Lemma has_char_append (c : ascii) (a b : string) :
  has_char c (a +:+ b) = has_char c a || has_char c b.
Proof.
  induction a as [| x a IH]; [done |]. rewrite append_cons. simpl.
  rewrite <- orb_assoc. by f_equal.
Qed.

Lemma prefix_single (c x : ascii) (r : string) :
  String.prefix (String c EmptyString) (String x r) = bool_decide (x = c).
Proof.
  simpl. destruct (ascii_dec c x) as [-> | Hne].
  - rewrite bool_decide_eq_true_2 by done. by destruct r.
  - rewrite bool_decide_eq_false_2; [done | by intros ->].
Qed.

(** A text without the separator is one field. *)
Lemma split_aux_field (c : ascii) (a cur : string) :
  has_char c a = false →
  Str.split_aux (String c EmptyString) 0 cur a = [cur +:+ a].
Proof.
  revert cur. induction a as [| x a IH]; intros cur H.
  - simpl. by rewrite append_nil_r.
  - simpl in H. apply orb_false_iff in H as [Hx Ha].
    cbn [Str.split_aux]. rewrite prefix_single, Hx.
    rewrite IH by done. by rewrite append_assoc.
Qed.

(** The first separator ends the first field. *)
Lemma split_aux_sep (c : ascii) (a cur r : string) :
  has_char c a = false →
  Str.split_aux (String c EmptyString) 0 cur (a +:+ String c r)
  = (cur +:+ a) :: Str.split_aux (String c EmptyString) 0 EmptyString r.
Proof.
  revert cur. induction a as [| x a IH]; intros cur H.
  - change (EmptyString +:+ String c r) with (String c r).
    cbn [Str.split_aux]. rewrite prefix_single.
    rewrite bool_decide_eq_true_2 by done. simpl. by rewrite append_nil_r.
  - simpl in H. apply orb_false_iff in H as [Hx Ha].
    rewrite append_cons. cbn [Str.split_aux]. rewrite prefix_single, Hx.
    rewrite IH by done. by rewrite append_assoc.
Qed.

Lemma split_three (c : ascii) (a b d : string) :
  has_char c a = false → has_char c b = false → has_char c d = false →
  Str.split (String c EmptyString) (a +:+ String c (b +:+ String c d))
  = [a; b; d].
Proof.
  intros Ha Hb Hd. unfold Str.split.
  rewrite split_aux_sep, split_aux_sep, split_aux_field by done. done.
Qed.

(** Two texts that agree up to a separator neither field holds. *)
Lemma append_sep_inj (c : ascii) (a a' r r' : string) :
  has_char c a = false → has_char c a' = false →
  a +:+ String c r = a' +:+ String c r' → a = a' ∧ r = r'.
Proof.
  revert a'. induction a as [| x a IH]; intros [| x' a'] Ha Ha' H;
    simpl in *.
  - by simplify_eq.
  - injection H as <- _. apply orb_false_iff in Ha' as [Hx _].
    by rewrite bool_decide_eq_true_2 in Hx.
  - injection H as -> _. apply orb_false_iff in Ha as [Hx _].
    by rewrite bool_decide_eq_true_2 in Hx.
  - injection H as -> H.
    apply orb_false_iff in Ha as [_ Ha]. apply orb_false_iff in Ha' as [_ Ha'].
    destruct (IH a' Ha Ha' H) as [-> ->]. done.
Qed.

Lemma all_digits_has_char (c : ascii) (s : string) :
  Str.is_digit c = false → Str.all_digits s = true → has_char c s = false.
Proof.
  intros Hc. induction s as [| x s IH]; [done |]. simpl.
  intros H. apply andb_prop in H as [Hx Hs]. rewrite IH by done.
  rewrite orb_false_r. apply bool_decide_eq_false. by intros ->; congruence.
Qed.

Lemma pretty_N_char_digit (x : N) : Str.is_digit (pretty_N_char x) = true.
Proof. unfold pretty_N_char. by repeat case_match. Qed.

Lemma pretty_N_go_digits (x : N) (s : string) :
  Str.all_digits s = true → Str.all_digits (pretty_N_go x s) = true.
Proof.
  revert s. induction (N.lt_wf_0 x) as [x _ IH]; intros s Hs.
  assert (x = 0 ∨ 0 < x)%N as [-> | Hx] by lia.
  - by rewrite pretty_N_go_0.
  - rewrite pretty_N_go_step by done. apply IH.
    + by apply N.div_lt.
    + simpl. by rewrite pretty_N_char_digit.
Qed.

(** The decimal text of a number that is not negative holds digits only. *)
Lemma str_of_int_digits (n : Z) :
  0 <= n → Str.all_digits (str_of_int n) = true.
Proof.
  intros Hn. unfold str_of_int, pretty, pretty_Z.
  destruct n as [| p | p]; [done | | lia].
  unfold pretty, pretty_positive, pretty, pretty_N.
  case_decide; [done |]. by apply pretty_N_go_digits.
Qed.

Lemma all_digits_append (a b : string) :
  Str.all_digits (a +:+ b) = Str.all_digits a && Str.all_digits b.
Proof.
  induction a as [| x a IH]; [done |]. rewrite append_cons. simpl.
  rewrite <- andb_assoc. by f_equal.
Qed.

Lemma fmt02_digits (n : Z) : 0 <= n → Str.all_digits (fmt02 n) = true.
Proof.
  intros Hn. unfold fmt02.
  pose proof (str_of_int_digits n Hn) as H. unfold str_of_int in H.
  destruct (_ && _); [| done]. simpl. done.
Qed.

Lemma digit_val_digit_char (n : Z) :
  0 <= n <= 9 → Str.digit_val (Str.digit_char n) = n.
Proof.
  intros H. unfold Str.digit_val, Str.digit_char.
  rewrite nat_ascii_embedding by lia. lia.
Qed.

Lemma is_digit_digit_char (n : Z) :
  0 <= n <= 9 → Str.is_digit (Str.digit_char n) = true.
Proof.
  intros H. unfold Str.is_digit, Str.digit_char. cbv zeta.
  rewrite nat_ascii_embedding by lia.
  apply andb_true_iff. rewrite !Nat.leb_le. lia.
Qed.

Lemma pretty_N_char_digit_char (x : N) :
  (x < 10)%N → pretty_N_char x = Str.digit_char (Z.of_N x).
Proof.
  intros H.
  assert (x = 0 ∨ x = 1 ∨ x = 2 ∨ x = 3 ∨ x = 4 ∨ x = 5 ∨ x = 6 ∨ x = 7 ∨
          x = 8 ∨ x = 9)%N as Hc by lia.
  repeat (destruct Hc as [-> | Hc]; [reflexivity |]). by subst.
Qed.

(** For the years, months and days of the calendar the decimal texts are
    the padded ones of [strftime]. *)
Lemma str_of_int_pad4 (y : Z) : 1000 <= y <= 9999 → str_of_int y = Str.pad4 y.
Proof.
  intros Hy. destruct y as [| p | p]; [lia | | lia].
  unfold str_of_int, pretty, pretty_Z, pretty, pretty_positive, pretty,
    pretty_N.
  rewrite decide_False by done.
  set (x := N.pos p). assert (Z.of_N x = Z.pos p) as Hx by done.
  assert (∀ a : N, Z.of_N (a / 10) = Z.of_N a / 10) as Hdiv
    by (intros a; apply N2Z.inj_div).
  assert (∀ a : N, Z.of_N (a mod 10) = Z.of_N a mod 10) as Hmod
    by (intros a; apply N2Z.inj_mod).
  assert (∀ a : N, 0 < Z.of_N a → (0 < a)%N) as Hpos by (intros a; lia).
  rewrite (pretty_N_go_step x) by (apply Hpos; lia).
  rewrite (pretty_N_go_step (x / 10))
    by (apply Hpos; rewrite !Hdiv, Hx; Z.div_mod_to_equations; lia).
  rewrite (pretty_N_go_step (x / 10 / 10))
    by (apply Hpos; rewrite !Hdiv, Hx; Z.div_mod_to_equations; lia).
  rewrite (pretty_N_go_step (x / 10 / 10 / 10))
    by (apply Hpos; rewrite !Hdiv, Hx; Z.div_mod_to_equations; lia).
  replace (x / 10 / 10 / 10 / 10)%N with 0%N
    by (apply N2Z.inj; rewrite !Hdiv, Hx; Z.div_mod_to_equations; lia).
  rewrite pretty_N_go_0.
  rewrite !pretty_N_char_digit_char by (by apply N.mod_lt).
  rewrite !Hmod, !Hdiv, Hx. unfold Str.pad4.
  replace (Z.pos p / 10 / 10 / 10 mod 10) with (Z.pos p / 1000)
    by (Z.div_mod_to_equations; lia).
  replace (Z.pos p / 10 / 10 mod 10) with (Z.pos p / 100 mod 10)
    by (Z.div_mod_to_equations; lia).
  reflexivity.
Qed.

Lemma fmt02_pad2 (n : Z) : 0 <= n <= 99 → fmt02 n = Str.pad2 n.
Proof.
  intros Hn.
  assert (forallb (λ n, bool_decide (fmt02 n = Str.pad2 n)) (seqZ 0 100) = true)
    as H by (vm_compute; reflexivity).
  rewrite forallb_forall in H.
  apply (bool_decide_eq_true_1 _), H, list_elem_of_In, elem_of_seqZ. lia.
Qed.

Lemma is_digit_not_space (c : ascii) :
  Str.is_digit c = true → Num.is_space c = false.
Proof.
  unfold Str.is_digit, Num.is_space. cbv zeta.
  rewrite andb_true_iff, !Nat.leb_le. intros [H1 H2].
  apply orb_false_iff. split; apply andb_false_iff; rewrite !Nat.leb_gt; lia.
Qed.

Lemma lstrip_digits (s : string) :
  Str.all_digits s = true → Num.lstrip s = s.
Proof.
  destruct s as [| c r]; [done |]. cbn [Str.all_digits Num.lstrip].
  intros H. apply andb_true_iff in H as [Hc _].
  by rewrite is_digit_not_space.
Qed.

Lemma rev_app_rev_app (a : string) :
  ∀ b, String.rev_app (String.rev_app a b) EmptyString = String.rev_app b a.
Proof.
  induction a as [| x a IH]; intros b; [done |].
  cbn [String.rev_app]. by rewrite IH.
Qed.

Lemma rev_rev (s : string) : String.rev (String.rev s) = s.
Proof. unfold String.rev. by rewrite rev_app_rev_app. Qed.

Lemma all_digits_rev_app (a : string) :
  ∀ b, Str.all_digits (String.rev_app a b)
       = Str.all_digits a && Str.all_digits b.
Proof.
  induction a as [| x a IH]; intros b; [done |].
  cbn [String.rev_app Str.all_digits]. rewrite IH. cbn [Str.all_digits].
  by destruct (Str.is_digit x), (Str.all_digits a).
Qed.

Lemma all_digits_rev (s : string) :
  Str.all_digits s = true → Str.all_digits (String.rev s) = true.
Proof.
  intros H. unfold String.rev. by rewrite all_digits_rev_app, H.
Qed.

Lemma strip_digits (s : string) : Str.all_digits s = true → Num.strip s = s.
Proof.
  intros H. unfold Num.strip.
  by rewrite (lstrip_digits s), (lstrip_digits (String.rev s)), rev_rev
    by auto using all_digits_rev.
Qed.

Lemma scan_sign_digits (s : string) :
  Str.all_digits s = true → Num.scan_sign s = (false, s).
Proof.
  destruct s as [| c r]; [done |]. cbn [Str.all_digits].
  intros H. apply andb_true_iff in H as [Hc _].
  destruct c as [[] [] [] [] [] [] [] []]; try done.
Qed.

Lemma scan_digits_digits (s : string) :
  ∀ (acc : Z) (n : nat),
    Str.all_digits s = true →
    Num.scan_digits acc n s
    = (Str.digits_val acc s, (n + String.length s)%nat, EmptyString).
Proof.
  induction s as [| c s IH]; intros acc n H.
  - simpl. by rewrite Nat.add_0_r.
  - cbn [Str.all_digits] in H. apply andb_true_iff in H as [Hc Hs].
    cbn [Num.scan_digits Str.digits_val String.length]. rewrite Hc.
    rewrite IH by done. do 2 f_equal. lia.
Qed.

(** [int] on a text of digits. *)
Lemma py_int_digits (s : string) :
  Str.all_digits s = true → s ≠ EmptyString →
  Num.py_int s = Ok (Str.digits_val 0 s).
Proof.
  intros H Hne. unfold Num.py_int.
  rewrite strip_digits, scan_sign_digits, scan_digits_digits by done.
  destruct s; done.
Qed.

Lemma pad4_facts (y : Z) :
  0 <= y <= 9999 →
  Str.all_digits (Str.pad4 y) = true ∧ Num.py_int (Str.pad4 y) = Ok y ∧
  Str.digits_val 0 (Str.pad4 y) = y.
Proof.
  intros Hy.
  assert (Str.all_digits (Str.pad4 y) = true) as Hd.
  { unfold Str.pad4. cbn [Str.all_digits].
    rewrite !is_digit_digit_char by (Z.div_mod_to_equations; lia). done. }
  assert (Str.digits_val 0 (Str.pad4 y) = y) as Hv.
  { unfold Str.pad4. cbn [Str.digits_val].
    rewrite !digit_val_digit_char by (Z.div_mod_to_equations; lia).
    Z.div_mod_to_equations; lia. }
  split; [done |]. split; [| done].
  rewrite py_int_digits by done. by rewrite Hv.
Qed.

Lemma pad2_facts (n : Z) :
  0 <= n <= 99 →
  Str.all_digits (Str.pad2 n) = true ∧ Num.py_int (Str.pad2 n) = Ok n ∧
  Str.digits_val 0 (Str.pad2 n) = n.
Proof.
  intros Hn.
  assert (Str.all_digits (Str.pad2 n) = true) as Hd.
  { unfold Str.pad2. cbn [Str.all_digits].
    rewrite !is_digit_digit_char by (Z.div_mod_to_equations; lia). done. }
  assert (Str.digits_val 0 (Str.pad2 n) = n) as Hv.
  { unfold Str.pad2. cbn [Str.digits_val].
    rewrite !digit_val_digit_char by (Z.div_mod_to_equations; lia).
    Z.div_mod_to_equations; lia. }
  split; [done |]. split; [| done].
  rewrite py_int_digits by done. by rewrite Hv.
Qed.

(** ** Cache file names *)

Lemma get_page_block_date_unfold (prec_no block_no year month day : Z) :
  get_page_block_date prec_no block_no year month day
  = get_page (block_date_url prec_no block_no year month day)
      (block_date_filename prec_no block_no year month day).
Proof. reflexivity. Qed.

Lemma no_char_digits (c : ascii) (n : Z) :
  Str.is_digit c = false → 0 <= n → has_char c (str_of_int n) = false.
Proof. intros Hc Hn. by apply all_digits_has_char, str_of_int_digits. Qed.

Lemma no_char_fmt02 (c : ascii) (n : Z) :
  Str.is_digit c = false → 0 <= n → has_char c (fmt02 n) = false.
Proof. intros Hc Hn. by apply all_digits_has_char, fmt02_digits. Qed.

Lemma block_date_filename_parts (p b y m d : Z) :
  block_date_filename p b y m d
  = str_of_int p +:+ String "_" (str_of_int b +:+ String "_" (date_part y m d)).
Proof. reflexivity. Qed.

Lemma date_part_no_underscore (y m d : Z) :
  0 <= y → 0 <= m → 0 <= d → has_char "_" (date_part y m d) = false.
Proof.
  intros Hy Hm Hd. unfold date_part.
  rewrite !has_char_append, !no_char_digits, !no_char_fmt02 by done. done.
Qed.

Lemma split_block_date_filename (p b y m d : Z) :
  0 <= p → 0 <= b → 0 <= y → 0 <= m → 0 <= d →
  Str.split "_" (block_date_filename p b y m d)
  = [str_of_int p; str_of_int b; date_part y m d].
Proof.
  intros. rewrite block_date_filename_parts.
  apply split_three; auto using no_char_digits, date_part_no_underscore.
Qed.

Lemma date_part_calendar (d : date) :
  valid_date d = true → 1000 <= year d →
  date_part (year d) (month d) (day d) = strftime d +:+ ".txt".
Proof.
  rewrite valid_date_spec. intros (Hy & Hm & Hd) Hy'.
  pose proof (days_in_month_pos (year d) (month d)).
  unfold date_part, strftime.
  rewrite str_of_int_pad4, !fmt02_pad2 by lia.
  by rewrite !append_assoc.
Qed.

Lemma prefix_take (p s : string) :
  String.prefix p s = true ↔ Str.take (String.length p) s = p.
Proof.
  revert s. induction p as [| c p IH]; intros s.
  - simpl. by destruct s.
  - destruct s as [| x s]; simpl; [done |].
    destruct (ascii_dec c x) as [-> | Hne].
    + rewrite IH. split; [by intros -> | by intros [= ?]].
    + split; [done | by intros [= ? ?]].
Qed.

Lemma prefix_cons_ne (c x : ascii) (p r : string) :
  c ≠ x → String.prefix (String c p) (String x r) = false.
Proof. intros Hne. simpl. by destruct (ascii_dec c x). Qed.

Lemma take_strftime_txt (d : date) :
  Str.take 7 (strftime d +:+ ".txt") = year_month_of d.
Proof. reflexivity. Qed.

Lemma year_month_of_length (d : date) : String.length (year_month_of d) = 7%nat.
Proof. reflexivity. Qed.

Lemma pretty_N_go_first (x : N) (s : string) :
  (0 < x)%N →
  ∃ c r, pretty_N_go x s = String c r ∧ Str.is_digit c = true ∧ c ≠ "0"%char.
Proof.
  revert s. induction (N.lt_wf_0 x) as [x _ IH]; intros s Hx.
  rewrite pretty_N_go_step by done.
  assert (x < 10 ∨ 10 <= x)%N as [Hlt | Hge] by lia.
  - rewrite N.div_small, pretty_N_go_0, N.mod_small by done.
    eexists _, _. split; [done |]. split; [apply pretty_N_char_digit |].
    assert (x = 1 ∨ x = 2 ∨ x = 3 ∨ x = 4 ∨ x = 5 ∨ x = 6 ∨ x = 7 ∨ x = 8 ∨
            x = 9)%N as Hc by lia.
    repeat (destruct Hc as [-> | Hc]; [done |]). by subst.
  - apply IH; [by apply N.div_lt |]. apply N.div_str_pos. lia.
Qed.

(** The decimal text of a number that is not negative starts with a digit,
    and with a zero only for zero. *)
Lemma str_of_int_first (n : Z) :
  0 <= n →
  ∃ c r, str_of_int n = String c r ∧ Str.is_digit c = true ∧
         (c = "0"%char → n = 0).
Proof.
  intros Hn. destruct n as [| p | p]; [by eexists _, _ | | lia].
  unfold str_of_int, pretty, pretty_Z, pretty, pretty_positive, pretty, pretty_N.
  rewrite decide_False by done.
  destruct (pretty_N_go_first (N.pos p) EmptyString) as (c & r & -> & Hc & Hne);
    [lia |].
  by exists c, r.
Qed.

Lemma fmt02_inj (n n' : Z) : 0 <= n → 0 <= n' → fmt02 n = fmt02 n' → n = n'.
Proof.
  intros Hn Hn'. unfold fmt02.
  destruct ((0 <=? n) && (n <? 10)) eqn:E, ((0 <=? n') && (n' <? 10)) eqn:E'.
  - rewrite !append_cons. intros [= H]. by apply (inj pretty).
  - assert (n = 0 ∨ n = 1 ∨ n = 2 ∨ n = 3 ∨ n = 4 ∨ n = 5 ∨ n = 6 ∨ n = 7 ∨
            n = 8 ∨ n = 9) as Hc by lia.
    destruct (str_of_int_first n' Hn') as (c & r & Hs & _ & H0).
    unfold str_of_int in Hs. rewrite Hs, append_cons. intros [= <- _].
    rewrite H0 in E' by done. done.
  - destruct (str_of_int_first n Hn) as (c & r & Hs & _ & H0).
    unfold str_of_int in Hs. rewrite Hs, append_cons. intros [= -> _].
    rewrite H0 in E by done. done.
  - apply (inj pretty).
Qed.

(** X1: the cache file name [get_page_block_date] builds determines the
    request: two day pages whose numbers are not negative have the same
    file name only if region, station, year, month and day are all the
    same, so no two day pages share a cache file. *)
Theorem block_date_filename_inj (p b y m d p' b' y' m' d' : Z) :
  0 <= p → 0 <= b → 0 <= y → 0 <= m → 0 <= d →
  0 <= p' → 0 <= b' → 0 <= y' → 0 <= m' → 0 <= d' →
  block_date_filename p b y m d = block_date_filename p' b' y' m' d' →
  p = p' ∧ b = b' ∧ y = y' ∧ m = m' ∧ d = d'.
Proof.
  intros Hp Hb Hy Hm Hd Hp' Hb' Hy' Hm' Hd'.
  unfold block_date_filename. intros H.
  apply (append_sep_inj "_") in H as [H1 H];
    [| by apply no_char_digits ..].
  apply (append_sep_inj "_") in H as [H2 H];
    [| by apply no_char_digits ..].
  apply (append_sep_inj "-") in H as [H3 H];
    [| by apply no_char_digits ..].
  apply (append_sep_inj "-") in H as [H4 H];
    [| by apply no_char_fmt02 ..].
  apply (append_sep_inj ".") in H as [H5 _];
    [| by apply no_char_fmt02 ..].
  unfold str_of_int in *.
  apply (inj pretty) in H1, H2, H3.
  apply fmt02_inj in H4, H5; done.
Qed.

Lemma block_date_filename_inj_witness :
  block_date_filename 44 47662 2024 1 1 = block_date_filename 44 47662 2024 1 1 ∧
  44 = 44 ∧ 47662 = 47662 ∧ 2024 = 2024 ∧ 1 = 1 ∧ 1 = 1.
Proof.
  split; [reflexivity |].
  apply (block_date_filename_inj 44 47662 2024 1 1 44 47662 2024 1 1);
    first [lia | reflexivity].
Defined.

Lemma is_target_block_date (ym : string) (p b : Z) (d : date) :
  0 <= p → 0 <= b → valid_date d = true → 1000 <= year d →
  is_target ym (block_date_filename p b (year d) (month d) (day d))
  = String.prefix ym (strftime d +:+ ".txt").
Proof.
  intros Hp Hb Hd Hy.
  pose proof Hd as Hd'. apply valid_date_spec in Hd' as (? & ? & ?).
  unfold is_target. rewrite split_block_date_filename by lia.
  by rewrite date_part_calendar.
Qed.

(** X2: the batches of the two archivers.  For the day page of a valid date
    with a four-digit year, [is_target] of [compress_month] selects its
    cache file for a month exactly when the date lies in that month, and
    [compress_precs] never selects it; the file of a block list is selected
    by [compress_precs], and neither it nor the file of the prefecture list
    is selected for any month. *)
Theorem cache_file_batches (p b n : Z) (d d' : date) (ym : string) :
  0 <= p → 0 <= b → 0 <= n →
  valid_date d = true → 1000 <= year d → valid_date d' = true →
  let day_file := block_date_filename p b (year d) (month d) (day d) in
  (is_target (year_month_of d') day_file = true ↔
   year d' = year d ∧ month d' = month d) ∧
  Str.startswith "prefecture" day_file = false ∧
  is_target ym (blocks_filename n) = false ∧
  is_target ym "prefectures.txt" = false ∧
  Str.startswith "prefecture" (blocks_filename n) = true.
Proof.
  intros Hp Hb Hn Hd Hy Hd' day_file. split; [| split; [| split; [| split]]].
  - unfold day_file. rewrite is_target_block_date by done.
    rewrite prefix_take, year_month_of_length, take_strftime_txt. split.
    + intros H. by apply year_month_of_inj in H as [-> ->].
    + intros [Hy' Hm']. unfold year_month_of. by rewrite Hy', Hm'.
  - unfold day_file, block_date_filename, Str.startswith.
    destruct (str_of_int_first p Hp) as (c & r & -> & Hc & _).
    rewrite append_cons. apply prefix_cons_ne. intros <-.
    by vm_compute in Hc.
  - unfold is_target, blocks_filename, Str.split.
    change ("prefecture_" +:+ str_of_int n +:+ ".txt")
      with ("prefecture" +:+ String "_" (str_of_int n +:+ ".txt")).
    rewrite split_aux_sep, split_aux_field; [done | | done].
    rewrite has_char_append, no_char_digits by done. done.
  - done.
  - done.
Qed.

Lemma cache_file_batches_witness :
  let day_file := block_date_filename 44 47662 2024 1 1 in
  (is_target (year_month_of (mkdate 2024 1 31)) day_file = true ↔
   2024 = 2024 ∧ 1 = 1) ∧
  Str.startswith "prefecture" day_file = false ∧
  is_target "2024-01" (blocks_filename 44) = false ∧
  is_target "2024-01" "prefectures.txt" = false ∧
  Str.startswith "prefecture" (blocks_filename 44) = true.
Proof.
  apply (cache_file_batches 44 47662 44 (mkdate 2024 1 1) (mkdate 2024 1 31)
           "2024-01"); first [reflexivity | simpl; lia].
Defined.

(** ** Reading the dates of a bucket back *)

Lemma no_dash_pad4 (y : Z) : 0 <= y <= 9999 → has_char "-" (Str.pad4 y) = false.
Proof.
  intros Hy. apply all_digits_has_char; [done |]. by apply pad4_facts.
Qed.

Lemma no_dash_pad2 (n : Z) : 0 <= n <= 99 → has_char "-" (Str.pad2 n) = false.
Proof.
  intros Hn. apply all_digits_has_char; [done |]. by apply pad2_facts.
Qed.

Lemma split_strftime (d : date) :
  valid_date d = true →
  Str.split "-" (strftime d)
  = [Str.pad4 (year d); Str.pad2 (month d); Str.pad2 (day d)].
Proof.
  rewrite valid_date_spec. intros (Hy & Hm & Hd).
  pose proof (days_in_month_pos (year d) (month d)).
  unfold strftime.
  change (Str.pad4 (year d) +:+ "-" +:+ Str.pad2 (month d) +:+ "-" +:+
          Str.pad2 (day d))
    with (Str.pad4 (year d) +:+
          String "-" (Str.pad2 (month d) +:+ String "-" (Str.pad2 (day d)))).
  apply (split_three "-" (Str.pad4 (year d)) (Str.pad2 (month d))
           (Str.pad2 (day d)));
    [apply (no_dash_pad4 (year d)); lia
    | apply (no_dash_pad2 (month d)); lia
    | apply (no_dash_pad2 (day d)); lia].
Qed.

(** The unpacking of [get_df_block_dates] on a date text of [get_dates]. *)
Lemma date_ints_of_strftime (d : date) :
  valid_date d = true →
  date_ints (strftime d) = Ok (year d, month d, day d).
Proof.
  intros Hv. unfold date_ints. rewrite split_strftime by done.
  apply valid_date_spec in Hv as (Hy & Hm & Hd).
  pose proof (days_in_month_pos (year d) (month d)).
  destruct (pad4_facts (year d)) as (_ & -> & _); [lia |].
  destruct (pad2_facts (month d)) as (_ & -> & _); [lia |].
  destruct (pad2_facts (day d)) as (_ & -> & _); [lia |].
  done.
Qed.

(** The directives of [strptime] on the padded texts of [strftime]. *)
Lemma parse_padded (y m d : Z) :
  1 <= y <= 9999 → 1 <= m <= 12 → 1 <= d <= 31 →
  parse_Y (Str.pad4 y) = Some y ∧ parse_m (Str.pad2 m) = Some m ∧
  parse_d (Str.pad2 d) = Some d.
Proof.
  intros Hy Hm Hd.
  assert (forallb (λ m, bool_decide (parse_m (Str.pad2 m) = Some m))
            (seqZ 1 12) = true) as HM by (vm_compute; reflexivity).
  assert (forallb (λ d, bool_decide (parse_d (Str.pad2 d) = Some d))
            (seqZ 1 31) = true) as HD by (vm_compute; reflexivity).
  rewrite forallb_forall in HM, HD.
  split; [| split].
  - destruct (pad4_facts y) as (H4 & _ & V4); [lia |].
    unfold parse_Y. rewrite H4, V4. reflexivity.
  - apply (bool_decide_eq_true_1 _), HM, list_elem_of_In, elem_of_seqZ. lia.
  - apply (bool_decide_eq_true_1 _), HD, list_elem_of_In, elem_of_seqZ. lia.
Qed.

(** X3: for a valid date with a four-digit year (1000 or later), the date
    text [get_dates] writes ([strftime] with [%Y-%m-%d]) is read back as
    that date by both readers of the scraper: [map(int, date.split('-'))]
    in [get_df_block_dates] gives its year, month and day, and [strptime]
    gives the date; neither raises. *)
Theorem date_ints_strftime (d : date) :
  valid_date d = true → 1000 <= year d →
  date_ints (strftime d) = Ok (year d, month d, day d) ∧
  strptime (strftime d) = Ok d.
Proof.
  intros Hv _. split; [by apply date_ints_of_strftime |].
  unfold strptime. rewrite split_strftime by done.
  pose proof Hv as Hv'. apply valid_date_spec in Hv' as (Hy & Hm & Hd).
  pose proof (days_in_month_pos (year d) (month d)).
  destruct (parse_padded (year d) (month d) (day d)) as (-> & -> & ->);
    [lia | lia | lia |].
  replace (mkdate (year d) (month d) (day d)) with d by (by destruct d).
  by rewrite Hv.
Qed.

Lemma date_ints_strftime_witness :
  date_ints (strftime (mkdate 2024 2 29)) = Ok (2024, 2, 29) ∧
  strptime (strftime (mkdate 2024 2 29)) = Ok (mkdate 2024 2 29).
Proof.
  apply (date_ints_strftime (mkdate 2024 2 29)); [reflexivity | simpl; lia].
Defined.

(** X4: when the cache holds the day page of every date of a list of valid
    dates, [get_df_block_dates] on their texts returns the rows of these
    pages, each read in text mode and parsed, date after date, and leaves
    the world as it was: no request is sent and nothing is written. *)
Theorem get_df_block_dates_cached (BeautifulSoup : string → node)
    (prec_no block_no : Z) (ds : list date) (content : date → string)
    (w : world) :
  (∀ d, d ∈ ds →
        valid_date d = true ∧
        cache w !! block_date_filename prec_no block_no
                     (year d) (month d) (day d) = Some (content d)) →
  get_df_block_dates BeautifulSoup prec_no block_no (map strftime ds) w
  = (Ok (flat_map
           (λ d, soup_data prec_no block_no (year d) (month d) (day d)
                   (BeautifulSoup (read_text (content d)))) ds), w).
Proof.
  intros Hall. unfold get_df_block_dates.
  assert (get_df_block_dates_loop BeautifulSoup prec_no block_no
            (map strftime ds) w
          = (Ok (map (λ d, soup_data prec_no block_no (year d) (month d) (day d)
                             (BeautifulSoup (read_text (content d)))) ds), w))
    as Hloop.
  { induction ds as [| d ds IH]; [done |].
    destruct (Hall d) as [Hd Hc]; [by left |].
    simpl. unfold mbind, M_bind, lift. rewrite date_ints_of_strftime by done.
    unfold get_df_block_date, mbind, M_bind.
    rewrite get_page_block_date_unfold. unfold get_page. rewrite Hc.
    unfold mret, M_ret. unfold mbind, M_bind in IH. rewrite IH; [done |].
    intros d' Hd'. apply Hall. by right. }
  unfold mbind, M_bind. rewrite Hloop. unfold mret, M_ret.
  f_equal. f_equal. clear. induction ds as [| d ds IH]; [done |]. simpl.
  by rewrite IH.
Qed.

Lemma get_df_block_dates_cached_witness :
  get_df_block_dates (λ _, page [day_table plain_row]) 44 47662
    (map strftime [mkdate 2024 1 1]) cached_world
  = (Ok (flat_map
           (λ d, soup_data 44 47662 (year d) (month d) (day d)
                   (page [day_table plain_row])) [mkdate 2024 1 1]),
     cached_world).
Proof.
  apply (get_df_block_dates_cached (λ _, page [day_table plain_row]) 44 47662
           [mkdate 2024 1 1] (λ _, "<html>") cached_world).
  intros d Hd. apply list_elem_of_singleton in Hd as ->.
  split; vm_compute; reflexivity.
Defined.

(** ** More on [get_dates] *)

Lemma strptime_raises (s : string) (e : exn) :
  strptime s = Raise e → e = ValueError.
Proof.
  unfold strptime. intros H.
  repeat match type of H with
         | match ?x with _ => _ end = _ => destruct x
         | (if ?x then _ else _) = _ => destruct x
         end; congruence.
Qed.

Lemma calendar_run_length (d e : date) (l : list date) :
  calendar_run d e l → valid_date d = true →
  Z.of_nat (length l) = toordinal e - toordinal d + 1.
Proof.
  induction 1 as [d | d d' e l Hn Hrun IH]; intros Hd; [simpl; lia |].
  destruct (next_day_ordinal d d' Hd Hn) as [Hd' Hord].
  specialize (IH Hd'). simpl length. lia.
Qed.

Lemma get_dates_Ok (s e : string) (ds de : date) :
  strptime s = Ok ds → strptime e = Ok de →
  ∃ dic, get_dates s e = Ok dic ∧
         Z.of_nat (length (concat (map snd dic)))
         = Z.max 0 (toordinal de - toordinal ds + 1).
Proof.
  intros Hs He.
  pose proof (strptime_valid s ds Hs) as Hvs.
  pose proof (strptime_valid e de He) as Hve.
  unfold get_dates. rewrite Hs, He. simpl.
  destruct (decide (toordinal ds <= toordinal de)) as [Hle | Hgt].
  - replace (Z.to_nat (toordinal de - toordinal ds + 1))
      with (S (Z.to_nat (toordinal de - toordinal ds))) by lia.
    destruct (get_dates_loop_run ds de Hve
                (Z.to_nat (toordinal de - toordinal ds)) 0%nat ds [])
      as (l & Hrun & Hloop); [done | done | lia |].
    eexists. split; [exact Hloop |].
    assert (buckets_inv [] [] (month_index ds)) as Hinit.
    { split; simpl; try done; constructor. }
    destruct (calendar_run_inv ds de l Hrun Hvs [] [] _ Hinit (Z.le_refl _))
      as [Hflat _ _ _ _].
    simpl in Hflat. rewrite Hflat, length_map.
    rewrite (calendar_run_length ds de l Hrun Hvs). lia.
  - replace (Z.to_nat (toordinal de - toordinal ds + 1)) with 0%nat by lia.
    exists []. split; [done |]. simpl. lia.
Qed.

(** X5: [get_dates] returns exactly when [strptime] accepts both texts, and
    the buckets then hold max(0, days from start to end + 1) dates
    together; otherwise it raises [ValueError], as the [strptime] that
    failed did.  It raises nothing else: the [OverflowError] of the date
    arithmetic cannot occur. *)
Theorem get_dates_returns (s e : string) :
  match get_dates s e with
  | Ok dic =>
      ∃ ds de, strptime s = Ok ds ∧ strptime e = Ok de ∧
               Z.of_nat (length (concat (map snd dic)))
               = Z.max 0 (toordinal de - toordinal ds + 1)
  | Raise x =>
      x = ValueError ∧
      (strptime s = Raise ValueError ∨ strptime e = Raise ValueError)
  end.
Proof.
  destruct (strptime s) as [ds | x] eqn:Hs.
  - destruct (strptime e) as [de | x] eqn:He.
    + destruct (get_dates_Ok s e ds de Hs He) as (dic & -> & Hlen).
      by exists ds, de.
    + apply strptime_raises in He as Hx. subst x.
      unfold get_dates. rewrite Hs, He. simpl. by split; [| right].
  - apply strptime_raises in Hs as Hx. subst x.
    unfold get_dates. rewrite Hs. simpl. by split; [| left].
Qed.

(** ** More on [get_page] *)

(** X6: [get_page] never touches the archives nor a cache file other than
    its own.  With the file in the cache it returns the file as read in
    text mode and changes nothing; when it raises, the cache is as before,
    the file was absent and exactly one more request was sent; when it
    returns, the file is in the cache. *)
Theorem get_page_frame (url cache_filename : string) (w : world) :
  let r := (get_page url cache_filename w).1 in
  let w' := (get_page url cache_filename w).2 in
  tar_gz w' = tar_gz w ∧
  (∀ g, g ≠ cache_filename → cache w' !! g = cache w !! g) ∧
  (∀ bytes, cache w !! cache_filename = Some bytes →
            r = Ok (read_text bytes) ∧ w' = w) ∧
  (∀ e, r = Raise e →
        cache w' = cache w ∧ cache w !! cache_filename = None ∧
        network_calls w' = S (network_calls w)) ∧
  (∀ content, r = Ok content → is_Some (cache w' !! cache_filename)).
Proof.
  unfold get_page. destruct (cache w !! cache_filename) as [bytes |] eqn:Hc.
  - simpl. split; [done |]. split; [done |]. split; [| split].
    + by intros ? [= <-].
    + done.
    + intros _ _. by rewrite Hc.
  - destruct (site (log (EvRequest url) w) url) as [content | e] eqn:Hs;
      simpl.
    + split; [done |]. split; [| split; [done | split; [done |]]].
      * intros g Hg. by rewrite lookup_insert_ne.
      * intros _ _. rewrite lookup_insert_eq. by eexists.
    + split; [done |]. split; [done |]. split; [done |]. split; [| done].
      intros _ _. split; [done |]. split; [done |].
      unfold network_calls. simpl. rewrite List.filter_app, length_app.
      simpl. lia.
Qed.

(** ** More on the archives *)

Lemma tar_add_all_full (tar : string) (files : list string) (w0 : world) :
  ∀ (w : world) (ms : archive),
    cache w = cache w0 → fault w = fault w0 →
    tar_gz w !! tar = Some ms →
    (∀ f, f ∈ files → is_Some (cache w0 !! f) ∧ fault w0 f = false) →
    ∃ w', tar_add_all tar files w = (Ok tt, w') ∧
          cache w' = cache w0 ∧
          tar_gz w' = <[tar := ms ++ members_of w0 files]> (tar_gz w).
Proof.
  induction files as [| f rest IH]; intros w ms Hc Hf Hms Hall.
  - exists w. simpl. rewrite app_nil_r, insert_id by done. done.
  - destruct (Hall f) as [[bytes Hb] Hfault]; [by left |].
    simpl. unfold mbind, M_bind, tar_add. rewrite Hc, Hb. simpl.
    rewrite Hf, Hfault. simpl. rewrite Hms. simpl.
    edestruct (IH (log (EvTarAdd tar f)
                 (set_tar_gz <[tar:=ms ++ [(f, bytes)]]> w)) (ms ++ [(f, bytes)]))
      as (w' & Hrun & Hc' & Ht'); simpl; try done.
    { apply lookup_insert_eq. }
    { intros g Hg. apply Hall. by right. }
    exists w'. unfold mbind, M_bind in Hrun. rewrite Hrun.
    split; [done |]. split; [done |].
    simpl in Ht'. rewrite Ht', insert_insert_eq. unfold members_of. simpl.
    by rewrite <- app_assoc.
Qed.

(** What a run of [compress_impl] without faults leaves behind. *)
Lemma compress_impl_ok (w : world) (tar : string) (files : list string)
    (remove : bool) :
  NoDup files →
  (∀ f, f ∈ files → is_Some (cache w !! f) ∧ fault w f = false) →
  ∃ w1,
    compress_impl tar files remove w = (Ok tt, w1) ∧
    tar_gz w1 = <[tar := members_of w files]> (tar_gz w) ∧
    (∀ g, cache w1 !! g
          = if remove && bool_decide (g ∈ files) then None else cache w !! g).
Proof.
  intros Hnd Hall.
  destruct (tar_add_all_full tar files w
              (log (EvTarOpen tar) (set_tar_gz <[tar:=[]]> w)) [])
    as (wa & Hadd & Hca & Hta); simpl; try done.
  { apply lookup_insert_eq. }
  simpl in Hta. rewrite insert_insert_eq in Hta.
  unfold compress_impl, mbind, M_bind, tar_open.
  unfold mbind, M_bind in Hadd. rewrite Hadd. simpl.
  destruct remove; simpl.
  - destruct (unlink_all_ok files (log (EvTarClose tar) wa) Hnd)
      as (w1 & Hun & Hc1 & Ht1 & _).
    { intros f Hf. simpl. rewrite Hca. by apply Hall. }
    exists w1. split; [done |]. split; [by rewrite Ht1 |].
    intros g. rewrite Hc1. simpl. rewrite Hca.
    destruct (decide (g ∈ files)).
    + by rewrite bool_decide_eq_true_2.
    + by rewrite bool_decide_eq_false_2.
  - eexists. split; [reflexivity |]. split; [done |].
    intros g. simpl. by rewrite Hca.
Qed.

Lemma elem_of_iterdir (w : world) (f : string) :
  f ∈ iterdir w ↔ is_Some (cache w !! f).
Proof.
  unfold iterdir. rewrite list_elem_of_fmap. split.
  - intros ([g b] & -> & H). apply elem_of_map_to_list in H. by exists b.
  - intros [b Hb]. exists (f, b). split; [done |].
    by apply elem_of_map_to_list.
Qed.

Lemma elem_of_members_of (w : world) (files : list string) (f bytes : string) :
  (∀ g, g ∈ files → is_Some (cache w !! g)) →
  (f, bytes) ∈ members_of w files ↔ f ∈ files ∧ cache w !! f = Some bytes.
Proof.
  intros Hex. unfold members_of.
  change (map ?g ?l) with (g <$> l). rewrite list_elem_of_fmap. split.
  - intros (g & [= -> ->] & Hg). split; [done |].
    destruct (Hex g Hg) as [b Hb]. by rewrite Hb.
  - intros [Hf Hb]. exists f. split; [by rewrite Hb | done].
Qed.

(** The batch a selection of the cache directory makes. *)
Lemma compress_selected (w : world) (tar : string) (select : string → bool)
    (remove : bool) :
  (∀ f, select f = true → fault w f = false) →
  let cache_files := filter (λ f, select f = true) (iterdir w) in
  ∃ w1 ms,
    compress_impl tar cache_files remove w = (Ok tt, w1) ∧
    tar_gz w1 = <[tar := ms]> (tar_gz w) ∧
    (∀ f bytes, (f, bytes) ∈ ms ↔ select f = true ∧ cache w !! f = Some bytes) ∧
    (∀ g, cache w1 !! g = if remove && select g then None else cache w !! g).
Proof.
  intros Hfault files.
  assert (∀ f, f ∈ files ↔ select f = true ∧ is_Some (cache w !! f)) as Hin.
  { intros f. unfold files. rewrite list_elem_of_filter, elem_of_iterdir. done. }
  destruct (compress_impl_ok w tar files remove) as (w1 & Hrun & Ht & Hc).
  { apply NoDup_filter, NoDup_fst_map_to_list. }
  { intros f Hf. apply Hin in Hf as [Hs Hex]. split; [done | by apply Hfault]. }
  exists w1, (members_of w files). split; [done |]. split; [done |]. split.
  - intros f bytes. rewrite elem_of_members_of by (intros g Hg; by apply Hin).
    rewrite Hin. split.
    + by intros [[? ?] ?].
    + intros [? Hb]. by repeat split.
  - intros g. rewrite Hc. destruct remove; simpl; [| done].
    destruct (select g) eqn:Hs.
    + destruct (cache w !! g) as [b |] eqn:Hb.
      * rewrite bool_decide_eq_true_2; [done |]. apply Hin. split; [done |].
        rewrite Hb. by eexists.
      * by destruct (bool_decide _).
    + rewrite bool_decide_eq_false_2; [done |]. intros Hg. apply Hin in Hg.
      destruct Hg. congruence.
Qed.

(** X7: without a write fault on the selected files, [compress_month]
    returns; the archive of the month (an older one is replaced, the other
    archives stay) then holds exactly the cache files [is_target] selects,
    each with its content, and the cache afterwards lacks exactly those
    files when [remove_cache] is set and is unchanged otherwise. *)
Theorem compress_month_result (w : world) (year_month : string)
    (remove_cache : bool) :
  (∀ f, is_target year_month f = true → fault w f = false) →
  ∃ w1 ms,
    compress_month year_month remove_cache w = (Ok tt, w1) ∧
    tar_gz w1 = <[year_month +:+ ".tar.gz" := ms]> (tar_gz w) ∧
    (∀ f bytes, (f, bytes) ∈ ms ↔
                is_target year_month f = true ∧ cache w !! f = Some bytes) ∧
    (∀ g, cache w1 !! g
          = if remove_cache && is_target year_month g then None
            else cache w !! g).
Proof.
  intros Hfault. unfold compress_month.
  apply (compress_selected w _ (is_target year_month) remove_cache Hfault).
Qed.

Lemma compress_month_result_witness :
  ∃ w1 ms,
    compress_month "2024-01" true cached_world = (Ok tt, w1) ∧
    tar_gz w1 = <["2024-01" +:+ ".tar.gz" := ms]> (tar_gz cached_world) ∧
    (∀ f bytes, (f, bytes) ∈ ms ↔
                is_target "2024-01" f = true ∧
                cache cached_world !! f = Some bytes) ∧
    (∀ g, cache w1 !! g
          = if true && is_target "2024-01" g then None
            else cache cached_world !! g).
Proof.
  apply (compress_month_result cached_world "2024-01" true).
  intros f Hf. reflexivity.
Defined.

(** X8: without a write fault on the selected files, [compress_precs]
    returns; [prefectures.tar.gz] then holds exactly the cache files whose
    name starts with [prefecture], each with its content, and no day page
    of the cache is removed or changed. *)
Theorem compress_precs_result (w : world) (remove_cache : bool) :
  (∀ f, Str.startswith "prefecture" f = true → fault w f = false) →
  ∃ w1 ms,
    compress_precs remove_cache w = (Ok tt, w1) ∧
    tar_gz w1 = <["prefectures.tar.gz" := ms]> (tar_gz w) ∧
    (∀ f bytes, (f, bytes) ∈ ms ↔
                Str.startswith "prefecture" f = true ∧
                cache w !! f = Some bytes) ∧
    (∀ p b y m d, 0 <= p →
       cache w1 !! block_date_filename p b y m d
       = cache w !! block_date_filename p b y m d).
Proof.
  intros Hfault. unfold compress_precs.
  destruct (compress_selected w "prefectures.tar.gz"
              (Str.startswith "prefecture") remove_cache Hfault)
    as (w1 & ms & Hrun & Ht & Hms & Hc).
  exists w1, ms. split; [done |]. split; [done |]. split; [done |].
  intros p b y m d Hp. rewrite Hc.
  assert (Str.startswith "prefecture" (block_date_filename p b y m d) = false)
    as ->; [| by rewrite andb_false_r].
  unfold block_date_filename, Str.startswith.
  destruct (str_of_int_first p Hp) as (c & r & -> & Hd & _).
  rewrite append_cons. apply prefix_cons_ne. intros <-. by vm_compute in Hd.
Qed.

Lemma compress_precs_result_witness :
  ∃ w1 ms,
    compress_precs true hierarchy_world = (Ok tt, w1) ∧
    tar_gz w1 = <["prefectures.tar.gz" := ms]> (tar_gz hierarchy_world) ∧
    (∀ f bytes, (f, bytes) ∈ ms ↔
                Str.startswith "prefecture" f = true ∧
                cache hierarchy_world !! f = Some bytes) ∧
    (∀ p b y m d, 0 <= p →
       cache w1 !! block_date_filename p b y m d
       = cache hierarchy_world !! block_date_filename p b y m d).
Proof.
  apply (compress_precs_result hierarchy_world true).
  intros f Hf. reflexivity.
Defined.

Lemma archive_files_cons (name bytes : string) (ms : archive)
    (c : gmap string string) :
  archive_files ((name, bytes) :: ms) ∪ c
  = archive_files ms ∪ <[name := bytes]> c.
Proof.
  unfold archive_files. rewrite reverse_cons, list_to_map_app. simpl.
  rewrite <- (assoc_L (∪)). f_equal.
  rewrite <- insert_union_l. by rewrite (left_id_L ∅ (∪)).
Qed.

Lemma extract_members_cache (tar : string) (ms : archive) :
  ∀ w : world,
    cache (extract_members tar ms w) = archive_files ms ∪ cache w ∧
    tar_gz (extract_members tar ms w) = tar_gz w.
Proof.
  induction ms as [| [name bytes] ms IH]; intros w.
  - simpl. unfold archive_files. simpl. by rewrite (left_id_L ∅ (∪)).
  - simpl. destruct (IH (log (EvExtract tar name)
                           (set_cache <[name:=bytes]> w))) as [Hc Ht].
    rewrite Hc, Ht. simpl. by rewrite archive_files_cons.
Qed.

(** X9: [extract_impl] always returns and leaves the archives alone; the
    cache afterwards is the files of the archive, the last member of a name
    winning, laid over the cache before; a missing archive changes nothing
    at all; and extracting the same archive a second time does not change
    the cache again. *)
Theorem extract_impl_overlay (tar_gz_file : string) (w : world) :
  let w1 := (extract_impl tar_gz_file w).2 in
  (extract_impl tar_gz_file w).1 = Ok tt ∧
  tar_gz w1 = tar_gz w ∧
  cache w1 = archive_files (default [] (tar_gz w !! tar_gz_file)) ∪ cache w ∧
  (tar_gz w !! tar_gz_file = None → w1 = w) ∧
  cache (extract_impl tar_gz_file w1).2 = cache w1.
Proof.
  assert (∀ w : world,
    (extract_impl tar_gz_file w).1 = Ok tt ∧
    tar_gz (extract_impl tar_gz_file w).2 = tar_gz w ∧
    cache (extract_impl tar_gz_file w).2
    = archive_files (default [] (tar_gz w !! tar_gz_file)) ∪ cache w) as H.
  { intros w0. unfold extract_impl.
    destruct (tar_gz w0 !! tar_gz_file) as [ms |]; simpl.
    - destruct (extract_members_cache tar_gz_file ms w0) as [Hc Ht]. done.
    - unfold archive_files. simpl. by rewrite (left_id_L ∅ (∪)). }
  simpl. destruct (H w) as (Hr & Ht & Hc).
  split; [done |]. split; [done |]. split; [done |]. split.
  - intros Hnone. unfold extract_impl. by rewrite Hnone.
  - destruct (H (extract_impl tar_gz_file w).2) as (_ & _ & Hc').
    rewrite Hc', Ht, Hc, (assoc_L (∪)). f_equal.
    apply (idemp_L (∪)).
Qed.

(** ** More on [get_master] *)

Lemma master_inv_init : master_inv (mkacc ∅ []).
Proof.
  split; simpl; [| constructor | constructor].
  intros k. split; [by intros ?%not_elem_of_empty | by intros ?%elem_of_nil].
Qed.

Lemma master_add_inv (acc acc' : master_acc) (e : entry) :
  master_inv acc → master_add acc e = Ok acc' → master_inv acc'.
Proof.
  intros [Hset Hnd Hrows]. unfold master_add. intros H.
  destruct (decide (e_key e ∉ prec_blocks_target)) as [| Ht]; [by simplify_eq |].
  destruct (decide (e_key e ∈ set_prec_block acc)) as [| Hs]; [by simplify_eq |].
  destruct (dict_block_name_en !! e_block_name e) as [en |] eqn:Hen;
    simpl in *; [| done].
  simplify_eq. split; simpl.
  - intros k. rewrite map_app, elem_of_app, elem_of_union, elem_of_singleton.
    simpl. rewrite list_elem_of_singleton, Hset. tauto.
  - rewrite map_app. apply NoDup_app. split; [done |]. split.
    + intros k Hk Hk'. apply list_elem_of_singleton in Hk'. subst.
      apply Hs, Hset, Hk.
    + apply NoDup_singleton.
  - apply Forall_app. split; [done |]. apply Forall_singleton. split; [| done].
    simpl. destruct (decide (e_key e ∈ prec_blocks_target)); [done |].
    by destruct Ht.
Qed.

Lemma master_add_all_inv (es : list entry) :
  ∀ acc acc' : master_acc,
    master_inv acc → master_add_all acc es = Ok acc' → master_inv acc'.
Proof.
  induction es as [| e es IH]; intros acc acc' Hinv H; simpl in *.
  - by simplify_eq.
  - destruct (master_add acc e) as [acc1 | err] eqn:Hadd; simpl in *; [| done].
    eapply IH; [| done]. by eapply master_add_inv.
Qed.

(** X10: whenever [get_master] returns, the composite keys region::station
    of the master rows are pairwise distinct, every row is on the
    allow-list [prec_blocks_target] and carries the transliteration
    [dict_block_name_en] gives for its station name, and there are at most
    47 rows. *)
Theorem get_master_rows (BeautifulSoup : string → node) (w w' : world)
    (table : list station) :
  get_master BeautifulSoup w = (Ok table, w') →
  NoDup (map st_key table) ∧
  Forall (λ r, st_key r ∈ prec_blocks_target ∧
               dict_block_name_en !! st_block_name r
               = Some (st_block_name_en r)) table ∧
  (length table <= 47)%nat.
Proof.
  intros H.
  destruct (get_master_entries _ _ _ _ H) as (es & acc & _ & Hadd & ->).
  destruct (master_add_all_inv es _ _ master_inv_init Hadd) as [_ Hnd Hrows].
  split; [done |]. split; [done |].
  rewrite <- (length_map st_key).
  change 47%nat with (length prec_blocks_target).
  apply submseteq_length, NoDup_submseteq; [done |].
  intros k Hk. apply list_elem_of_fmap in Hk as (r & -> & Hr).
  rewrite Forall_forall in Hrows. by apply Hrows.
Qed.

Lemma get_master_rows_witness :
  let P := two_pages tokyo_precs (page [oshima; tokyo; nerima; tokyo]) in
  let table := [entry_row tokyo_entry "tokyo"] in
  NoDup (map st_key table) ∧
  Forall (λ r, st_key r ∈ prec_blocks_target ∧
               dict_block_name_en !! st_block_name r
               = Some (st_block_name_en r)) table ∧
  (length table <= 47)%nat.
Proof.
  intros P table.
  apply (get_master_rows P hierarchy_world hierarchy_world table).
  vm_compute. reflexivity.
Defined.

Lemma names_after_sep_spec (p b : string) :
  b ∈ names_after_sep (p +:+ "::" +:+ b).
Proof.
  induction p as [| c p IH].
  - change (EmptyString +:+ "::" +:+ b) with (String ":" (String ":" b)).
    cbn [names_after_sep]. apply elem_of_app. left.
    assert (String.prefix "::" (String ":" (String ":" b)) = true) as ->.
    { simpl. by destruct b. }
    by left.
  - rewrite append_cons. cbn [names_after_sep]. apply elem_of_app. by right.
Qed.

(** Every station name of the allow-list has its transliteration. *)
Lemma target_names_known (p b : string) :
  p +:+ "::" +:+ b ∈ prec_blocks_target → is_Some (dict_block_name_en !! b).
Proof.
  intros Hin.
  assert (forallb (λ t, forallb (λ b, bool_decide (is_Some (dict_block_name_en !! b)))
                          (names_after_sep t)) prec_blocks_target = true) as H
    by (vm_compute; reflexivity).
  rewrite forallb_forall in H. apply list_elem_of_In in Hin.
  specialize (H _ Hin). rewrite forallb_forall in H.
  apply (bool_decide_eq_true_1 _), H, list_elem_of_In, names_after_sep_spec.
Qed.

Lemma master_add_returns (acc : master_acc) (e : entry) :
  ∃ acc', master_add acc e = Ok acc'.
Proof.
  unfold master_add.
  destruct (decide (e_key e ∉ prec_blocks_target)) as [| Ht]; [by eexists |].
  destruct (decide (e_key e ∈ set_prec_block acc)); [by eexists |].
  destruct (target_names_known (e_prec_name e) (e_block_name e)) as [en ->].
  { destruct (decide (e_key e ∈ prec_blocks_target)); [done | by destruct Ht]. }
  by eexists.
Qed.

Lemma bind_raise {A B : Type} (r : result A) (k : A → result B) (e : exn) :
  r ≫= k = Raise e → r = Raise e ∨ ∃ a, r = Ok a ∧ k a = Raise e.
Proof.
  unfold mbind, result_bind.
  destruct r as [a | x]; intros H.
  - right. by exists a.
  - left. congruence.
Qed.

Lemma py_int_raises (s : string) (e : exn) :
  Num.py_int s = Raise e → e = ValueError.
Proof. unfold Num.py_int. repeat (case_match; try congruence). Qed.

Lemma index_raises {A : Type} (l : list A) (i : nat) (e : exn) :
  index l i = Raise e → e = IndexError.
Proof. unfold index, of_option. destruct (l !! i); congruence. Qed.

Lemma block_entry_raises (prec_no : Z) (prec_name : option string)
    (block : node) (e : exn) :
  block_entry prec_no prec_name block = Raise e →
  e = IndexError ∨ e = ValueError ∨ e = TypeError.
Proof.
  unfold block_entry. intros H.
  destruct (Soup.get "onmouseover" block) as [s |]; [| done].
  repeat match type of H with
  | (if ?x then _ else _) = _ => destruct x; [done |]
  | _ ≫= _ = Raise _ =>
      apply bind_raise in H as [H | (? & _ & H)];
      [first [apply index_raises in H | apply py_int_raises in H
             | apply py_float_raises in H]; subst; tauto |]
  end.
  apply bind_raise in H as [H | (? & _ & H)]; [| done].
  unfold of_option in H. destruct prec_name; simplify_eq. tauto.
Qed.

(** X11: the body of the inner loop of [get_master] raises only what
    reading the entry raises, an [IndexError], a [ValueError] or a
    [TypeError]; the lookup [dict_block_name_en[block_name]] never raises
    [KeyError], because every station name of the allow-list has a
    transliteration. *)
Theorem master_block_raises (prec_no : Z) (prec_name : option string)
    (acc : master_acc) (block : node) (e : exn) :
  master_block prec_no prec_name acc block = Raise e →
  block_entry prec_no prec_name block = Raise e ∧
  (e = IndexError ∨ e = ValueError ∨ e = TypeError).
Proof.
  unfold master_block. intros H.
  destruct (block_entry prec_no prec_name block) as [[en |] | x] eqn:Hb;
    simpl in H.
  - destruct (master_add_returns acc en) as [acc' Hadd]. congruence.
  - done.
  - simplify_eq. split; [done |]. by eapply block_entry_raises.
Qed.

Lemma master_block_raises_witness :
  block_entry 44 (Some "東京都") (area {["onmouseover" := "viewPoint"]})
  = Raise IndexError ∧
  (IndexError = IndexError ∨ IndexError = ValueError ∨ IndexError = TypeError).
Proof.
  apply (master_block_raises 44 (Some "東京都") (mkacc ∅ [])
           (area {["onmouseover" := "viewPoint"]}) IndexError).
  vm_compute. reflexivity.
Defined.

(** ** More on the day page *)

Lemma data_rows_of_length (table : node) :
  length (Soup.find_all "tr" table) = 26%nat →
  (length (data_rows_of table) <= 26)%nat.
Proof.
  intros H. unfold data_rows_of. rewrite <- H. apply List.filter_length_le.
Qed.

Lemma qualifying_rows_length (soup : node) :
  (length (qualifying_rows soup) <= 26 * length (candidate_tables soup))%nat.
Proof.
  unfold qualifying_rows.
  assert (Forall (λ t, length (Soup.find_all "tr" t) = 26%nat)
            (candidate_tables soup)) as H.
  { unfold candidate_tables. apply Forall_forall. intros t Ht.
    apply list_elem_of_In, filter_In in Ht as [_ Ht].
    by apply bool_decide_eq_true in Ht. }
  induction H as [| t l Ht _ IH]; [done |].
  simpl. rewrite length_app. pose proof (data_rows_of_length t Ht). lia.
Qed.

(** X12: whenever [get_df_block_date] returns, the page was fetched and
    the frame holds at most 26 rows for every table of exactly 26 rows of
    the parsed page, and no row at all when the page has no such table. *)
Theorem get_df_block_date_bound (BeautifulSoup : string → node)
    (prec_no block_no year month day : Z) (w w' : world)
    (data : list observation) :
  get_df_block_date BeautifulSoup prec_no block_no year month day w
  = (Ok data, w') →
  ∃ content,
    get_page_block_date prec_no block_no year month day w = (Ok content, w') ∧
    (length data
     <= 26 * length (candidate_tables (BeautifulSoup content)))%nat ∧
    (candidate_tables (BeautifulSoup content) = [] → data = []).
Proof.
  unfold get_df_block_date, mbind, M_bind.
  destruct (get_page_block_date prec_no block_no year month day w)
    as [[content | e] w1]; simpl; [| done].
  intros [= <- <-]. exists content. split; [done |].
  rewrite soup_data_spec, length_map. split; [apply qualifying_rows_length |].
  unfold qualifying_rows. by intros ->.
Qed.

Lemma get_df_block_date_bound_witness :
  let BS := λ _ : string, page [day_table plain_row] in
  ∃ content,
    get_page_block_date 44 47662 2024 1 1 cached_world
    = (Ok content, cached_world) ∧
    (length (soup_data 44 47662 2024 1 1 (page [day_table plain_row]))
     <= 26 * length (candidate_tables (BS content)))%nat ∧
    (candidate_tables (BS content) = [] →
     soup_data 44 47662 2024 1 1 (page [day_table plain_row]) = []).
Proof.
  intros BS.
  apply (get_df_block_date_bound BS 44 47662 2024 1 1 cached_world
           cached_world).
  vm_compute. reflexivity.
Defined.

(** ** More on the validator *)

(** X13: [is_numeric] always returns a boolean; where it is true
    [to_numeric_safe] is [float(value)], and where it is false
    [float(value)] raises [ValueError] or [TypeError] and [to_numeric_safe]
    is NaN. *)
Theorem is_numeric_to_numeric_safe (value : pyval) :
  ∃ b, is_numeric value = Ok b ∧
       (b = true → to_numeric_safe value = py_float_of value) ∧
       (b = false →
        to_numeric_safe value = Ok FNan ∧
        (py_float_of value = Raise ValueError ∨
         py_float_of value = Raise TypeError)).
Proof.
  unfold is_numeric, to_numeric_safe, try_except.
  destruct value as [s | f |]; simpl.
  - destruct (Num.py_float s) as [f | e] eqn:H; simpl.
    + exists true. by repeat split.
    + apply py_float_raises in H as Hx. subst e.
      exists false. split; [done |]. split; [done |]. intros _. by split; [| left].
  - exists true. by repeat split.
  - exists false. split; [done |]. split; [done |]. intros _. by split; [| right].
Qed.

(** The date text of the scraper is read back by [to_datetime]. *)
Lemma to_datetime_obs_date (d : date) :
  valid_date d = true → 1000 <= year d →
  to_datetime (str_of_int (year d) +:+ fmt02 (month d) +:+ fmt02 (day d))
  = Ok d.
Proof.
  intros Hd Hy. pose proof Hd as Hv.
  apply valid_date_spec in Hv as (Hy' & Hm & Hdd).
  pose proof (days_in_month_pos (year d) (month d)).
  rewrite (str_of_int_pad4 (year d)), (fmt02_pad2 (month d)),
    (fmt02_pad2 (day d)) by lia.
  unfold to_datetime.
  destruct (pad4_facts (year d)) as (H4 & _ & V4); [lia |].
  destruct (pad2_facts (month d)) as (H2 & _ & V2); [lia |].
  destruct (pad2_facts (day d)) as (H2' & _ & V2'); [lia |].
  rewrite !all_digits_append, H4, H2, H2'.
  change (String.length (Str.pad4 (year d) +:+ Str.pad2 (month d) +:+
                         Str.pad2 (day d)) =? 8)%nat with true.
  change (Str.take 4 (Str.pad4 (year d) +:+ Str.pad2 (month d) +:+
                      Str.pad2 (day d))) with (Str.pad4 (year d)).
  change (Str.take 2 (Str.drop 4 (Str.pad4 (year d) +:+ Str.pad2 (month d) +:+
                                  Str.pad2 (day d))))
    with (Str.pad2 (month d)).
  change (Str.take 2 (Str.drop 6 (Str.pad4 (year d) +:+ Str.pad2 (month d) +:+
                                  Str.pad2 (day d))))
    with (Str.pad2 (day d)).
  cbn [andb]. rewrite V4, V2, V2'.
  replace (mkdate (year d) (month d) (day d)) with d by (by destruct d).
  by rewrite Hd.
Qed.

(** X14: for a valid date with a four-digit year, the text the scraper
    writes into the date column (the year, then month and day with two
    digits) is turned by [format] of the validator into the text
    [strftime] gives for the date, and [to_datetime] with [%Y%m%d] reads
    it back as that date. *)
Theorem format_obs_date (d : date) :
  valid_date d = true → 1000 <= year d →
  let date_str :=
    str_of_int (year d) +:+ fmt02 (month d) +:+ fmt02 (day d) in
  format date_str = strftime d ∧ to_datetime date_str = Ok d.
Proof.
  intros Hd Hy. simpl. split; [| by apply to_datetime_obs_date].
  pose proof Hd as Hv.
  apply valid_date_spec in Hv as (Hy' & Hm & Hdd).
  pose proof (days_in_month_pos (year d) (month d)).
  rewrite (str_of_int_pad4 (year d)), (fmt02_pad2 (month d)),
    (fmt02_pad2 (day d)) by lia.
  reflexivity.
Qed.

Lemma format_obs_date_witness :
  let date_str := str_of_int 2024 +:+ fmt02 2 +:+ fmt02 29 in
  format date_str = strftime (mkdate 2024 2 29) ∧
  to_datetime date_str = Ok (mkdate 2024 2 29).
Proof.
  apply (format_obs_date (mkdate 2024 2 29)); [reflexivity | simpl; lia].
Defined.

(** X15: when no row of the weather file lies in the window, [main] of the
    validator raises [TypeError] instead of reporting: the minimum of the
    empty date column is NaN, which [format] cannot slice. *)
Theorem validate_main_empty_window (weather : list wrow) (master : list mrow)
    (lb ub : string) (output_valid : bool) :
  (∀ r, r ∈ weather →
        String.leb (remove_dashes lb) (w_date r) = false ∨
        String.leb (w_date r) (remove_dashes ub) = false) →
  validate_main weather master lb ub output_valid = Raise TypeError.
Proof.
  intros Hall. unfold validate_main.
  replace (List.filter _ weather) with (@nil wrow); [done |].
  symmetry. induction weather as [| r l IH]; [done |]. simpl.
  destruct (Hall r) as [-> | ->]; [by left | | ]; rewrite ?andb_false_r; simpl;
    apply IH; intros r' Hr'; apply Hall; by right.
Qed.

Lemma validate_main_empty_window_witness :
  validate_main sample_weather sample_master "2025-10-01" "2025-10-31" true
  = Raise TypeError.
Proof.
  apply (validate_main_empty_window sample_weather sample_master
           "2025-10-01" "2025-10-31" true).
  intros r Hr. left.
  repeat (apply elem_of_cons in Hr as [-> | Hr]; [vm_compute; reflexivity |]).
  by apply elem_of_nil in Hr.
Defined.

Lemma bind_ok {A B : Type} (r : result A) (k : A → result B) (b : B) :
  r ≫= k = Ok b → ∃ a, r = Ok a ∧ k a = Ok b.
Proof.
  unfold mbind, result_bind. destruct r as [a | x]; intros H; [| done].
  by exists a.
Qed.

Lemma sorted_unique_Z_strict (l : list Z) :
  StronglySorted Z.lt (sorted_unique_Z l).
Proof.
  unfold sorted_unique_Z.
  assert (NoDup (merge_sort Z.le (remove_dups l))) as Hnd.
  { rewrite merge_sort_Permutation. apply NoDup_remove_dups. }
  assert (StronglySorted Z.le (merge_sort Z.le (remove_dups l))) as Hs.
  { apply StronglySorted_merge_sort; apply _. }
  induction Hs as [| a k Hs IH Hall]; [constructor |].
  apply NoDup_cons in Hnd as [Ha Hnd]. constructor; [by apply IH |].
  rewrite Forall_forall in *. intros x Hx.
  specialize (Hall x Hx). assert (a ≠ x) by (by intros ->). lia.
Qed.

Lemma sorted_unique_str_NoDup (l : list string) : NoDup (sorted_unique_str l).
Proof.
  unfold sorted_unique_str. rewrite merge_sort_Permutation.
  apply NoDup_remove_dups.
Qed.

Lemma column_not_timestamp (var : variable) (name : string) :
  dict_valiable_name_en var +:+ "_" +:+ name ≠ "timestamp".
Proof. destruct var; vm_compute; discriminate. Qed.

Lemma mapM_result_length {A B : Type} (f : A → result B) (l : list A)
    (k : list B) :
  mapM f l = Ok k → length k = length l.
Proof.
  revert k. induction l as [| x l IH]; intros k H; simpl in H.
  - by injection H as <-.
  - apply bind_ok in H as (y & _ & H). apply bind_ok in H as (k' & Hk & H).
    injection H as <-. simpl. f_equal. by apply IH.
Qed.

(** The station names of the rows [reshape_weather] works on. *)
Lemma block_names_of_rows (ts : list Z) :
  ∀ (bn : list (option string)) (vs : list pyfloat),
    length ts = length bn → length bn = length vs →
    map r_block_name
      (zip_with (λ (tn : Z * option string) v, mkrrow tn.1 tn.2 v)
         (zip ts bn) vs)
    = bn.
Proof.
  induction ts as [| t ts IH]; intros [| b bn] [| v vs] H1 H2; simpl in *;
    try done.
  f_equal. apply IH; lia.
Qed.

(** X16: for a weather file whose stations all have a master entry,
    whenever [reshape_weather] returns, the columns of the table are
    [timestamp] followed by one column for every station name that occurs
    in the file, named by the abbreviation of the variable, an underscore
    and the name, each once; the rows are in strictly increasing order of
    timestamp, and every row has one cell per column. *)
Theorem reshape_weather_shape (weather : list wrow) (master : list mrow)
    (var : variable) (t : table) :
  (∀ r, r ∈ weather → is_Some (block_names master !! w_block_no r)) →
  reshape_weather weather master var = Ok t →
  (∃ names,
     columns t
     = "timestamp"
         :: map (λ name, dict_valiable_name_en var +:+ "_" +:+ name) names ∧
     NoDup names ∧
     ∀ name, name ∈ names ↔
             ∃ r, r ∈ weather ∧
                  block_names master !! w_block_no r = Some name) ∧
  NoDup (columns t) ∧
  StronglySorted Z.lt (map fst (rows t)) ∧
  Forall (λ r, S (length r.2) = length (columns t)) (rows t).
Proof.
  unfold reshape_weather. intros Hall H.
  apply bind_ok in H as (_hour & Hh & H).
  apply bind_ok in H as (_date & Hdt & H).
  apply bind_ok in H as (value & Hv & H).
  cbv zeta in H.
  match type of H with
  | (if ?c then _ else _) = _ => destruct c; [| done]
  end.
  injection H as <-. cbn [columns rows].
  apply mapM_result_length in Hh, Hdt, Hv.
  match goal with
  | |- context [sorted_unique_str (omap r_block_name ?l)] => set (rs := l)
  end.
  assert (map r_block_name rs
          = map (λ r, block_names master !! w_block_no r) weather) as Hbn.
  { apply block_names_of_rows; rewrite ?length_zip_with, ?length_map; lia. }
  assert (bool_decide (None ∈ map r_block_name rs) = false) as Hlab.
  { apply bool_decide_eq_false_2. rewrite Hbn. intros Hin.
    apply list_elem_of_fmap in Hin as (r & Hnone & Hr).
    destruct (Hall r Hr) as [name Hname]. congruence. }
  set (names := sorted_unique_str (omap r_block_name rs)).
  match goal with
  | |- context [sorted_unique_Z ?l] => set (ts := sorted_unique_Z l)
  end.
  split; [| split; [| split]].
  - exists names. split; [by rewrite Hlab, app_nil_l, map_map |].
    split; [apply sorted_unique_str_NoDup |].
    intros name. unfold names, sorted_unique_str.
    rewrite merge_sort_Permutation, elem_of_remove_dups, list_elem_of_omap.
    split.
    + intros (x & Hx & Hname).
      assert (Some name ∈ map r_block_name rs) as Hin.
      { rewrite <- Hname. apply list_elem_of_fmap. by exists x. }
      rewrite Hbn in Hin. apply list_elem_of_fmap in Hin as (r & Hr1 & Hr2).
      by exists r.
    + intros (r & Hr & Hname).
      assert (Some name ∈ map r_block_name rs) as Hin.
      { rewrite Hbn. apply list_elem_of_fmap. by exists r. }
      apply list_elem_of_fmap in Hin as (x & Hx1 & Hx2). by exists x.
  - rewrite Hlab, app_nil_l, map_map. cbn [default from_option id].
    constructor.
    + intros Hin. apply list_elem_of_fmap in Hin as (name & Hn & _).
      by destruct (column_not_timestamp var name).
    + apply (NoDup_fmap_2 _), sorted_unique_str_NoDup.
  - rewrite map_map. simpl. rewrite map_id. apply sorted_unique_Z_strict.
  - apply Forall_forall. intros r Hr.
    apply list_elem_of_fmap in Hr as (x & -> & _). cbn [snd].
    rewrite Hlab, !app_nil_l. cbn [length]. by rewrite !length_map.
Qed.

Lemma reshape_weather_shape_witness :
  let t := {| columns := ["timestamp"; "temp_osaka"; "temp_tokyo"];
              rows := [(17747881, [FFin (Qmake 26 1); FFin (Qmake 251 10)]);
                       (17747882, [FNan; FFin (Qmake 124 5)])] |} in
  (∃ names,
     columns t
     = "timestamp"
         :: map (λ name, dict_valiable_name_en Temp +:+ "_" +:+ name) names ∧
     NoDup names ∧
     ∀ name, name ∈ names ↔
             ∃ r, r ∈ sample_weather ∧
                  block_names sample_master !! w_block_no r = Some name) ∧
  NoDup (columns t) ∧
  StronglySorted Z.lt (map fst (rows t)) ∧
  Forall (λ r, S (length r.2) = length (columns t)) (rows t).
Proof.
  intros t.
  apply (reshape_weather_shape sample_weather sample_master Temp t).
  - intros r Hr.
    repeat (apply elem_of_cons in Hr as [-> | Hr];
            [vm_compute; eexists; reflexivity |]).
    by apply elem_of_nil in Hr.
  - vm_compute. reflexivity.
Defined.

Lemma append_eq_l (a x y : string) : a +:+ x = a +:+ y ↔ x = y.
Proof. split; [apply append_inv_l | by intros ->]. Qed.

Lemma month_day_texts (m d : Z) :
  1 <= m <= 12 → 1 <= d <= 31 →
  Str.pad2 m +:+ "&day=" +:+ Str.pad2 d +:+ "&view="
  = str_of_int m +:+ "&day=" +:+ str_of_int d +:+ "&view="
  ↔ 10 <= m ∧ 10 <= d.
Proof.
  intros Hm Hd.
  assert (forallb (λ m, forallb (λ d,
            Bool.eqb
              (String.eqb (Str.pad2 m +:+ "&day=" +:+ Str.pad2 d +:+ "&view=")
                 (str_of_int m +:+ "&day=" +:+ str_of_int d +:+ "&view="))
              ((10 <=? m) && (10 <=? d))) (seqZ 1 31)) (seqZ 1 12) = true) as H
    by (vm_compute; reflexivity).
  rewrite forallb_forall in H.
  specialize (H m). rewrite forallb_forall in H.
  specialize (H ltac:(apply list_elem_of_In, elem_of_seqZ; lia) d
                ltac:(apply list_elem_of_In, elem_of_seqZ; lia)).
  apply Bool.eqb_prop in H. rewrite <- String.eqb_eq, H.
  rewrite andb_true_iff, !Z.leb_le. done.
Qed.

(** X17: for a row the scraper wrote (region and station as decimal
    numbers, a valid date with a four-digit year), the URL [get_jma_url]
    prints carries month and day with two digits; it is the URL
    [get_page_block_date] requested for that row exactly when month and
    day are both at least 10. *)
Theorem get_jma_url_scraper (p b : Z) (d : date) (row : wrow) :
  valid_date d = true → 1000 <= year d →
  w_prec_no row = str_of_int p → w_block_no row = str_of_int b →
  w_date row = str_of_int (year d) +:+ fmt02 (month d) +:+ fmt02 (day d) →
  get_jma_url row
  = "https://www.data.jma.go.jp/stats/etrn/view/hourly_s1.php" +:+
    "?prec_no=" +:+ str_of_int p +:+ "&block_no=" +:+ str_of_int b +:+
    "&year=" +:+ Str.pad4 (year d) +:+ "&month=" +:+ Str.pad2 (month d) +:+
    "&day=" +:+ Str.pad2 (day d) +:+ "&view=" ∧
  (get_jma_url row = block_date_url p b (year d) (month d) (day d) ↔
   10 <= month d ∧ 10 <= day d).
Proof.
  intros Hd Hy Hp Hb Hdate. pose proof Hd as Hv.
  apply valid_date_spec in Hv as (Hy' & Hm & Hdd).
  pose proof (days_in_month_pos (year d) (month d)).
  assert (get_jma_url row
    = "https://www.data.jma.go.jp/stats/etrn/view/hourly_s1.php" +:+
      "?prec_no=" +:+ str_of_int p +:+ "&block_no=" +:+ str_of_int b +:+
      "&year=" +:+ Str.pad4 (year d) +:+ "&month=" +:+ Str.pad2 (month d) +:+
      "&day=" +:+ Str.pad2 (day d) +:+ "&view=") as Hurl.
  { unfold get_jma_url. rewrite Hp, Hb, Hdate.
    rewrite (str_of_int_pad4 (year d)), (fmt02_pad2 (month d)),
      (fmt02_pad2 (day d)) by lia.
    reflexivity. }
  split; [done |]. rewrite Hurl. unfold block_date_url.
  rewrite (str_of_int_pad4 (year d)) by lia.
  rewrite !append_eq_l. apply month_day_texts; lia.
Qed.

Lemma get_jma_url_scraper_witness :
  get_jma_url (wr "44" "47662" "1" "25.1")
  = "https://www.data.jma.go.jp/stats/etrn/view/hourly_s1.php" +:+
    "?prec_no=" +:+ str_of_int 44 +:+ "&block_no=" +:+ str_of_int 47662 +:+
    "&year=" +:+ Str.pad4 2025 +:+ "&month=" +:+ Str.pad2 9 +:+
    "&day=" +:+ Str.pad2 1 +:+ "&view=" ∧
  (get_jma_url (wr "44" "47662" "1" "25.1") = block_date_url 44 47662 2025 9 1 ↔
   10 <= 9 ∧ 10 <= 1).
Proof.
  apply (get_jma_url_scraper 44 47662 (mkdate 2025 9 1)
           (wr "44" "47662" "1" "25.1"));
    first [reflexivity | simpl; lia].
Defined.

(** ** The months of [main] *)







Lemma extract_impl_world (tar : string) (w : world) :
  (extract_impl tar w).1 = Ok tt ∧
  tar_gz (extract_impl tar w).2 = tar_gz w ∧
  fault (extract_impl tar w).2 = fault w ∧
  cache (extract_impl tar w).2
  = archive_files (default [] (tar_gz w !! tar)) ∪ cache w.
Proof.
  unfold extract_impl. destruct (tar_gz w !! tar) as [ms |]; simpl.
  - destruct (extract_members_cache tar ms w) as [Hc Ht].
    split; [done |]. split; [done |]. split; [| done].
    clear. revert w. induction ms as [| [name bytes] ms IH]; intros w; [done |].
    simpl. by rewrite IH.
  - unfold archive_files. simpl. by rewrite (left_id_L ∅ (∪)).
Qed.



(** ** [main] *)

Lemma get_dates_reversed (s e : string) (ds de : date) :
  strptime s = Ok ds → strptime e = Ok de → toordinal de < toordinal ds →
  get_dates s e = Ok [].
Proof.
  intros Hs He Hlt. unfold get_dates. rewrite Hs, He. simpl.
  by replace (Z.to_nat (toordinal de - toordinal ds + 1)) with 0%nat by lia.
Qed.

(** X19: for two dates [strptime] accepts, the end before the start, [main]
    does what its master phase does ([extract_precs], [get_master],
    [compress_precs]) and nothing more: it extracts and writes no month
    archive, reads no day page and writes no weather file. *)
Theorem main_reversed_range (BeautifulSoup : string → node) (s e : string)
    (ds de : date) (w : world) :
  strptime s = Ok ds → strptime e = Ok de → toordinal de < toordinal ds →
  main BeautifulSoup s e w
  = (_ ← extract_precs; _ ← get_master BeautifulSoup;
     _ ← compress_precs true; mret None) w.
Proof.
  intros Hs He Hlt. unfold main.
  rewrite (get_dates_reversed s e ds de Hs He Hlt).
  unfold mbind, M_bind, lift.
  destruct (extract_precs w) as [[[] | x] w1]; [| done].
  destruct (get_master BeautifulSoup w1) as [[df_m | x] w2]; [| done].
  destruct (compress_precs true w2) as [[[] | x] w3]; done.
Qed.

Lemma main_reversed_range_witness :
  let P := two_pages tokyo_precs (page [oshima; tokyo; nerima; tokyo]) in
  main P "2024-02-01" "2024-01-31" hierarchy_world
  = (_ ← extract_precs; _ ← get_master P;
     _ ← compress_precs true; mret None) hierarchy_world.
Proof.
  intros P.
  apply (main_reversed_range P "2024-02-01" "2024-01-31"
           (mkdate 2024 2 1) (mkdate 2024 1 31) hierarchy_world);
    [reflexivity | reflexivity | vm_compute; reflexivity].
Defined.

(** ** A month, extracted and compressed again *)

Lemma archive_files_lookup (ms : archive) (f : string) :
  match archive_files ms !! f with
  | Some bytes => (f, bytes) ∈ ms
  | None => ∀ bytes, (f, bytes) ∉ ms
  end.
Proof.
  unfold archive_files.
  destruct (list_to_map (reverse ms) !! f) as [b |] eqn:H.
  - apply elem_of_list_to_map_2 in H. rewrite elem_of_reverse in H. exact H.
  - apply not_elem_of_list_to_map_2 in H. intros bytes Hin. apply H.
    apply list_elem_of_fmap. exists (f, bytes). split; [done |].
    rewrite elem_of_reverse. exact Hin.
Qed.

(** X20: without a write fault on the selected files, [compress_month]
    followed by [extract_month] of the same month returns and restores the
    cache directory, name by name and byte by byte; in between, the
    selected files are gone exactly when [remove_cache] is set. *)
Theorem compress_month_extract_month (w : world) (year_month : string)
    (remove_cache : bool) :
  (∀ f, is_target year_month f = true → fault w f = false) →
  ∃ w1 w2,
    compress_month year_month remove_cache w = (Ok tt, w1) ∧
    extract_month year_month w1 = (Ok tt, w2) ∧
    (∀ g, cache w1 !! g
          = if remove_cache && is_target year_month g then None
            else cache w !! g) ∧
    cache w2 = cache w.
Proof.
  intros Hfault. unfold compress_month, extract_month.
  destruct (compress_selected w (year_month +:+ ".tar.gz")
              (is_target year_month) remove_cache Hfault)
    as (w1 & ms & Hrun & Ht & Hms & Hc).
  destruct (extract_impl_world (year_month +:+ ".tar.gz") w1)
    as (Hr & _ & _ & Hc2).
  exists w1, (extract_impl (year_month +:+ ".tar.gz") w1).2.
  split; [done |]. split; [| split; [done |]].
  - destruct (extract_impl (year_month +:+ ".tar.gz") w1) as [r w2].
    simpl in Hr. by subst r.
  - rewrite Hc2, Ht, lookup_insert_eq. simpl.
    apply map_eq. intros g. rewrite lookup_union.
    pose proof (archive_files_lookup ms g) as Hl.
    destruct (archive_files ms !! g) as [b |].
    + apply Hms in Hl as [_ Hb]. rewrite Hb.
      by destruct (cache w1 !! g).
    + rewrite (left_id_L None _). rewrite Hc.
      destruct (remove_cache && is_target year_month g) eqn:E; [| done].
      apply andb_true_iff in E as [_ E].
      destruct (cache w !! g) as [b |] eqn:Hb; [| done].
      destruct (Hl b). apply Hms. done.
Qed.

Lemma compress_month_extract_month_witness :
  ∃ w1 w2,
    compress_month "2024-01" true cached_world = (Ok tt, w1) ∧
    extract_month "2024-01" w1 = (Ok tt, w2) ∧
    (∀ g, cache w1 !! g
          = if true && is_target "2024-01" g then None
            else cache cached_world !! g) ∧
    cache w2 = cache cached_world.
Proof.
  apply (compress_month_extract_month cached_world "2024-01" true).
  intros f Hf. reflexivity.
Defined.

(** X21: [extract_month] followed by [compress_month], as [main] runs them
    around a month, loses no page: without a write fault, the new archive
    of the month holds exactly the selected files of the cache after the
    extraction (the files of the old archive laid over the loose ones),
    and the cache keeps exactly the files that are not selected. *)
Theorem extract_month_compress_month (w : world) (year_month : string) :
  (∀ f, is_target year_month f = true → fault w f = false) →
  let tar := year_month +:+ ".tar.gz" in
  let files := archive_files (default [] (tar_gz w !! tar)) ∪ cache w in
  ∃ w2 ms,
    (_ ← extract_month year_month; compress_month year_month true) w
    = (Ok tt, w2) ∧
    tar_gz w2 = <[tar := ms]> (tar_gz w) ∧
    (∀ f bytes, (f, bytes) ∈ ms ↔
                is_target year_month f = true ∧ files !! f = Some bytes) ∧
    (∀ g, cache w2 !! g
          = if is_target year_month g then None else files !! g).
Proof.
  intros Hfault tar files.
  destruct (extract_impl_world tar w) as (Hr & Ht & Hf & Hc).
  destruct (compress_selected (extract_impl tar w).2 tar
              (is_target year_month) true)
    as (w2 & ms & Hrun & Ht2 & Hms & Hc2).
  { intros f Htarget. rewrite Hf. by apply Hfault. }
  exists w2, ms. split; [| split; [| split]].
  - unfold mbind, M_bind, extract_month, compress_month. fold tar.
    destruct (extract_impl tar w) as [r w1]. simpl in *. by subst r.
  - by rewrite Ht2, Ht.
  - intros f bytes. rewrite Hms, Hc. done.
  - intros g. rewrite Hc2, Hc. done.
Qed.

Lemma extract_month_compress_month_witness :
  let tar := "2024-01" +:+ ".tar.gz" in
  let files :=
    archive_files (default [] (tar_gz cached_world !! tar))
    ∪ cache cached_world in
  ∃ w2 ms,
    (_ ← extract_month "2024-01"; compress_month "2024-01" true) cached_world
    = (Ok tt, w2) ∧
    tar_gz w2 = <[tar := ms]> (tar_gz cached_world) ∧
    (∀ f bytes, (f, bytes) ∈ ms ↔
                is_target "2024-01" f = true ∧ files !! f = Some bytes) ∧
    (∀ g, cache w2 !! g
          = if is_target "2024-01" g then None else files !! g).
Proof.
  apply (extract_month_compress_month cached_world "2024-01").
  intros f Hf. reflexivity.
Defined.

(** ** The window of [validate.py] *)

Lemma digits_val_acc (s : string) :
  ∀ acc, Str.digits_val acc s
         = acc * 10 ^ Z.of_nat (String.length s) + Str.digits_val 0 s.
Proof.
  induction s as [| c s IH]; intros acc.
  - simpl. lia.
  - cbn [Str.digits_val String.length].
    rewrite (IH (10 * acc + Str.digit_val c)), (IH (10 * 0 + Str.digit_val c)).
    rewrite Nat2Z.inj_succ, Z.pow_succ_r by lia. lia.
Qed.

Lemma digit_val_range (c : ascii) :
  Str.is_digit c = true → 0 <= Str.digit_val c <= 9.
Proof.
  unfold Str.is_digit, Str.digit_val.
  rewrite andb_true_iff, !Nat.leb_le. lia.
Qed.

Lemma digits_val_bound (s : string) :
  Str.all_digits s = true →
  0 <= Str.digits_val 0 s < 10 ^ Z.of_nat (String.length s).
Proof.
  induction s as [| c s IH]; intros H.
  - simpl. lia.
  - cbn [Str.all_digits] in H. apply andb_true_iff in H as [Hc Hs].
    specialize (IH Hs). apply digit_val_range in Hc.
    cbn [Str.digits_val String.length]. rewrite digits_val_acc.
    rewrite Nat2Z.inj_succ, Z.pow_succ_r by lia. nia.
Qed.

Lemma ascii_compare_digit_val (c c' : ascii) :
  Ascii.compare c c' = (Str.digit_val c ?= Str.digit_val c').
Proof.
  unfold Ascii.compare, Str.digit_val, nat_of_ascii.
  rewrite !N_nat_Z.
  destruct (N.compare_spec (N_of_ascii c) (N_of_ascii c'));
    symmetry; [apply Z.compare_eq_iff | apply Z.compare_lt_iff
              | apply Z.compare_gt_iff]; lia.
Qed.

(** Texts of digits of one length are ordered as the numbers they write. *)
Lemma compare_digits (a : string) :
  ∀ b, String.length a = String.length b →
       Str.all_digits a = true → Str.all_digits b = true →
       String.compare a b = (Str.digits_val 0 a ?= Str.digits_val 0 b).
Proof.
  induction a as [| c a IH]; intros [| c' b] Hlen Ha Hb; try done.
  cbn [Str.all_digits] in Ha, Hb.
  apply andb_true_iff in Ha as [Hc Ha]. apply andb_true_iff in Hb as [Hc' Hb].
  injection Hlen as Hlen.
  pose proof (digits_val_bound a Ha) as Hva.
  pose proof (digits_val_bound b Hb) as Hvb.
  cbn [String.compare Str.digits_val].
  rewrite (digits_val_acc a (10 * 0 + Str.digit_val c)).
  rewrite (digits_val_acc b (10 * 0 + Str.digit_val c')).
  rewrite ascii_compare_digit_val, (IH b Hlen Ha Hb), <- Hlen in *.
  set (P := 10 ^ Z.of_nat (String.length a)) in *.
  set (x := Str.digit_val c). set (y := Str.digit_val c').
  set (u := Str.digits_val 0 a) in *. set (v := Str.digits_val 0 b) in *.
  destruct (Z.compare_spec x y) as [-> | Hlt | Hgt].
  - destruct (Z.compare_spec u v); symmetry;
      [apply Z.compare_eq_iff | apply Z.compare_lt_iff
      | apply Z.compare_gt_iff]; lia.
  - symmetry. apply Z.compare_lt_iff. nia.
  - symmetry. apply Z.compare_gt_iff. nia.
Qed.

Lemma digits_val_append (a b : string) :
  ∀ acc, Str.digits_val acc (a +:+ b)
         = Str.digits_val (Str.digits_val acc a) b.
Proof.
  induction a as [| c a IH]; intros acc; [done |].
  rewrite append_cons. cbn [Str.digits_val]. apply IH.
Qed.

(** The eight digits of a day. *)
Lemma date_text_value (d : date) :
  valid_date d = true →
  let s := Str.pad4 (year d) +:+ Str.pad2 (month d) +:+ Str.pad2 (day d) in
  String.length s = 8%nat ∧ Str.all_digits s = true ∧
  Str.digits_val 0 s = year d * 10000 + month d * 100 + day d.
Proof.
  rewrite valid_date_spec. intros (Hy & Hm & Hd).
  pose proof (days_in_month_pos (year d) (month d)).
  destruct (pad4_facts (year d)) as (H4 & _ & V4); [lia |].
  destruct (pad2_facts (month d)) as (H2 & _ & V2); [lia |].
  destruct (pad2_facts (day d)) as (H2' & _ & V2'); [lia |].
  cbv zeta. split; [reflexivity |]. split.
  - by rewrite !all_digits_append, H4, H2, H2'.
  - rewrite !digits_val_append, V4.
    rewrite (digits_val_acc (Str.pad2 (month d))), V2.
    rewrite (digits_val_acc (Str.pad2 (day d))), V2'.
    change (String.length (Str.pad2 (month d))) with 2%nat.
    change (String.length (Str.pad2 (day d))) with 2%nat.
    lia.
Qed.

Lemma date_text_leb (a b : date) :
  valid_date a = true → valid_date b = true →
  String.leb
    (Str.pad4 (year a) +:+ Str.pad2 (month a) +:+ Str.pad2 (day a))
    (Str.pad4 (year b) +:+ Str.pad2 (month b) +:+ Str.pad2 (day b))
  = (toordinal a <=? toordinal b).
Proof.
  intros Ha Hb.
  destruct (date_text_value a Ha) as (La & Da & Va).
  destruct (date_text_value b Hb) as (Lb & Db & Vb).
  unfold String.leb. rewrite compare_digits by (done || congruence).
  rewrite Va, Vb.
  pose proof (date_le_ordinal a b Ha Hb) as Hle. unfold date_le in Hle.
  pose proof Ha as Ha'. pose proof Hb as Hb'.
  apply valid_date_spec in Ha' as (? & ? & ?).
  apply valid_date_spec in Hb' as (? & ? & ?).
  pose proof (days_in_month_pos (year a) (month a)).
  pose proof (days_in_month_pos (year b) (month b)).
  destruct (Z.leb_spec (toordinal a) (toordinal b)) as [Hord | Hord].
  - apply Hle in Hord.
    destruct (Z.compare_spec (year a * 10000 + month a * 100 + day a)
                (year b * 10000 + month b * 100 + day b)); [done | done | lia].
  - destruct (Z.compare_spec (year a * 10000 + month a * 100 + day a)
                (year b * 10000 + month b * 100 + day b)) as [E | E | E];
      [| | done]; exfalso;
      assert (toordinal a <= toordinal b) by (apply Hle; lia); lia.
Qed.

Lemma remove_dashes_append (a b : string) :
  remove_dashes (a +:+ b) = remove_dashes a +:+ remove_dashes b.
Proof.
  induction a as [| c a IH]; [done |].
  rewrite append_cons. cbn [remove_dashes].
  destruct (decide (c = "-"%char)); [done |]. by rewrite append_cons, IH.
Qed.

Lemma remove_dashes_none (s : string) :
  has_char "-" s = false → remove_dashes s = s.
Proof.
  induction s as [| c s IH]; [done |]. cbn [has_char remove_dashes].
  intros H. apply orb_false_iff in H as [Hc Hs].
  apply bool_decide_eq_false in Hc. rewrite decide_False by done.
  by rewrite IH.
Qed.

Lemma remove_dashes_strftime (d : date) :
  valid_date d = true →
  remove_dashes (strftime d)
  = Str.pad4 (year d) +:+ Str.pad2 (month d) +:+ Str.pad2 (day d).
Proof.
  rewrite valid_date_spec. intros (Hy & Hm & Hd).
  pose proof (days_in_month_pos (year d) (month d)).
  unfold strftime. rewrite !remove_dashes_append.
  rewrite (remove_dashes_none (Str.pad4 (year d)))
    by (apply (no_dash_pad4 (year d)); lia).
  rewrite (remove_dashes_none (Str.pad2 (month d)))
    by (apply (no_dash_pad2 (month d)); lia).
  rewrite (remove_dashes_none (Str.pad2 (day d)))
    by (apply (no_dash_pad2 (day d)); lia).
  reflexivity.
Qed.

(** X22: for bounds given as zero-padded dates (the texts [strftime]
    writes) and a weather file whose dates the scraper wrote for valid
    dates with four-digit years, the comparison of texts in [main] of the
    validator keeps exactly the rows whose day lies between the two
    bounds, both included. *)
Theorem validate_main_window (weather : list wrow) (master : list mrow)
    (dl du : date) (output_valid : bool) :
  valid_date dl = true → valid_date du = true →
  (∀ r, r ∈ weather →
        ∃ d, valid_date d = true ∧ 1000 <= year d ∧
             w_date r
             = str_of_int (year d) +:+ fmt02 (month d) +:+ fmt02 (day d)) →
  validate_main weather master (strftime dl) (strftime du) output_valid
  = validate_column (List.filter (in_window dl du) weather) master Temp
      output_valid.
Proof.
  intros Hl Hu Hrows. unfold validate_main. cbv zeta. f_equal.
  apply List.filter_ext_in. intros r Hr.
  apply list_elem_of_In in Hr.
  destruct (Hrows r Hr) as (d & Hd & Hy & Hdate).
  unfold in_window.
  rewrite !remove_dashes_strftime by done. rewrite Hdate.
  rewrite (to_datetime_obs_date d Hd Hy).
  pose proof Hd as Hv. apply valid_date_spec in Hv as (Hy' & Hm & Hdd).
  pose proof (days_in_month_pos (year d) (month d)).
  rewrite (str_of_int_pad4 (year d)), (fmt02_pad2 (month d)),
    (fmt02_pad2 (day d)) by lia.
  by rewrite !date_text_leb.
Qed.

Lemma validate_main_window_witness :
  validate_main sample_weather sample_master
    (strftime (mkdate 2025 9 1)) (strftime (mkdate 2025 9 30)) true
  = validate_column
      (List.filter (in_window (mkdate 2025 9 1) (mkdate 2025 9 30))
         sample_weather) sample_master Temp true.
Proof.
  apply (validate_main_window sample_weather sample_master
           (mkdate 2025 9 1) (mkdate 2025 9 30) true);
    [reflexivity | reflexivity |].
  intros r Hr. exists (mkdate 2025 9 1).
  split; [reflexivity |]. split; [simpl; lia |].
  repeat (apply elem_of_cons in Hr as [-> | Hr]; [vm_compute; reflexivity |]).
  by apply elem_of_nil in Hr.
Defined.
